(** * Musketeer-Stockfish board core: a shallow embedding

    The development follows the sources

      - [src/bitboard.cpp]  ray walking, leaper tables, magic tables
      - [betza.cpp]         the registry of custom (Betza) pieces
      - [src/position.h], [src/position.cpp]
                            the [Position] object, [do_move] / [undo_move],
                            [see_ge], the FEN reader and writer
      - [movegen.cpp]       the pseudo-legal move generator

    Squares, bitboards, keys and scores are integers ([Z]); a 64-bit
    bitboard is a [Z] in [0, 2^64) and the bit operations are those of
    [Z].  C arrays are total functions from their index type; record
    fields keep the names of the C++ members. *)

From Stdlib Require Import ZArith List Bool Lia String Ascii Permutation.
Import ListNotations.

Local Open Scope Z_scope.
Local Open Scope bool_scope.

(* ================================================================= *)
(** ** Types and geometry *)

(** Modelled from the spec: [types.h] is not part of the sources at hand.
    The spec (section 3) gives the closed enumerations: two colours, the
    six orthodox piece types, the ten extra gating types and a range of
    identifiers reserved for custom pieces.  The tables of
    [Bitboards::init] have seventeen rows, the last one (16) for the
    king, so the custom identifiers follow [KING].
    [ALL_PIECES] shares the value of [NO_PIECE_TYPE]. *)
Inductive Color : Type := WHITE | BLACK.

Inductive PieceType : Type :=
  | NO_PIECE_TYPE
  | PAWN | KNIGHT | BISHOP | ROOK | QUEEN
  | CANNON | LEOPARD | ARCHBISHOP | CHANCELLOR | SPIDER
  | DRAGON | UNICORN | HAWK | ELEPHANT | FORTRESS
  | KING
  | CUSTOM_PIECE_1 | CUSTOM_PIECE_2 | CUSTOM_PIECE_3
  | CUSTOM_PIECE_4 | CUSTOM_PIECE_5 | CUSTOM_PIECE_6
  | CUSTOM_PIECE_7 | CUSTOM_PIECE_8 | CUSTOM_PIECE_9.

Definition ALL_PIECES : PieceType := NO_PIECE_TYPE.

Definition Square := Z.
Definition Bitboard := Z.
Definition Key := Z.
Definition Value := Z.
Definition Score := Z.
Definition Gate := Z.
Definition Direction := Z.

Definition flip (c : Color) : Color :=
  match c with WHITE => BLACK | BLACK => WHITE end.

Definition color_eqb (a b : Color) : bool :=
  match a, b with
  | WHITE, WHITE | BLACK, BLACK => true
  | _, _ => false
  end.

Definition color_index (c : Color) : Z :=
  match c with WHITE => 0 | BLACK => 1 end.

(** The ordinal of a piece type: the rows of the tables of
    [Bitboards::init] give 0..16 for [NO_PIECE_TYPE] .. [KING]; the
    custom range follows. *)
Definition pt_index (pt : PieceType) : Z :=
  match pt with
  | NO_PIECE_TYPE => 0
  | PAWN => 1 | KNIGHT => 2 | BISHOP => 3 | ROOK => 4 | QUEEN => 5
  | CANNON => 6 | LEOPARD => 7 | ARCHBISHOP => 8 | CHANCELLOR => 9
  | SPIDER => 10 | DRAGON => 11 | UNICORN => 12 | HAWK => 13
  | ELEPHANT => 14 | FORTRESS => 15
  | KING => 16
  | CUSTOM_PIECE_1 => 17 | CUSTOM_PIECE_2 => 18 | CUSTOM_PIECE_3 => 19
  | CUSTOM_PIECE_4 => 20 | CUSTOM_PIECE_5 => 21 | CUSTOM_PIECE_6 => 22
  | CUSTOM_PIECE_7 => 23 | CUSTOM_PIECE_8 => 24 | CUSTOM_PIECE_9 => 25
  end.

Definition pt_eqb (a b : PieceType) : bool := pt_index a =? pt_index b.

(** [for (PieceType pt = PAWN; pt <= KING; ++pt)] *)
Definition piece_types_PAWN_to_KING : list PieceType :=
  [ PAWN; KNIGHT; BISHOP; ROOK; QUEEN;
    CANNON; LEOPARD; ARCHBISHOP; CHANCELLOR; SPIDER;
    DRAGON; UNICORN; HAWK; ELEPHANT; FORTRESS;
    KING ].

Definition is_custom (pt : PieceType) : bool :=
  match pt with
  | CUSTOM_PIECE_1 | CUSTOM_PIECE_2 | CUSTOM_PIECE_3
  | CUSTOM_PIECE_4 | CUSTOM_PIECE_5 | CUSTOM_PIECE_6
  | CUSTOM_PIECE_7 | CUSTOM_PIECE_8 | CUSTOM_PIECE_9 => true
  | _ => false
  end.

(** Modelled from the spec: "a piece pairs a colour with a piece type; a
    sentinel no-piece value is distinguished".  The sentinel is the pair
    of the zero colour with the zero type, as the integer encoding has
    it, so that [color_of NO_PIECE = WHITE]. *)
Record Piece : Type := make_piece { color_of : Color; type_of : PieceType }.

Definition NO_PIECE : Piece := make_piece WHITE NO_PIECE_TYPE.

Definition piece_eqb (a b : Piece) : bool :=
  color_eqb (color_of a) (color_of b) && pt_eqb (type_of a) (type_of b).

(** Squares are 0..63, file in the low three bits, rank in the high
    three; [SQ_NONE] is the value after [SQ_H8]. *)
Definition SQ_A1 : Square := 0.
Definition SQ_C1 : Square := 2.
Definition SQ_D1 : Square := 3.
Definition SQ_F1 : Square := 5.
Definition SQ_G1 : Square := 6.
Definition SQ_H1 : Square := 7.
Definition SQ_A8 : Square := 56.
Definition SQ_H8 : Square := 63.
Definition SQ_NONE : Square := 64.

Definition NORTH : Direction := 8.
Definition EAST : Direction := 1.
Definition SOUTH : Direction := -8.
Definition WEST : Direction := -1.
Definition NORTH_EAST : Direction := 9.
Definition SOUTH_EAST : Direction := -7.
Definition SOUTH_WEST : Direction := -9.
Definition NORTH_WEST : Direction := 7.

Definition RANK_1 : Z := 0.
Definition RANK_2 : Z := 1.
Definition RANK_6 : Z := 5.
Definition RANK_8 : Z := 7.
Definition FILE_A : Z := 0.
Definition FILE_H : Z := 7.

Definition file_of (s : Square) : Z := Z.land s 7.
Definition rank_of (s : Square) : Z := Z.shiftr s 3.
Definition make_square (f r : Z) : Square := Z.shiftl r 3 + f.
Definition is_ok (s : Square) : bool := (SQ_A1 <=? s) && (s <=? SQ_H8).

Definition relative_rank (c : Color) (r : Z) : Z := Z.lxor r (color_index c * 7).
Definition relative_square (c : Color) (s : Square) : Square :=
  Z.lxor s (color_index c * 56).
Definition pawn_push (c : Color) : Direction :=
  match c with WHITE => NORTH | BLACK => SOUTH end.

(** Gates: [NO_GATE], [GATE_1], [GATE_2].  Modelled from the spec: two
    gating slots per game (the fallback pair of [do_move] and the two
    squares [s1], [s2] of the XBoard reader fill exactly two), so
    [GATE_NB] is three. *)
Definition NO_GATE : Gate := 0.
Definition GATE_1 : Gate := 1.
Definition GATE_NB : Gate := 3.

(** Castling rights, a four bit mask. *)
Definition NO_CASTLING : Z := 0.
Definition WHITE_OO : Z := 1.
Definition WHITE_OOO : Z := 2.
Definition BLACK_OO : Z := 4.
Definition BLACK_OOO : Z := 8.
Definition ANY_CASTLING : Z := 15.

Inductive CastlingSide : Type := KING_SIDE | QUEEN_SIDE.

(** [operator|(Color, CastlingSide)] *)
Definition castling_right (c : Color) (cs : CastlingSide) : Z :=
  Z.shiftl WHITE_OO ((match cs with KING_SIDE => 0 | QUEEN_SIDE => 1 end)
                     + 2 * color_index c).

(** Modelled from the spec: a move carries origin, destination, one of
    nine type tags and a piece-type payload.  The record is the decoded
    view of the packed 16-bit value; [type_of_m] is the tag as
    [position.cpp] tests it, with the three directional promotion tags
    of the generator read as [PROMOTION]. *)
Inductive MoveType : Type :=
  | NORMAL | PROMOTION | ENPASSANT | CASTLING
  | PROMOTION_LEFT | PROMOTION_RIGHT | PROMOTION_STRAIGHT
  | SET_GATING_TYPE | PUT_GATING_PIECE.

Record Move : Type := make
  { move_tag : MoveType; from_sq : Square; to_sq : Square; move_pt : PieceType }.

Definition make_move (from to : Square) : Move := make NORMAL from to NO_PIECE_TYPE.

Definition type_of_m (m : Move) : MoveType :=
  match move_tag m with
  | PROMOTION_LEFT | PROMOTION_RIGHT | PROMOTION_STRAIGHT => PROMOTION
  | t => t
  end.

Definition promotion_type (m : Move) : PieceType :=
  match type_of_m m with PROMOTION => move_pt m | _ => NO_PIECE_TYPE end.

Definition gating_type (m : Move) : PieceType := move_pt m.

Definition movetype_index (t : MoveType) : Z :=
  match t with
  | NORMAL => 0 | PROMOTION => 1 | ENPASSANT => 2 | CASTLING => 3
  | PROMOTION_LEFT => 4 | PROMOTION_RIGHT => 5 | PROMOTION_STRAIGHT => 6
  | SET_GATING_TYPE => 7 | PUT_GATING_PIECE => 8
  end.

Definition move_eqb (a b : Move) : bool :=
  (movetype_index (move_tag a) =? movetype_index (move_tag b))
  && (from_sq a =? from_sq b) && (to_sq a =? to_sq b)
  && pt_eqb (move_pt a) (move_pt b).

(* ================================================================= *)
(** ** Bitboards *)

Definition U64 : Z := Z.ones 64.

(** [~b] on 64 bits *)
Definition bb_not (b : Bitboard) : Bitboard := Z.ldiff U64 b.

(** [SquareBB[s]], that is [make_bitboard(s)] *)
Definition SquareBB (s : Square) : Bitboard := Z.shiftl 1 s.

(** [b & s], [b | s], [b ^ s] with a square operand *)
Definition bb_has (b : Bitboard) (s : Square) : bool :=
  negb (Z.land b (SquareBB s) =? 0).

Definition more_than_one (b : Bitboard) : bool :=
  negb (Z.land b (b - 1) =? 0).

Definition all_squares : list Square := map Z.of_nat (seq 0 64).

(** Modelled from the spec: [lsb] and [pop_lsb] ("least-significant-bit
    extraction") live in the absent [bitboard.h].  [squares_of b] is the
    sequence of squares that the loop [while (b) s = pop_lsb(&b)]
    delivers: the set bits of [b] from the lowest up. *)
Definition squares_of (b : Bitboard) : list Square :=
  filter (Z.testbit b) all_squares.

Definition lsb (b : Bitboard) : Square :=
  match squares_of b with s :: _ => s | [] => SQ_NONE end.

Definition FileABB : Bitboard := 0x0101010101010101.
Definition FileHBB : Bitboard := Z.shiftl FileABB 7.
Definition Rank1BB : Bitboard := 0xFF.
Definition Rank2BB : Bitboard := Z.shiftl Rank1BB 8.
Definition Rank3BB : Bitboard := Z.shiftl Rank1BB 16.
Definition Rank6BB : Bitboard := Z.shiftl Rank1BB 40.
Definition Rank7BB : Bitboard := Z.shiftl Rank1BB 48.
Definition Rank8BB : Bitboard := Z.shiftl Rank1BB 56.

(** [FileBB[f]], [RankBB[r]] as [Bitboards::init] fills them *)
Definition FileBB (f : Z) : Bitboard := Z.shiftl FileABB f.
Definition RankBB (r : Z) : Bitboard := Z.shiftl Rank1BB (8 * r).
Definition file_bb (s : Square) : Bitboard := FileBB (file_of s).
Definition rank_bb (s : Square) : Bitboard := RankBB (rank_of s).

(** [SquareDistance[s1][s2]]: the larger of file and rank distance, and
    zero on the diagonal of the table, which is never written. *)
Definition SquareDistance (s1 s2 : Square) : Z :=
  if s1 =? s2 then 0
  else Z.max (Z.abs (file_of s1 - file_of s2)) (Z.abs (rank_of s1 - rank_of s2)).

Definition distance (s1 s2 : Square) : Z := SquareDistance s1 s2.

(** Arrays are functions; [upd a i v] is [a[i] = v]. *)
Definition upd {A : Type} (a : Z -> A) (i : Z) (v : A) : Z -> A :=
  fun j => if j =? i then v else a j.
Definition updC {A : Type} (a : Color -> A) (c : Color) (v : A) : Color -> A :=
  fun d => if color_eqb d c then v else a d.
Definition updT {A : Type} (a : PieceType -> A) (pt : PieceType) (v : A)
  : PieceType -> A :=
  fun q => if pt_eqb q pt then v else a q.
Definition updP {A : Type} (a : Piece -> A) (pc : Piece) (v : A) : Piece -> A :=
  fun q => if piece_eqb q pc then v else a q.

(* ================================================================= *)
(** ** [bitboard.cpp]: ray walking and the leaper tables *)

(** One direction of [sliding_attack]: the body of
    [for (s = sq + d; is_ok(s) && distance(s, s - d) == 1
                      && distance(s, sq) <= max_dist; s += d)].
    The loop variable is [s]; [fuel] bounds the number of iterations
    (a ray has at most seven squares). *)
Fixpoint sliding_ray (fuel : nat) (d : Direction) (sq : Square)
    (occupied : Bitboard) (max_dist : Z) (s : Square) : Bitboard :=
  match fuel with
  | O => 0
  | S n =>
      if is_ok s && (distance s (s - d) =? 1) && (distance s sq <=? max_dist)
      then if bb_has occupied s
           then SquareBB s
           else Z.lor (SquareBB s) (sliding_ray n d sq occupied max_dist (s + d))
      else 0
  end.

(** [sliding_attack(directions, sq, occupied, max_dist)]; the direction
    array is zero-terminated. *)
Fixpoint sliding_attack (directions : list Direction) (sq : Square)
    (occupied : Bitboard) (max_dist : Z) : Bitboard :=
  match directions with
  | [] => 0
  | d :: ds =>
      if d =? 0 then 0
      else Z.lor (sliding_ray 64 d sq occupied max_dist (sq + d))
                 (sliding_attack ds sq occupied max_dist)
  end.

Definition RookDirections : list Direction := [NORTH; EAST; SOUTH; WEST; 0].
Definition BishopDirections : list Direction :=
  [NORTH_EAST; SOUTH_EAST; SOUTH_WEST; NORTH_WEST; 0].
Definition QueenDirections : list Direction :=
  [NORTH; EAST; SOUTH; WEST; NORTH_EAST; SOUTH_EAST; SOUTH_WEST; NORTH_WEST; 0].

(** The rows of [steps], [slider] and [slider_dist] in [Bitboards::init]. *)
Definition steps (pt : PieceType) : list Z :=
  match pt with
  | PAWN => [7; 9]
  | KNIGHT | LEOPARD | ARCHBISHOP | CHANCELLOR | DRAGON =>
      [-17; -15; -10; -6; 6; 10; 15; 17]
  | CANNON => [-16; -10; -9; -8; -7; -6; -2; -1; 16; 10; 9; 8; 7; 6; 2; 1]
  | SPIDER => [-17; -16; -15; -10; -6; -2; 17; 16; 15; 10; 6; 2]
  | UNICORN => [-25; -23; -17; -15; -11; -10; -6; -5; 25; 23; 17; 15; 11; 10; 6; 5]
  | HAWK => [-27; -24; -21; -18; -16; -14; -3; -2; 27; 24; 21; 18; 16; 14; 3; 2]
  | ELEPHANT => [-18; -16; -14; -9; -8; -7; -2; -1; 18; 16; 14; 9; 8; 7; 2; 1]
  | FORTRESS => [-17; -16; -15; -2; 17; 16; 15; 2]
  | KING => [-9; -8; -7; -1; 1; 7; 8; 9]
  | _ => []
  end.

Definition slider (pt : PieceType) : list Direction :=
  match pt with
  | BISHOP | LEOPARD | ARCHBISHOP | SPIDER | FORTRESS => BishopDirections
  | ROOK | CHANCELLOR => RookDirections
  | QUEEN | DRAGON => QueenDirections
  | _ => [0]
  end.

Definition slider_dist (pt : PieceType) : Z :=
  match pt with
  | BISHOP | ROOK | QUEEN | ARCHBISHOP | CHANCELLOR | DRAGON => 7
  | LEOPARD | SPIDER => 2
  | FORTRESS => 3
  | _ => 0
  end.

(** [LeaperAttacks[c][pt][s]] after [Bitboards::init] *)
Definition LeaperAttacks (c : Color) (pt : PieceType) (s : Square) : Bitboard :=
  if pt_index pt <? 17 then
    fold_left
      (fun acc step =>
         let to := s + (match c with WHITE => step | BLACK => - step end) in
         if is_ok to && (distance s to <? 4) then Z.lor acc (SquareBB to) else acc)
      (steps pt) 0
  else 0.

(** [PseudoAttacks[c][pt][s]] after [Bitboards::init] *)
Definition PseudoAttacks (c : Color) (pt : PieceType) (s : Square) : Bitboard :=
  if pt_index pt <? 17 then
    Z.lor (LeaperAttacks c pt s) (sliding_attack (slider pt) s 0 (slider_dist pt))
  else 0.

(* ================================================================= *)
(** ** Tables the position reads *)

(** The Zobrist keys are drawn from the random generator of [misc.h],
    the piece-square and piece-value tables live in [psqt.cpp], and the
    attack look-ups in [bitboard.h]; none of these is among the sources
    at hand, so the position is parameterised by them. *)
Record Tables : Type := {
  Zobrist_psq : Piece -> Z -> Key;
  Zobrist_psq_gate : Piece -> Z -> Key;
  Zobrist_inhand : PieceType -> Gate -> Key;
  Zobrist_enpassant : Z -> Key;
  Zobrist_castling : Z -> Key;
  Zobrist_side : Key;
  Zobrist_noPawns : Key;
  PSQT_psq : Piece -> Square -> Score;
  PSQT_psq_gate : Piece -> Z -> Score;
  PieceValueMG : Piece -> Value;
  (** [attacks_bb(c, pt, s, occupied)] *)
  attacks_bb : Color -> PieceType -> Square -> Bitboard -> Bitboard;
  (** [attacks_bb<Pt>(s, occupied)], the magic look-up *)
  attacks_bb_magic : PieceType -> Square -> Bitboard -> Bitboard;
  between_bb : Square -> Square -> Bitboard;
  aligned : Square -> Square -> Square -> bool
}.

(* ================================================================= *)
(** ** [position.h]: [StateInfo] and [Position] *)

#[warnings="-register-all"]
Inductive StateInfo : Type := mkStateInfo {
  (* Copied when making a move *)
  pawnKey : Key;
  materialKey : Key;
  nonPawnMaterial : Color -> Value;
  castlingRights : Z;
  rule50 : Z;
  pliesFromNull : Z;
  psq : Score;
  epSquare : Square;
  (* Not copied when making a move *)
  key : Key;
  checkersBB : Bitboard;
  capturedPiece : Piece;
  gate : Gate;
  capturedGate : Gate;
  removedGatingType : PieceType;
  previous : option StateInfo;
  blockersForKing : Color -> Bitboard;
  pinners : Color -> Bitboard;
  checkSquares : PieceType -> Bitboard
}.

(** The member [thisThread] only counts nodes and prefetches; it is left
    out.  [st] is the current [StateInfo]; its [previous] chain is the
    caller's stack. *)
Record Position : Type := mkPosition {
  board : Square -> Piece;
  gateBoard : Square -> Gate;
  gatingPieces : Gate -> PieceType;
  gatingSquares : Color -> Gate -> Square;
  byTypeBB : PieceType -> Bitboard;
  byColorBB : Color -> Bitboard;
  gateBB : Bitboard;
  pieceCount : Piece -> Z;
  gateCount : Gate;
  setupCount : Color -> Gate;
  pieceList : Piece -> Z -> Square;
  index : Square -> Z;
  castlingRightsMask : Square -> Z;
  castlingRookSquare : Z -> Square;
  castlingPath : Z -> Bitboard;
  gamePly : Z;
  sideToMove : Color;
  st : StateInfo;
  chess960 : bool
}.

(** Field updates, one per member. *)
Definition si_pawnKey (v : Key) (x : StateInfo) : StateInfo :=
  {| pawnKey := v; materialKey := materialKey x; nonPawnMaterial := nonPawnMaterial x; castlingRights := castlingRights x; rule50 := rule50 x; pliesFromNull := pliesFromNull x; psq := psq x; epSquare := epSquare x; key := key x; checkersBB := checkersBB x; capturedPiece := capturedPiece x; gate := gate x; capturedGate := capturedGate x; removedGatingType := removedGatingType x; previous := previous x; blockersForKing := blockersForKing x; pinners := pinners x; checkSquares := checkSquares x |}.
Definition si_materialKey (v : Key) (x : StateInfo) : StateInfo :=
  {| pawnKey := pawnKey x; materialKey := v; nonPawnMaterial := nonPawnMaterial x; castlingRights := castlingRights x; rule50 := rule50 x; pliesFromNull := pliesFromNull x; psq := psq x; epSquare := epSquare x; key := key x; checkersBB := checkersBB x; capturedPiece := capturedPiece x; gate := gate x; capturedGate := capturedGate x; removedGatingType := removedGatingType x; previous := previous x; blockersForKing := blockersForKing x; pinners := pinners x; checkSquares := checkSquares x |}.
Definition si_nonPawnMaterial (v : Color -> Value) (x : StateInfo) : StateInfo :=
  {| pawnKey := pawnKey x; materialKey := materialKey x; nonPawnMaterial := v; castlingRights := castlingRights x; rule50 := rule50 x; pliesFromNull := pliesFromNull x; psq := psq x; epSquare := epSquare x; key := key x; checkersBB := checkersBB x; capturedPiece := capturedPiece x; gate := gate x; capturedGate := capturedGate x; removedGatingType := removedGatingType x; previous := previous x; blockersForKing := blockersForKing x; pinners := pinners x; checkSquares := checkSquares x |}.
Definition si_castlingRights (v : Z) (x : StateInfo) : StateInfo :=
  {| pawnKey := pawnKey x; materialKey := materialKey x; nonPawnMaterial := nonPawnMaterial x; castlingRights := v; rule50 := rule50 x; pliesFromNull := pliesFromNull x; psq := psq x; epSquare := epSquare x; key := key x; checkersBB := checkersBB x; capturedPiece := capturedPiece x; gate := gate x; capturedGate := capturedGate x; removedGatingType := removedGatingType x; previous := previous x; blockersForKing := blockersForKing x; pinners := pinners x; checkSquares := checkSquares x |}.
Definition si_rule50 (v : Z) (x : StateInfo) : StateInfo :=
  {| pawnKey := pawnKey x; materialKey := materialKey x; nonPawnMaterial := nonPawnMaterial x; castlingRights := castlingRights x; rule50 := v; pliesFromNull := pliesFromNull x; psq := psq x; epSquare := epSquare x; key := key x; checkersBB := checkersBB x; capturedPiece := capturedPiece x; gate := gate x; capturedGate := capturedGate x; removedGatingType := removedGatingType x; previous := previous x; blockersForKing := blockersForKing x; pinners := pinners x; checkSquares := checkSquares x |}.
Definition si_pliesFromNull (v : Z) (x : StateInfo) : StateInfo :=
  {| pawnKey := pawnKey x; materialKey := materialKey x; nonPawnMaterial := nonPawnMaterial x; castlingRights := castlingRights x; rule50 := rule50 x; pliesFromNull := v; psq := psq x; epSquare := epSquare x; key := key x; checkersBB := checkersBB x; capturedPiece := capturedPiece x; gate := gate x; capturedGate := capturedGate x; removedGatingType := removedGatingType x; previous := previous x; blockersForKing := blockersForKing x; pinners := pinners x; checkSquares := checkSquares x |}.
Definition si_psq (v : Score) (x : StateInfo) : StateInfo :=
  {| pawnKey := pawnKey x; materialKey := materialKey x; nonPawnMaterial := nonPawnMaterial x; castlingRights := castlingRights x; rule50 := rule50 x; pliesFromNull := pliesFromNull x; psq := v; epSquare := epSquare x; key := key x; checkersBB := checkersBB x; capturedPiece := capturedPiece x; gate := gate x; capturedGate := capturedGate x; removedGatingType := removedGatingType x; previous := previous x; blockersForKing := blockersForKing x; pinners := pinners x; checkSquares := checkSquares x |}.
Definition si_epSquare (v : Square) (x : StateInfo) : StateInfo :=
  {| pawnKey := pawnKey x; materialKey := materialKey x; nonPawnMaterial := nonPawnMaterial x; castlingRights := castlingRights x; rule50 := rule50 x; pliesFromNull := pliesFromNull x; psq := psq x; epSquare := v; key := key x; checkersBB := checkersBB x; capturedPiece := capturedPiece x; gate := gate x; capturedGate := capturedGate x; removedGatingType := removedGatingType x; previous := previous x; blockersForKing := blockersForKing x; pinners := pinners x; checkSquares := checkSquares x |}.
Definition si_key (v : Key) (x : StateInfo) : StateInfo :=
  {| pawnKey := pawnKey x; materialKey := materialKey x; nonPawnMaterial := nonPawnMaterial x; castlingRights := castlingRights x; rule50 := rule50 x; pliesFromNull := pliesFromNull x; psq := psq x; epSquare := epSquare x; key := v; checkersBB := checkersBB x; capturedPiece := capturedPiece x; gate := gate x; capturedGate := capturedGate x; removedGatingType := removedGatingType x; previous := previous x; blockersForKing := blockersForKing x; pinners := pinners x; checkSquares := checkSquares x |}.
Definition si_checkersBB (v : Bitboard) (x : StateInfo) : StateInfo :=
  {| pawnKey := pawnKey x; materialKey := materialKey x; nonPawnMaterial := nonPawnMaterial x; castlingRights := castlingRights x; rule50 := rule50 x; pliesFromNull := pliesFromNull x; psq := psq x; epSquare := epSquare x; key := key x; checkersBB := v; capturedPiece := capturedPiece x; gate := gate x; capturedGate := capturedGate x; removedGatingType := removedGatingType x; previous := previous x; blockersForKing := blockersForKing x; pinners := pinners x; checkSquares := checkSquares x |}.
Definition si_capturedPiece (v : Piece) (x : StateInfo) : StateInfo :=
  {| pawnKey := pawnKey x; materialKey := materialKey x; nonPawnMaterial := nonPawnMaterial x; castlingRights := castlingRights x; rule50 := rule50 x; pliesFromNull := pliesFromNull x; psq := psq x; epSquare := epSquare x; key := key x; checkersBB := checkersBB x; capturedPiece := v; gate := gate x; capturedGate := capturedGate x; removedGatingType := removedGatingType x; previous := previous x; blockersForKing := blockersForKing x; pinners := pinners x; checkSquares := checkSquares x |}.
Definition si_gate (v : Gate) (x : StateInfo) : StateInfo :=
  {| pawnKey := pawnKey x; materialKey := materialKey x; nonPawnMaterial := nonPawnMaterial x; castlingRights := castlingRights x; rule50 := rule50 x; pliesFromNull := pliesFromNull x; psq := psq x; epSquare := epSquare x; key := key x; checkersBB := checkersBB x; capturedPiece := capturedPiece x; gate := v; capturedGate := capturedGate x; removedGatingType := removedGatingType x; previous := previous x; blockersForKing := blockersForKing x; pinners := pinners x; checkSquares := checkSquares x |}.
Definition si_capturedGate (v : Gate) (x : StateInfo) : StateInfo :=
  {| pawnKey := pawnKey x; materialKey := materialKey x; nonPawnMaterial := nonPawnMaterial x; castlingRights := castlingRights x; rule50 := rule50 x; pliesFromNull := pliesFromNull x; psq := psq x; epSquare := epSquare x; key := key x; checkersBB := checkersBB x; capturedPiece := capturedPiece x; gate := gate x; capturedGate := v; removedGatingType := removedGatingType x; previous := previous x; blockersForKing := blockersForKing x; pinners := pinners x; checkSquares := checkSquares x |}.
Definition si_removedGatingType (v : PieceType) (x : StateInfo) : StateInfo :=
  {| pawnKey := pawnKey x; materialKey := materialKey x; nonPawnMaterial := nonPawnMaterial x; castlingRights := castlingRights x; rule50 := rule50 x; pliesFromNull := pliesFromNull x; psq := psq x; epSquare := epSquare x; key := key x; checkersBB := checkersBB x; capturedPiece := capturedPiece x; gate := gate x; capturedGate := capturedGate x; removedGatingType := v; previous := previous x; blockersForKing := blockersForKing x; pinners := pinners x; checkSquares := checkSquares x |}.
Definition si_previous (v : option StateInfo) (x : StateInfo) : StateInfo :=
  {| pawnKey := pawnKey x; materialKey := materialKey x; nonPawnMaterial := nonPawnMaterial x; castlingRights := castlingRights x; rule50 := rule50 x; pliesFromNull := pliesFromNull x; psq := psq x; epSquare := epSquare x; key := key x; checkersBB := checkersBB x; capturedPiece := capturedPiece x; gate := gate x; capturedGate := capturedGate x; removedGatingType := removedGatingType x; previous := v; blockersForKing := blockersForKing x; pinners := pinners x; checkSquares := checkSquares x |}.
Definition si_blockersForKing (v : Color -> Bitboard) (x : StateInfo) : StateInfo :=
  {| pawnKey := pawnKey x; materialKey := materialKey x; nonPawnMaterial := nonPawnMaterial x; castlingRights := castlingRights x; rule50 := rule50 x; pliesFromNull := pliesFromNull x; psq := psq x; epSquare := epSquare x; key := key x; checkersBB := checkersBB x; capturedPiece := capturedPiece x; gate := gate x; capturedGate := capturedGate x; removedGatingType := removedGatingType x; previous := previous x; blockersForKing := v; pinners := pinners x; checkSquares := checkSquares x |}.
Definition si_pinners (v : Color -> Bitboard) (x : StateInfo) : StateInfo :=
  {| pawnKey := pawnKey x; materialKey := materialKey x; nonPawnMaterial := nonPawnMaterial x; castlingRights := castlingRights x; rule50 := rule50 x; pliesFromNull := pliesFromNull x; psq := psq x; epSquare := epSquare x; key := key x; checkersBB := checkersBB x; capturedPiece := capturedPiece x; gate := gate x; capturedGate := capturedGate x; removedGatingType := removedGatingType x; previous := previous x; blockersForKing := blockersForKing x; pinners := v; checkSquares := checkSquares x |}.
Definition si_checkSquares (v : PieceType -> Bitboard) (x : StateInfo) : StateInfo :=
  {| pawnKey := pawnKey x; materialKey := materialKey x; nonPawnMaterial := nonPawnMaterial x; castlingRights := castlingRights x; rule50 := rule50 x; pliesFromNull := pliesFromNull x; psq := psq x; epSquare := epSquare x; key := key x; checkersBB := checkersBB x; capturedPiece := capturedPiece x; gate := gate x; capturedGate := capturedGate x; removedGatingType := removedGatingType x; previous := previous x; blockersForKing := blockersForKing x; pinners := pinners x; checkSquares := v |}.

Definition set_board (v : Square -> Piece) (x : Position) : Position :=
  {| board := v; gateBoard := gateBoard x; gatingPieces := gatingPieces x; gatingSquares := gatingSquares x; byTypeBB := byTypeBB x; byColorBB := byColorBB x; gateBB := gateBB x; pieceCount := pieceCount x; gateCount := gateCount x; setupCount := setupCount x; pieceList := pieceList x; index := index x; castlingRightsMask := castlingRightsMask x; castlingRookSquare := castlingRookSquare x; castlingPath := castlingPath x; gamePly := gamePly x; sideToMove := sideToMove x; st := st x; chess960 := chess960 x |}.
Definition set_gateBoard (v : Square -> Gate) (x : Position) : Position :=
  {| board := board x; gateBoard := v; gatingPieces := gatingPieces x; gatingSquares := gatingSquares x; byTypeBB := byTypeBB x; byColorBB := byColorBB x; gateBB := gateBB x; pieceCount := pieceCount x; gateCount := gateCount x; setupCount := setupCount x; pieceList := pieceList x; index := index x; castlingRightsMask := castlingRightsMask x; castlingRookSquare := castlingRookSquare x; castlingPath := castlingPath x; gamePly := gamePly x; sideToMove := sideToMove x; st := st x; chess960 := chess960 x |}.
Definition set_gatingPieces (v : Gate -> PieceType) (x : Position) : Position :=
  {| board := board x; gateBoard := gateBoard x; gatingPieces := v; gatingSquares := gatingSquares x; byTypeBB := byTypeBB x; byColorBB := byColorBB x; gateBB := gateBB x; pieceCount := pieceCount x; gateCount := gateCount x; setupCount := setupCount x; pieceList := pieceList x; index := index x; castlingRightsMask := castlingRightsMask x; castlingRookSquare := castlingRookSquare x; castlingPath := castlingPath x; gamePly := gamePly x; sideToMove := sideToMove x; st := st x; chess960 := chess960 x |}.
Definition set_gatingSquares (v : Color -> Gate -> Square) (x : Position) : Position :=
  {| board := board x; gateBoard := gateBoard x; gatingPieces := gatingPieces x; gatingSquares := v; byTypeBB := byTypeBB x; byColorBB := byColorBB x; gateBB := gateBB x; pieceCount := pieceCount x; gateCount := gateCount x; setupCount := setupCount x; pieceList := pieceList x; index := index x; castlingRightsMask := castlingRightsMask x; castlingRookSquare := castlingRookSquare x; castlingPath := castlingPath x; gamePly := gamePly x; sideToMove := sideToMove x; st := st x; chess960 := chess960 x |}.
Definition set_byTypeBB (v : PieceType -> Bitboard) (x : Position) : Position :=
  {| board := board x; gateBoard := gateBoard x; gatingPieces := gatingPieces x; gatingSquares := gatingSquares x; byTypeBB := v; byColorBB := byColorBB x; gateBB := gateBB x; pieceCount := pieceCount x; gateCount := gateCount x; setupCount := setupCount x; pieceList := pieceList x; index := index x; castlingRightsMask := castlingRightsMask x; castlingRookSquare := castlingRookSquare x; castlingPath := castlingPath x; gamePly := gamePly x; sideToMove := sideToMove x; st := st x; chess960 := chess960 x |}.
Definition set_byColorBB (v : Color -> Bitboard) (x : Position) : Position :=
  {| board := board x; gateBoard := gateBoard x; gatingPieces := gatingPieces x; gatingSquares := gatingSquares x; byTypeBB := byTypeBB x; byColorBB := v; gateBB := gateBB x; pieceCount := pieceCount x; gateCount := gateCount x; setupCount := setupCount x; pieceList := pieceList x; index := index x; castlingRightsMask := castlingRightsMask x; castlingRookSquare := castlingRookSquare x; castlingPath := castlingPath x; gamePly := gamePly x; sideToMove := sideToMove x; st := st x; chess960 := chess960 x |}.
Definition set_gateBB (v : Bitboard) (x : Position) : Position :=
  {| board := board x; gateBoard := gateBoard x; gatingPieces := gatingPieces x; gatingSquares := gatingSquares x; byTypeBB := byTypeBB x; byColorBB := byColorBB x; gateBB := v; pieceCount := pieceCount x; gateCount := gateCount x; setupCount := setupCount x; pieceList := pieceList x; index := index x; castlingRightsMask := castlingRightsMask x; castlingRookSquare := castlingRookSquare x; castlingPath := castlingPath x; gamePly := gamePly x; sideToMove := sideToMove x; st := st x; chess960 := chess960 x |}.
Definition set_pieceCount (v : Piece -> Z) (x : Position) : Position :=
  {| board := board x; gateBoard := gateBoard x; gatingPieces := gatingPieces x; gatingSquares := gatingSquares x; byTypeBB := byTypeBB x; byColorBB := byColorBB x; gateBB := gateBB x; pieceCount := v; gateCount := gateCount x; setupCount := setupCount x; pieceList := pieceList x; index := index x; castlingRightsMask := castlingRightsMask x; castlingRookSquare := castlingRookSquare x; castlingPath := castlingPath x; gamePly := gamePly x; sideToMove := sideToMove x; st := st x; chess960 := chess960 x |}.
Definition set_gateCount (v : Gate) (x : Position) : Position :=
  {| board := board x; gateBoard := gateBoard x; gatingPieces := gatingPieces x; gatingSquares := gatingSquares x; byTypeBB := byTypeBB x; byColorBB := byColorBB x; gateBB := gateBB x; pieceCount := pieceCount x; gateCount := v; setupCount := setupCount x; pieceList := pieceList x; index := index x; castlingRightsMask := castlingRightsMask x; castlingRookSquare := castlingRookSquare x; castlingPath := castlingPath x; gamePly := gamePly x; sideToMove := sideToMove x; st := st x; chess960 := chess960 x |}.
Definition set_setupCount (v : Color -> Gate) (x : Position) : Position :=
  {| board := board x; gateBoard := gateBoard x; gatingPieces := gatingPieces x; gatingSquares := gatingSquares x; byTypeBB := byTypeBB x; byColorBB := byColorBB x; gateBB := gateBB x; pieceCount := pieceCount x; gateCount := gateCount x; setupCount := v; pieceList := pieceList x; index := index x; castlingRightsMask := castlingRightsMask x; castlingRookSquare := castlingRookSquare x; castlingPath := castlingPath x; gamePly := gamePly x; sideToMove := sideToMove x; st := st x; chess960 := chess960 x |}.
Definition set_pieceList (v : Piece -> Z -> Square) (x : Position) : Position :=
  {| board := board x; gateBoard := gateBoard x; gatingPieces := gatingPieces x; gatingSquares := gatingSquares x; byTypeBB := byTypeBB x; byColorBB := byColorBB x; gateBB := gateBB x; pieceCount := pieceCount x; gateCount := gateCount x; setupCount := setupCount x; pieceList := v; index := index x; castlingRightsMask := castlingRightsMask x; castlingRookSquare := castlingRookSquare x; castlingPath := castlingPath x; gamePly := gamePly x; sideToMove := sideToMove x; st := st x; chess960 := chess960 x |}.
Definition set_index (v : Square -> Z) (x : Position) : Position :=
  {| board := board x; gateBoard := gateBoard x; gatingPieces := gatingPieces x; gatingSquares := gatingSquares x; byTypeBB := byTypeBB x; byColorBB := byColorBB x; gateBB := gateBB x; pieceCount := pieceCount x; gateCount := gateCount x; setupCount := setupCount x; pieceList := pieceList x; index := v; castlingRightsMask := castlingRightsMask x; castlingRookSquare := castlingRookSquare x; castlingPath := castlingPath x; gamePly := gamePly x; sideToMove := sideToMove x; st := st x; chess960 := chess960 x |}.
Definition set_castlingRightsMask (v : Square -> Z) (x : Position) : Position :=
  {| board := board x; gateBoard := gateBoard x; gatingPieces := gatingPieces x; gatingSquares := gatingSquares x; byTypeBB := byTypeBB x; byColorBB := byColorBB x; gateBB := gateBB x; pieceCount := pieceCount x; gateCount := gateCount x; setupCount := setupCount x; pieceList := pieceList x; index := index x; castlingRightsMask := v; castlingRookSquare := castlingRookSquare x; castlingPath := castlingPath x; gamePly := gamePly x; sideToMove := sideToMove x; st := st x; chess960 := chess960 x |}.
Definition set_castlingRookSquare (v : Z -> Square) (x : Position) : Position :=
  {| board := board x; gateBoard := gateBoard x; gatingPieces := gatingPieces x; gatingSquares := gatingSquares x; byTypeBB := byTypeBB x; byColorBB := byColorBB x; gateBB := gateBB x; pieceCount := pieceCount x; gateCount := gateCount x; setupCount := setupCount x; pieceList := pieceList x; index := index x; castlingRightsMask := castlingRightsMask x; castlingRookSquare := v; castlingPath := castlingPath x; gamePly := gamePly x; sideToMove := sideToMove x; st := st x; chess960 := chess960 x |}.
Definition set_castlingPath (v : Z -> Bitboard) (x : Position) : Position :=
  {| board := board x; gateBoard := gateBoard x; gatingPieces := gatingPieces x; gatingSquares := gatingSquares x; byTypeBB := byTypeBB x; byColorBB := byColorBB x; gateBB := gateBB x; pieceCount := pieceCount x; gateCount := gateCount x; setupCount := setupCount x; pieceList := pieceList x; index := index x; castlingRightsMask := castlingRightsMask x; castlingRookSquare := castlingRookSquare x; castlingPath := v; gamePly := gamePly x; sideToMove := sideToMove x; st := st x; chess960 := chess960 x |}.
Definition set_gamePly (v : Z) (x : Position) : Position :=
  {| board := board x; gateBoard := gateBoard x; gatingPieces := gatingPieces x; gatingSquares := gatingSquares x; byTypeBB := byTypeBB x; byColorBB := byColorBB x; gateBB := gateBB x; pieceCount := pieceCount x; gateCount := gateCount x; setupCount := setupCount x; pieceList := pieceList x; index := index x; castlingRightsMask := castlingRightsMask x; castlingRookSquare := castlingRookSquare x; castlingPath := castlingPath x; gamePly := v; sideToMove := sideToMove x; st := st x; chess960 := chess960 x |}.
Definition set_sideToMove (v : Color) (x : Position) : Position :=
  {| board := board x; gateBoard := gateBoard x; gatingPieces := gatingPieces x; gatingSquares := gatingSquares x; byTypeBB := byTypeBB x; byColorBB := byColorBB x; gateBB := gateBB x; pieceCount := pieceCount x; gateCount := gateCount x; setupCount := setupCount x; pieceList := pieceList x; index := index x; castlingRightsMask := castlingRightsMask x; castlingRookSquare := castlingRookSquare x; castlingPath := castlingPath x; gamePly := gamePly x; sideToMove := v; st := st x; chess960 := chess960 x |}.
Definition set_st (v : StateInfo) (x : Position) : Position :=
  {| board := board x; gateBoard := gateBoard x; gatingPieces := gatingPieces x; gatingSquares := gatingSquares x; byTypeBB := byTypeBB x; byColorBB := byColorBB x; gateBB := gateBB x; pieceCount := pieceCount x; gateCount := gateCount x; setupCount := setupCount x; pieceList := pieceList x; index := index x; castlingRightsMask := castlingRightsMask x; castlingRookSquare := castlingRookSquare x; castlingPath := castlingPath x; gamePly := gamePly x; sideToMove := sideToMove x; st := v; chess960 := chess960 x |}.
Definition set_chess960 (v : bool) (x : Position) : Position :=
  {| board := board x; gateBoard := gateBoard x; gatingPieces := gatingPieces x; gatingSquares := gatingSquares x; byTypeBB := byTypeBB x; byColorBB := byColorBB x; gateBB := gateBB x; pieceCount := pieceCount x; gateCount := gateCount x; setupCount := setupCount x; pieceList := pieceList x; index := index x; castlingRightsMask := castlingRightsMask x; castlingRookSquare := castlingRookSquare x; castlingPath := castlingPath x; gamePly := gamePly x; sideToMove := sideToMove x; st := st x; chess960 := v |}.

Definition upd_st (f : StateInfo -> StateInfo) (pos : Position) : Position :=
  set_st (f (st pos)) pos.

(** *** Inline accessors of [position.h] *)

Definition side_to_move (pos : Position) : Color := sideToMove pos.
Definition piece_on (pos : Position) (s : Square) : Piece := board pos s.
Definition empty (pos : Position) (s : Square) : bool :=
  piece_eqb (board pos s) NO_PIECE.

(** The overloads of [pieces(...)] *)
Definition pieces (pos : Position) : Bitboard := byTypeBB pos ALL_PIECES.
Definition pieces_pt (pos : Position) (pt : PieceType) : Bitboard := byTypeBB pos pt.
Definition pieces_pt2 (pos : Position) (pt1 pt2 : PieceType) : Bitboard :=
  Z.lor (byTypeBB pos pt1) (byTypeBB pos pt2).
Definition pieces_c (pos : Position) (c : Color) : Bitboard := byColorBB pos c.
Definition pieces_c_pt (pos : Position) (c : Color) (pt : PieceType) : Bitboard :=
  Z.land (byColorBB pos c) (byTypeBB pos pt).

Definition moved_piece (pos : Position) (m : Move) : Piece :=
  match type_of_m m with
  | SET_GATING_TYPE | PUT_GATING_PIECE => make_piece (sideToMove pos) (gating_type m)
  | _ => board pos (from_sq m)
  end.

(** [square<Pt>(c)]: the first entry of the piece list *)
Definition square_of (pos : Position) (pt : PieceType) (c : Color) : Square :=
  pieceList pos (make_piece c pt) 0.

Definition gates (pos : Position) : Bitboard := gateBB pos.
Definition gating_piece (pos : Position) (g : Gate) : PieceType := gatingPieces pos g.
Definition gating_piece_sq (pos : Position) (s : Square) : PieceType :=
  gating_piece pos (gateBoard pos s).
Definition gating_square (pos : Position) (c : Color) (g : Gate) : Square :=
  gatingSquares pos c g.
Definition ep_square (pos : Position) : Square := epSquare (st pos).
Definition can_castle (pos : Position) (cr : Z) : Z := Z.land (castlingRights (st pos)) cr.
Definition can_castle_c (pos : Position) (c : Color) : Z :=
  Z.land (castlingRights (st pos))
         (Z.shiftl (Z.lor WHITE_OO WHITE_OOO) (2 * color_index c)).
Definition castling_impeded (pos : Position) (cr : Z) : bool :=
  negb (Z.land (byTypeBB pos ALL_PIECES) (castlingPath pos cr) =? 0).
Definition castling_rook_square (pos : Position) (cr : Z) : Square :=
  castlingRookSquare pos cr.
Definition checkers (pos : Position) : Bitboard := checkersBB (st pos).
Definition blockers_for_king (pos : Position) (c : Color) : Bitboard :=
  blockersForKing (st pos) c.
Definition check_squares (pos : Position) (pt : PieceType) : Bitboard :=
  checkSquares (st pos) pt.
Definition gate_count (pos : Position) : Gate := gateCount pos.
Definition setup_count (pos : Position) (c : Color) : Gate := setupCount pos c.

Inductive GamePhase : Type :=
  GAMEPHASE_SELECTION | GAMEPHASE_PLACING | GAMEPHASE_PLAYING.

Definition game_phase (pos : Position) : GamePhase :=
  if gateCount pos <? GATE_NB - 1 then GAMEPHASE_SELECTION
  else if setupCount pos (sideToMove pos) <? GATE_NB - 1 then GAMEPHASE_PLACING
  else GAMEPHASE_PLAYING.

Definition is_playing (pos : Position) : bool :=
  match game_phase pos with GAMEPHASE_PLAYING => true | _ => false end.

(** *** Gating helpers *)

(** [gatingPieces[++gateCount] = pt] *)
Definition set_gating_type (pt : PieceType) (pos : Position) : Position :=
  let g := gateCount pos + 1 in
  set_gatingPieces (upd (gatingPieces pos) g pt) (set_gateCount g pos).

(** [gatingPieces[gateCount--] = NO_PIECE_TYPE] *)
Definition unset_gating_type (pos : Position) : Position :=
  let g := gateCount pos in
  set_gateCount (g - 1) (set_gatingPieces (upd (gatingPieces pos) g NO_PIECE_TYPE) pos).

Definition add_gate (c : Color) (s : Square) (g : Gate) (pos : Position) : Position :=
  let pos := set_gateBoard (upd (gateBoard pos) s g) pos in
  let pos := set_gatingSquares
               (updC (gatingSquares pos) c (upd (gatingSquares pos c) g s)) pos in
  set_gateBB (Z.lor (gateBB pos) (SquareBB s)) pos.

Definition remove_gate (c : Color) (s : Square) (g : Gate) (pos : Position) : Position :=
  let pos := set_gateBoard (upd (gateBoard pos) s NO_GATE) pos in
  let pos := set_gatingSquares
               (updC (gatingSquares pos) c (upd (gatingSquares pos c) g SQ_NONE)) pos in
  set_gateBB (Z.lxor (gateBB pos) (SquareBB s)) pos.

(** [add_gate(c, s, ++setupCount[c])] *)
Definition put_gating_piece (c : Color) (s : Square) (pos : Position) : Position :=
  let g := setupCount pos c + 1 in
  add_gate c s g (set_setupCount (updC (setupCount pos) c g) pos).

(** [remove_gate(c, s, setupCount[c]--)] *)
Definition remove_gating_piece (c : Color) (s : Square) (pos : Position) : Position :=
  let g := setupCount pos c in
  remove_gate c s g (set_setupCount (updC (setupCount pos) c (g - 1)) pos).

Definition capture_gate (c : Color) (s : Square) (pos : Position) : Position :=
  let pos := upd_st (si_capturedGate (gateBoard pos s)) pos in
  remove_gate c s (gateBoard pos s) pos.

Definition uncapture_gate (c : Color) (s : Square) (pos : Position) : Position :=
  add_gate c s (capturedGate (st pos)) pos.

(** *** Board helpers *)

Definition put_piece (pc : Piece) (s : Square) (pos : Position) : Position :=
  let pos := set_board (upd (board pos) s pc) pos in
  let pos := set_byTypeBB
               (updT (byTypeBB pos) ALL_PIECES
                     (Z.lor (byTypeBB pos ALL_PIECES) (SquareBB s))) pos in
  let pos := set_byTypeBB
               (updT (byTypeBB pos) (type_of pc)
                     (Z.lor (byTypeBB pos (type_of pc)) (SquareBB s))) pos in
  let pos := set_byColorBB
               (updC (byColorBB pos) (color_of pc)
                     (Z.lor (byColorBB pos (color_of pc)) (SquareBB s))) pos in
  let cnt := pieceCount pos pc in
  let pos := set_index (upd (index pos) s cnt) pos in
  let pos := set_pieceCount (updP (pieceCount pos) pc (cnt + 1)) pos in
  let pos := set_pieceList
               (updP (pieceList pos) pc (upd (pieceList pos pc) (index pos s) s)) pos in
  let all := make_piece (color_of pc) ALL_PIECES in
  set_pieceCount (updP (pieceCount pos) all (pieceCount pos all + 1)) pos.

Definition remove_piece (pc : Piece) (s : Square) (pos : Position) : Position :=
  let pos := set_byTypeBB
               (updT (byTypeBB pos) ALL_PIECES
                     (Z.lxor (byTypeBB pos ALL_PIECES) (SquareBB s))) pos in
  let pos := set_byTypeBB
               (updT (byTypeBB pos) (type_of pc)
                     (Z.lxor (byTypeBB pos (type_of pc)) (SquareBB s))) pos in
  let pos := set_byColorBB
               (updC (byColorBB pos) (color_of pc)
                     (Z.lxor (byColorBB pos (color_of pc)) (SquareBB s))) pos in
  (* board[s] = NO_PIECE is not done here *)
  let pos := set_pieceCount (updP (pieceCount pos) pc (pieceCount pos pc - 1)) pos in
  let lastSquare := pieceList pos pc (pieceCount pos pc) in
  let pos := set_index (upd (index pos) lastSquare (index pos s)) pos in
  let pos := set_pieceList
               (updP (pieceList pos) pc
                     (upd (pieceList pos pc) (index pos lastSquare) lastSquare)) pos in
  let pos := set_pieceList
               (updP (pieceList pos) pc
                     (upd (pieceList pos pc) (pieceCount pos pc) SQ_NONE)) pos in
  let all := make_piece (color_of pc) ALL_PIECES in
  set_pieceCount (updP (pieceCount pos) all (pieceCount pos all - 1)) pos.

Definition move_piece (pc : Piece) (from to : Square) (pos : Position) : Position :=
  let fromTo := Z.lxor (SquareBB from) (SquareBB to) in
  let pos := set_byTypeBB
               (updT (byTypeBB pos) ALL_PIECES
                     (Z.lxor (byTypeBB pos ALL_PIECES) fromTo)) pos in
  let pos := set_byTypeBB
               (updT (byTypeBB pos) (type_of pc)
                     (Z.lxor (byTypeBB pos (type_of pc)) fromTo)) pos in
  let pos := set_byColorBB
               (updC (byColorBB pos) (color_of pc)
                     (Z.lxor (byColorBB pos (color_of pc)) fromTo)) pos in
  let pos := set_board (upd (board pos) from NO_PIECE) pos in
  let pos := set_board (upd (board pos) to pc) pos in
  let pos := set_index (upd (index pos) to (index pos from)) pos in
  set_pieceList (updP (pieceList pos) pc (upd (pieceList pos pc) (index pos to) to)) pos.

Definition gate_piece (c : Color) (s : Square) (pos : Position) : Position :=
  let pos := upd_st (si_gate (gateBoard pos s)) pos in
  let pos := put_piece (make_piece c (gatingPieces pos (gateBoard pos s))) s pos in
  remove_gate c s (gateBoard pos s) pos.

Definition ungate_piece (c : Color) (s : Square) (pos : Position) : Position :=
  let pos := add_gate c s (gate (st pos)) pos in
  remove_piece (make_piece c (gatingPieces pos (gate (st pos)))) s pos.

(* ================================================================= *)
(** ** [position.cpp] *)

Section PositionCode.

Context (T : Tables).

(** [attacks_from(c, pt, s)] and [attacks_from<Pt>(c, s)] *)
Definition attacks_from (pos : Position) (c : Color) (pt : PieceType) (s : Square)
  : Bitboard :=
  attacks_bb T c pt s (byTypeBB pos ALL_PIECES).

(** [attackers_to(s, occupied)] *)
Definition attackers_to_occ (pos : Position) (s : Square) (occupied : Bitboard)
  : Bitboard :=
  fold_left
    (fun b c =>
       fold_left
         (fun b pt =>
            Z.lor b (Z.land (attacks_bb T (flip c) pt s occupied) (pieces_c_pt pos c pt)))
         piece_types_PAWN_to_KING b)
    [WHITE; BLACK] 0.

Definition attackers_to (pos : Position) (s : Square) : Bitboard :=
  attackers_to_occ pos s (byTypeBB pos ALL_PIECES).

(** [slider_blockers(sliders, s, pinners)]: the pair of the returned
    blockers and the out-parameter [pinners]. *)
Definition slider_blockers (pos : Position) (sliders : Bitboard) (s : Square)
  : Bitboard * Bitboard :=
  let snipers :=
    Z.land (Z.land sliders (attackers_to_occ pos s 0)) (bb_not (attackers_to pos s)) in
  fold_left
    (fun (acc : Bitboard * Bitboard) sniperSq =>
       let '(blockers, pinners) := acc in
       let b := Z.land (between_bb T s sniperSq) (pieces pos) in
       if negb (b =? 0) && negb (more_than_one b)
       then (Z.lor blockers b,
             if negb (Z.land b (pieces_c pos (color_of (piece_on pos s))) =? 0)
             then Z.lor pinners (SquareBB sniperSq) else pinners)
       else (blockers, pinners))
    (squares_of snipers) (0, 0).

(** [set_check_info(si)] *)
Definition set_check_info (pos : Position) (si : StateInfo) : StateInfo :=
  let '(bw, pb) := slider_blockers pos (pieces_c pos BLACK) (square_of pos KING WHITE) in
  let si := si_pinners (updC (pinners si) BLACK pb) si in
  let si := si_blockersForKing (updC (blockersForKing si) WHITE bw) si in
  let '(bb, pw) := slider_blockers pos (pieces_c pos WHITE) (square_of pos KING BLACK) in
  let si := si_pinners (updC (pinners si) WHITE pw) si in
  let si := si_blockersForKing (updC (blockersForKing si) BLACK bb) si in
  let ksq := square_of pos KING (flip (sideToMove pos)) in
  let si :=
    fold_left
      (fun si pt =>
         si_checkSquares
           (updT (checkSquares si) pt (attacks_from pos (flip (sideToMove pos)) pt ksq)) si)
      (removelast piece_types_PAWN_to_KING) si in
  si_checkSquares (updT (checkSquares si) KING 0) si.

(** [do_castling<Do>(us, from, to, rfrom, rto, k)]; the reference
    parameters [to], [rfrom], [rto] and [k] are returned. *)
Definition do_castling (Do : bool) (us : Color) (from to : Square) (k : Key)
    (pos : Position) : Position * Square * Square * Square * Key :=
  let kingSide := from <? to in
  let rfrom := to in
  let rto := relative_square us (if kingSide then SQ_F1 else SQ_D1) in
  let to := relative_square us (if kingSide then SQ_G1 else SQ_C1) in
  (* Ungate piece *)
  let pos :=
    if negb Do
       && negb (Z.land (pieces pos) (Z.lor (SquareBB from) (SquareBB rfrom)) =? 0)
    then
      let s := if bb_has (pieces pos) from then from else rfrom in
      if negb (s =? to) && negb (s =? rto) then ungate_piece us s pos
      else if NO_GATE <? capturedGate (st pos) then uncapture_gate us s pos
      else pos
    else pos in
  (* Remove both pieces first since squares could overlap in Chess960 *)
  let pos := remove_piece (make_piece us KING) (if Do then from else to) pos in
  let pos := remove_piece (make_piece us ROOK) (if Do then rfrom else rto) pos in
  let pos := set_board (upd (board pos) (if Do then rfrom else rto) NO_PIECE) pos in
  let pos := set_board (upd (board pos) (if Do then from else to) NO_PIECE) pos in
  let pos := put_piece (make_piece us KING) (if Do then to else from) pos in
  let pos := put_piece (make_piece us ROOK) (if Do then rto else rfrom) pos in
  (* Gate piece *)
  if Do && negb (Z.land (gateBB pos) (Z.lor (SquareBB from) (SquareBB rfrom)) =? 0)
  then
    let s := if bb_has (gateBB pos) from then from else rfrom in
    let gated_piece := make_piece us (gating_piece_sq pos s) in
    if negb (s =? to) && negb (s =? rto)
    then
      let pos := upd_st (fun si =>
                   si_psq (psq si + (PSQT_psq T gated_piece s
                                     - PSQT_psq_gate T gated_piece (file_of s))) si) pos in
      let k := Z.lxor k (Z.lxor (Zobrist_psq T gated_piece s)
                                (Zobrist_psq_gate T gated_piece (file_of s))) in
      (gate_piece us s pos, to, rfrom, rto, k)
    else
      let pos := upd_st (fun si =>
                   si_psq (psq si - PSQT_psq_gate T gated_piece (file_of s)) si) pos in
      let k := Z.lxor k (Zobrist_psq_gate T gated_piece (file_of s)) in
      (capture_gate us s pos, to, rfrom, rto, k)
  else
    (upd_st (si_capturedGate NO_GATE) pos, to, rfrom, rto, k).

(** The [SET_GATING_TYPE] case of [do_move] *)
Definition do_set_gating_type (m : Move) (k : Key) (pos : Position) : Position * Key :=
  if (gateCount pos =? NO_GATE)
     || negb (pt_eqb (gating_type m) (gatingPieces pos (gateCount pos)))
  then
    let pos := set_gating_type (gating_type m) pos in
    let pos := upd_st (si_removedGatingType NO_PIECE_TYPE) pos in
    (pos, Z.lxor k (Zobrist_inhand T (gating_type m) (gateCount pos)))
  else
    let k := Z.lxor k
               (Z.lxor (Z.lxor (Zobrist_inhand T (gating_type m) (gateCount pos))
                               (Zobrist_inhand T CANNON (gateCount pos)))
                       (Zobrist_inhand T LEOPARD (gateCount pos + 1))) in
    let pos := unset_gating_type pos in
    let pos := set_gating_type CANNON pos in
    let pos := set_gating_type LEOPARD pos in
    (upd_st (si_removedGatingType (gating_type m)) pos, k).

(** The [PUT_GATING_PIECE] case of [do_move] *)
Definition do_put_gating_piece (m : Move) (us : Color) (k : Key) (pos : Position)
  : Position * Key :=
  let pos := put_gating_piece us (to_sq m) pos in
  let pc := make_piece us (gating_type m) in
  let pos := upd_st (fun si =>
               si_psq (psq si + PSQT_psq_gate T pc (file_of (to_sq m))) si) pos in
  (pos, Z.lxor k (Zobrist_psq_gate T pc (file_of (to_sq m)))).

(** The capture block of [do_move], entered when [captured] is a piece. *)
Definition do_capture (m : Move) (us them : Color) (captured : Piece) (to : Square)
    (k : Key) (pos : Position) : Position * Key :=
  let capsq := to in
  let '(pos, capsq) :=
    if pt_eqb (type_of captured) PAWN
    then
      let '(pos, capsq) :=
        match type_of_m m with
        | ENPASSANT =>
            let capsq := capsq - pawn_push us in
            (set_board (upd (board pos) capsq NO_PIECE) pos, capsq)
        | _ => (pos, capsq)
        end in
      (upd_st (fun si =>
         si_pawnKey (Z.lxor (pawnKey si) (Zobrist_psq T captured capsq)) si) pos, capsq)
    else
      (upd_st (fun si =>
         si_nonPawnMaterial
           (updC (nonPawnMaterial si) them
                 (nonPawnMaterial si them - PieceValueMG T captured)) si) pos, capsq) in
  (* Update board and piece lists *)
  let pos := remove_piece captured capsq pos in
  let '(pos, k) :=
    if bb_has (gateBB pos) capsq
    then
      let gp := make_piece (flip us) (gating_piece_sq pos capsq) in
      let pos := upd_st (fun si =>
                   si_psq (psq si - PSQT_psq_gate T gp (file_of capsq)) si) pos in
      let k := Z.lxor k (Zobrist_psq_gate T gp (file_of capsq)) in
      (capture_gate them capsq pos, k)
    else (upd_st (si_capturedGate NO_GATE) pos, k) in
  (* Update material hash key *)
  let k := Z.lxor k (Zobrist_psq T captured capsq) in
  let pos := upd_st (fun si =>
               si_materialKey
                 (Z.lxor (materialKey si)
                         (Zobrist_psq T captured (pieceCount pos captured))) si) pos in
  (* Update incremental scores *)
  let pos := upd_st (fun si => si_psq (psq si - PSQT_psq T captured capsq) si) pos in
  (* Reset rule 50 counter *)
  (upd_st (si_rule50 0) pos, k).

(** The pawn block of [do_move], entered when the moving piece is a pawn. *)
Definition do_pawn_extra (m : Move) (us them : Color) (pc : Piece) (from to : Square)
    (k : Key) (pos : Position) : Position * Key :=
  let '(pos, k) :=
    if (Z.lxor to from =? 16)
       && negb (Z.land (attacks_from pos us PAWN (to - pawn_push us))
                       (pieces_c_pt pos them PAWN) =? 0)
    then
      (* Set en-passant square if the moved pawn can be captured *)
      let pos := upd_st (si_epSquare (to - pawn_push us)) pos in
      (pos, Z.lxor k (Zobrist_enpassant T (file_of (epSquare (st pos)))))
    else
      match type_of_m m with
      | PROMOTION =>
          let promotion := make_piece us (promotion_type m) in
          let pos := remove_piece pc to pos in
          let pos := put_piece promotion to pos in
          (* Update hash keys *)
          let k := Z.lxor k (Z.lxor (Zobrist_psq T pc to) (Zobrist_psq T promotion to)) in
          let pos := upd_st (fun si =>
                       si_pawnKey (Z.lxor (pawnKey si) (Zobrist_psq T pc to)) si) pos in
          let pos := upd_st (fun si =>
                       si_materialKey
                         (Z.lxor (materialKey si)
                            (Z.lxor (Zobrist_psq T promotion (pieceCount pos promotion - 1))
                                    (Zobrist_psq T pc (pieceCount pos pc)))) si) pos in
          (* Update incremental score *)
          let pos := upd_st (fun si =>
                       si_psq (psq si + (PSQT_psq T promotion to - PSQT_psq T pc to)) si)
                       pos in
          (* Update material *)
          let pos := upd_st (fun si =>
                       si_nonPawnMaterial
                         (updC (nonPawnMaterial si) us
                               (nonPawnMaterial si us + PieceValueMG T promotion)) si) pos in
          (pos, k)
      | _ => (pos, k)
      end in
  (* Update pawn hash key *)
  let pos := upd_st (fun si =>
               si_pawnKey (Z.lxor (pawnKey si)
                                  (Z.lxor (Zobrist_psq T pc from) (Zobrist_psq T pc to))) si)
               pos in
  (* Reset rule 50 draw counter *)
  (upd_st (si_rule50 0) pos, k).

(** The [default] case of the switch of [do_move]: a move on the board. *)
Definition do_board_move (m : Move) (us them : Color) (k : Key) (pos : Position)
  : Position * Key :=
  (* Increment ply counters *)
  let pos := set_gamePly (gamePly pos + 1) pos in
  let pos := upd_st (fun si => si_rule50 (rule50 si + 1) si) pos in
  let pos := upd_st (fun si => si_pliesFromNull (pliesFromNull si + 1) si) pos in
  let from := from_sq m in
  let to := to_sq m in
  let pc := piece_on pos from in
  let captured :=
    match type_of_m m with
    | ENPASSANT => make_piece them PAWN
    | _ => piece_on pos to
    end in
  let '(pos, to, k, captured) :=
    match type_of_m m with
    | CASTLING =>
        let '(pos, to, rfrom, rto, k) := do_castling true us from to k pos in
        let pos := upd_st (fun si =>
                     si_psq (psq si + (PSQT_psq T captured rto
                                       - PSQT_psq T captured rfrom)) si) pos in
        let k := Z.lxor k (Z.lxor (Zobrist_psq T captured rfrom)
                                  (Zobrist_psq T captured rto)) in
        (pos, to, k, NO_PIECE)
    | _ => (pos, to, k, captured)
    end in
  let '(pos, k) :=
    if negb (piece_eqb captured NO_PIECE)
    then do_capture m us them captured to k pos
    else (pos, k) in
  (* Update hash key *)
  let k := Z.lxor k (Z.lxor (Zobrist_psq T pc from) (Zobrist_psq T pc to)) in
  (* Reset en passant square *)
  let '(pos, k) :=
    if negb (epSquare (st pos) =? SQ_NONE)
    then (upd_st (si_epSquare SQ_NONE) pos,
          Z.lxor k (Zobrist_enpassant T (file_of (epSquare (st pos)))))
    else (pos, k) in
  (* Update castling rights if needed *)
  let '(pos, k) :=
    if negb (castlingRights (st pos) =? 0)
       && negb (Z.lor (castlingRightsMask pos from) (castlingRightsMask pos to) =? 0)
    then
      let cr := Z.lor (castlingRightsMask pos from) (castlingRightsMask pos to) in
      (upd_st (fun si => si_castlingRights (Z.ldiff (castlingRights si) cr) si) pos,
       Z.lxor k (Zobrist_castling T (Z.land (castlingRights (st pos)) cr)))
    else (pos, k) in
  (* Move the piece. The tricky Chess960 castling is handled earlier *)
  let '(pos, k) :=
    match type_of_m m with
    | CASTLING => (pos, k)
    | _ =>
        let pos := move_piece pc from to pos in
        if bb_has (gateBB pos) from
        then
          let gated_piece := make_piece us (gating_piece_sq pos from) in
          let pos := upd_st (fun si =>
                       si_psq (psq si + (PSQT_psq T gated_piece from
                                         - PSQT_psq_gate T gated_piece (file_of from))) si)
                       pos in
          let k := Z.lxor k (Z.lxor (Zobrist_psq T gated_piece from)
                                    (Zobrist_psq_gate T gated_piece (file_of from))) in
          (gate_piece us from pos, k)
        else (pos, k)
    end in
  (* If the moving piece is a pawn do some special extra work *)
  let '(pos, k) :=
    if pt_eqb (type_of pc) PAWN
    then do_pawn_extra m us them pc from to k pos
    else (pos, k) in
  (* Update incremental scores *)
  let pos := upd_st (fun si =>
               si_psq (psq si + (PSQT_psq T pc to - PSQT_psq T pc from)) si) pos in
  (* Set capture piece *)
  (upd_st (si_capturedPiece captured) pos, k).

(** [std::memcpy(&newSt, st, offsetof(StateInfo, key))]: the first
    eight members come from the current state, the others keep what the
    caller's [newSt] holds. *)
Definition copy_state_prefix (cur newSt : StateInfo) : StateInfo :=
  {| pawnKey := pawnKey cur;
     materialKey := materialKey cur;
     nonPawnMaterial := nonPawnMaterial cur;
     castlingRights := castlingRights cur;
     rule50 := rule50 cur;
     pliesFromNull := pliesFromNull cur;
     psq := psq cur;
     epSquare := epSquare cur;
     key := key newSt;
     checkersBB := checkersBB newSt;
     capturedPiece := capturedPiece newSt;
     gate := gate newSt;
     capturedGate := capturedGate newSt;
     removedGatingType := removedGatingType newSt;
     previous := previous newSt;
     blockersForKing := blockersForKing newSt;
     pinners := pinners newSt;
     checkSquares := checkSquares newSt |}.

(** The [switch (type_of(m))] of [do_move] *)
Definition do_move_switch (m : Move) (us them : Color) (k : Key) (pos : Position)
  : Position * Key :=
  match type_of_m m with
  | SET_GATING_TYPE => do_set_gating_type m k pos
  | PUT_GATING_PIECE => do_put_gating_piece m us k pos
  | _ => do_board_move m us them k pos
  end.

(** [do_move(m, newSt, givesCheck)] *)
Definition do_move (m : Move) (newSt : StateInfo) (givesCheck : bool) (pos : Position)
  : Position :=
  let k := Z.lxor (key (st pos)) (Zobrist_side T) in
  let newSt := si_previous (Some (st pos)) (copy_state_prefix (st pos) newSt) in
  let pos := set_st newSt pos in
  let us := sideToMove pos in
  let them := flip us in
  let '(pos, k) := do_move_switch m us them k pos in
  (* Calculate checkers bitboard (if move gives check) *)
  let pos := upd_st (si_checkersBB
                       (if givesCheck
                        then Z.land (attackers_to pos (square_of pos KING them))
                                    (pieces_c pos us)
                        else 0)) pos in
  (* Update the key with the final value *)
  let pos := upd_st (si_key k) pos in
  let pos := set_sideToMove (flip (sideToMove pos)) pos in
  (* Update king attacks used for fast check detection *)
  upd_st (set_check_info pos) pos.

(** The [SET_GATING_TYPE] case of [undo_move] *)
Definition undo_set_gating_type (pos : Position) : Position :=
  let pos := unset_gating_type pos in
  if negb (pt_eqb (removedGatingType (st pos)) NO_PIECE_TYPE)
  then set_gating_type (removedGatingType (st pos)) (unset_gating_type pos)
  else pos.

(** The [default] case of the switch of [undo_move] *)
Definition undo_board_move (m : Move) (us : Color) (pos : Position) : Position :=
  let from := from_sq m in
  let to := to_sq m in
  let pc := piece_on pos to in
  let '(pos, pc) :=
    match type_of_m m with
    | PROMOTION =>
        let pos := remove_piece pc to pos in
        let pc := make_piece us PAWN in
        (put_piece pc to pos, pc)
    | _ => (pos, pc)
    end in
  let pos :=
    match type_of_m m with
    | CASTLING =>
        let '(pos, _, _, _, _) := do_castling false us from to (key (st pos)) pos in
        pos
    | _ =>
        let pos :=
          if negb (Z.land (pieces pos) (SquareBB from) =? 0)
          then ungate_piece us from pos else pos in
        (* Put the piece back at the source square *)
        let pos := move_piece pc to from pos in
        if negb (piece_eqb (capturedPiece (st pos)) NO_PIECE)
        then
          let capsq :=
            match type_of_m m with
            | ENPASSANT => to - pawn_push us
            | _ => to
            end in
          (* Restore the captured piece *)
          let pos := put_piece (capturedPiece (st pos)) capsq pos in
          if NO_GATE <? capturedGate (st pos)
          then uncapture_gate (flip us) capsq pos
          else pos
        else pos
    end in
  set_gamePly (gamePly pos - 1) pos.

(** The [switch (type_of(m))] of [undo_move] *)
Definition undo_move_switch (m : Move) (us : Color) (pos : Position) : Position :=
  match type_of_m m with
  | SET_GATING_TYPE => undo_set_gating_type pos
  | PUT_GATING_PIECE => remove_gating_piece us (to_sq m) pos
  | _ => undo_board_move m us pos
  end.

(** [undo_move(m)]; [None] stands for following a null [previous]. *)
Definition undo_move (m : Move) (pos : Position) : option Position :=
  let pos := set_sideToMove (flip (sideToMove pos)) pos in
  let us := sideToMove pos in
  let pos := undo_move_switch m us pos in
  (* Finally point our state pointer back to the previous state *)
  match previous (st pos) with
  | Some prev => Some (set_st prev pos)
  | None => None
  end.

(** [gives_check(m)] *)
Definition gives_check (m : Move) (pos : Position) : bool :=
  if negb (is_playing pos) then false
  else
    let from := from_sq m in
    let to := to_sq m in
    let stm := sideToMove pos in
    let ksq := square_of pos KING (flip stm) in
    (* Is there a direct check? *)
    if bb_has (checkSquares (st pos) (type_of (piece_on pos from))) to then true
    (* Is there a discovered check? *)
    else if bb_has (blockersForKing (st pos) (flip stm)) from
            && (negb (aligned T from to ksq)
                || negb (Z.land (attackers_to_occ pos ksq
                                   (Z.lxor (Z.lxor (pieces pos) (SquareBB from))
                                           (SquareBB to)))
                                (pieces_c pos stm) =? 0))
    then true
    (* Is there a check by a gated piece? *)
    else if bb_has (gateBB pos) from
            && bb_has (attacks_bb T stm (gating_piece_sq pos from) from
                         (Z.lxor (pieces pos) (SquareBB to))) ksq
    then true
    else
      match type_of_m m with
      | NORMAL => false
      | PROMOTION =>
          bb_has (attacks_bb T stm (promotion_type m) to
                    (Z.lxor (pieces pos) (SquareBB from))) ksq
      | ENPASSANT =>
          let capsq := make_square (file_of to) (rank_of from) in
          let b := Z.lor (Z.lxor (Z.lxor (pieces pos) (SquareBB from)) (SquareBB capsq))
                         (SquareBB to) in
          negb (Z.land (Z.land (attackers_to_occ pos ksq b) (pieces_c pos stm)) b =? 0)
      | CASTLING =>
          let kfrom := from in
          let rfrom := to in
          let kto := relative_square stm (if kfrom <? rfrom then SQ_G1 else SQ_C1) in
          let rto := relative_square stm (if kfrom <? rfrom then SQ_F1 else SQ_D1) in
          if bb_has (gateBB pos) rfrom
             && bb_has (attacks_bb T stm (gating_piece_sq pos rfrom) rfrom
                          (Z.lxor (Z.lxor (Z.lxor (pieces pos) (SquareBB kfrom))
                                          (SquareBB kto)) (SquareBB rto))) ksq
          then true
          else bb_has (PseudoAttacks stm ROOK rto) ksq
               && bb_has (attacks_bb_magic T ROOK rto
                            (Z.lor (Z.lor (Z.lxor (Z.lxor (pieces pos) (SquareBB kfrom))
                                                  (SquareBB rfrom))
                                          (SquareBB rto)) (SquareBB kto))) ksq
      | _ => false
      end.

(** [do_move(m, newSt)], the inline overload of [position.h] *)
Definition do_move2 (m : Move) (newSt : StateInfo) (pos : Position) : Position :=
  do_move m newSt (gives_check m pos) pos.

(** *** Static exchange evaluation *)

(** [min_attacker<Pt>]: the recursion over the piece types from [Pt]
    up; the reference parameters [occupied] and [attackers] are
    returned with the victim. *)
Fixpoint min_attacker (pts : list PieceType) (pos : Position) (to : Square)
    (stmAttackers occupied attackers : Bitboard) : PieceType * Bitboard * Bitboard :=
  match pts with
  | [] => (KING, occupied, attackers)
  | KING :: _ => (KING, occupied, attackers)
  | pt :: rest =>
      let b := Z.land stmAttackers (byTypeBB pos pt) in
      if b =? 0 then min_attacker rest pos to stmAttackers occupied attackers
      else
        (* Remove the attacker from occupied *)
        let occupied := Z.lxor occupied (SquareBB (lsb b)) in
        (* Add any X-ray attack behind the just removed piece *)
        let attackers :=
          match pt with
          | PAWN | BISHOP | QUEEN =>
              Z.lor attackers (Z.land (attacks_bb_magic T BISHOP to occupied)
                                      (Z.lor (byTypeBB pos BISHOP) (byTypeBB pos QUEEN)))
          | _ => attackers
          end in
        let attackers :=
          match pt with
          | ROOK | QUEEN =>
              Z.lor attackers (Z.land (attacks_bb_magic T ROOK to occupied)
                                      (Z.lor (byTypeBB pos ROOK) (byTypeBB pos QUEEN)))
          | _ => attackers
          end in
        (pt, occupied, Z.land attackers occupied)
  end.

(** [PieceValue[MG][pt]] with a piece type for index: the entry of the
    white piece of that type. *)
Definition PieceValueMG_pt (pt : PieceType) : Value :=
  PieceValueMG T (make_piece WHITE pt).

(** The [while (true)] loop of [see_ge]; [None] when [fuel] runs out. *)
Fixpoint see_loop (fuel : nat) (pos : Position) (to : Square) (us stm : Color)
    (balance : Value) (occupied attackers : Bitboard) : option bool :=
  match fuel with
  | O => None
  | S n =>
      let stmAttackers := Z.land attackers (pieces_c pos stm) in
      (* Don't allow pinned pieces to attack as long as all pinners are
         on their original square *)
      let stmAttackers :=
        if Z.land (pinners (st pos) (flip stm)) (bb_not occupied) =? 0
        then Z.land stmAttackers (bb_not (blockersForKing (st pos) stm))
        else stmAttackers in
      (* If stm has no more attackers then give up: stm loses *)
      if stmAttackers =? 0 then Some (negb (color_eqb us stm))
      else
        let '(nextVictim, occupied, attackers) :=
          min_attacker piece_types_PAWN_to_KING pos to stmAttackers occupied attackers in
        let stm := flip stm in
        let balance := - balance - 1 - PieceValueMG_pt nextVictim in
        if 0 <=? balance
        then
          let stm :=
            if pt_eqb nextVictim KING
               && negb (Z.land attackers (pieces_c pos stm) =? 0)
            then flip stm else stm in
          Some (negb (color_eqb us stm))
        else see_loop n pos to us stm balance occupied attackers
  end.

(** [see_ge(m, threshold)] *)
Definition see_ge (fuel : nat) (pos : Position) (m : Move) (threshold : Value)
  : option bool :=
  (* Only deal with normal moves, assume others pass a simple see *)
  match type_of_m m with
  | NORMAL =>
      let from := from_sq m in
      let to := to_sq m in
      let nextVictim := type_of (piece_on pos from) in
      let us := color_of (piece_on pos from) in
      let stm := flip us in
      (* The opponent may be able to recapture so this is the best
         result we can hope for *)
      let balance := PieceValueMG T (piece_on pos to) - threshold in
      (* Consider captured gates *)
      let balance :=
        if bb_has (gateBB pos) to
        then balance + PieceValueMG_pt (gating_piece_sq pos to)
        else balance in
      if balance <? 0 then Some false
      else
        let balance := balance - PieceValueMG_pt nextVictim in
        if 0 <=? balance then Some true
        else
          let occupied := Z.lxor (Z.lxor (pieces pos) (SquareBB from)) (SquareBB to) in
          let attackers := Z.land (attackers_to_occ pos to occupied) occupied in
          see_loop fuel pos to us stm balance occupied attackers
  | _ => Some (threshold <=? 0)
  end.

End PositionCode.

(* ================================================================= *)
(** ** Concrete data for evaluation *)

(** A [StateInfo] with every member zero, as [std::memset] leaves it. *)
Definition zero_state : StateInfo :=
  {| pawnKey := 0; materialKey := 0; nonPawnMaterial := fun _ => 0;
     castlingRights := 0; rule50 := 0; pliesFromNull := 0; psq := 0; epSquare := 0;
     key := 0; checkersBB := 0; capturedPiece := NO_PIECE; gate := 0;
     capturedGate := 0; removedGatingType := NO_PIECE_TYPE; previous := None;
     blockersForKing := fun _ => 0; pinners := fun _ => 0; checkSquares := fun _ => 0 |}.

(** The position at the head of [Position::set]: all members zero, the
    piece lists filled with [SQ_NONE], [st] pointing at the given state. *)
Definition cleared_position (si : StateInfo) : Position :=
  {| board := fun _ => NO_PIECE; gateBoard := fun _ => NO_GATE;
     gatingPieces := fun _ => NO_PIECE_TYPE; gatingSquares := fun _ _ => 0;
     byTypeBB := fun _ => 0; byColorBB := fun _ => 0; gateBB := 0;
     pieceCount := fun _ => 0; gateCount := NO_GATE; setupCount := fun _ => NO_GATE;
     pieceList := fun _ _ => SQ_NONE; index := fun _ => 0;
     castlingRightsMask := fun _ => 0; castlingRookSquare := fun _ => 0;
     castlingPath := fun _ => 0; gamePly := 0; sideToMove := WHITE;
     st := si; chess960 := false |}.

(** The gating catalog: the types of the gates 1 .. [gateCount]. *)
Definition catalog (pos : Position) : list PieceType :=
  map (fun i => gatingPieces pos (Z.of_nat i)) (seq 1 (Z.to_nat (gateCount pos))).

(** Tables for evaluation: distinct small keys, unit scores, leaper
    pawns from [PseudoAttacks], no other attacks. *)
Definition sample_tables : Tables :=
  {| Zobrist_psq := fun pc s => 1 + 64 * (pt_index (type_of pc) + 32 * color_index (color_of pc)) + s;
     Zobrist_psq_gate := fun pc f => 4096 + 8 * (pt_index (type_of pc) + 32 * color_index (color_of pc)) + f;
     Zobrist_inhand := fun pt g => 8192 + 4 * pt_index pt + g;
     Zobrist_enpassant := fun f => 16384 + f;
     Zobrist_castling := fun cr => 32768 + cr;
     Zobrist_side := 65536;
     Zobrist_noPawns := 131072;
     PSQT_psq := fun pc s => pt_index (type_of pc) + s;
     PSQT_psq_gate := fun pc f => pt_index (type_of pc) + f;
     PieceValueMG := fun pc => 100 * pt_index (type_of pc);
     attacks_bb := fun c pt s _ => PseudoAttacks c pt s;
     attacks_bb_magic := fun pt s occ => sliding_attack (slider pt) s occ 7;
     between_bb := fun _ _ => 0;
     aligned := fun _ _ _ => false |}.

Definition select_gate (pt : PieceType) : Move := make SET_GATING_TYPE SQ_A1 SQ_A1 pt.

(** The reading of the selection scenario with the selected type kept:
    after two selections of [pt] the catalog holds [pt], the cannon and
    the leopard. *)
Definition catalog_keeps_selection (T : Tables) (pos : Position) (pt : PieceType)
  : Prop :=
  let p2 := do_move T (select_gate pt) zero_state false
              (do_move T (select_gate pt) zero_state false pos) in
  In pt (catalog p2) /\ In CANNON (catalog p2) /\ In LEOPARD (catalog p2).


(* ================================================================= *)
(** ** Predicates used in the statements *)

(** The members of a [StateInfo] that [set_check_info] leaves alone. *)
Definition same_core (a b : StateInfo) : Prop :=
  pawnKey a = pawnKey b /\ materialKey a = materialKey b
  /\ nonPawnMaterial a = nonPawnMaterial b /\ castlingRights a = castlingRights b
  /\ rule50 a = rule50 b /\ pliesFromNull a = pliesFromNull b /\ psq a = psq b
  /\ epSquare a = epSquare b /\ key a = key b /\ checkersBB a = checkersBB b
  /\ capturedPiece a = capturedPiece b /\ gate a = gate b
  /\ capturedGate a = capturedGate b /\ removedGatingType a = removedGatingType b
  /\ previous a = previous b.

(** Two positions that differ at most in [st] and [sideToMove]. *)
Definition same_board (p q : Position) : Prop :=
  board p = board q /\ gateBoard p = gateBoard q /\ gatingPieces p = gatingPieces q
  /\ gatingSquares p = gatingSquares q /\ byTypeBB p = byTypeBB q
  /\ byColorBB p = byColorBB q /\ gateBB p = gateBB q /\ pieceCount p = pieceCount q
  /\ gateCount p = gateCount q /\ setupCount p = setupCount q
  /\ pieceList p = pieceList q /\ index p = index q
  /\ castlingRightsMask p = castlingRightsMask q
  /\ castlingRookSquare p = castlingRookSquare q /\ castlingPath p = castlingPath q
  /\ gamePly p = gamePly q /\ chess960 p = chess960 q.

From Stdlib Require Import Finite DecimalString Btauto.

(* ================================================================= *)
(** ** Further definitions *)

(** Every piece type but the null one. *)
Definition all_piece_types : list PieceType :=
  piece_types_PAWN_to_KING
  ++ [ CUSTOM_PIECE_1; CUSTOM_PIECE_2; CUSTOM_PIECE_3; CUSTOM_PIECE_4; CUSTOM_PIECE_5;
       CUSTOM_PIECE_6; CUSTOM_PIECE_7; CUSTOM_PIECE_8; CUSTOM_PIECE_9 ].

(** The bitboards agree with the board array (invariant I1 of the
    spec): a square is in [byTypeBB[ALL_PIECES]] iff it holds a piece,
    in [byTypeBB[pt]] iff it holds a piece of type [pt], in
    [byColorBB[c]] iff it holds a piece of colour [c]; a piece on the
    board has a type. *)
Definition bitboards_consistent (pos : Position) : bool :=
  forallb
    (fun s =>
       let pc := board pos s in
       let occ := negb (piece_eqb pc NO_PIECE) in
       Bool.eqb (Z.testbit (byTypeBB pos ALL_PIECES) s) occ
       && forallb (fun pt => Bool.eqb (Z.testbit (byTypeBB pos pt) s)
                                      (occ && pt_eqb (type_of pc) pt))
                  all_piece_types
       && forallb (fun c => Bool.eqb (Z.testbit (byColorBB pos c) s)
                                     (occ && color_eqb (color_of pc) c))
                  [WHITE; BLACK]
       && implb occ (negb (pt_eqb (type_of pc) NO_PIECE_TYPE)))
    all_squares.

(** A truth value as 0 or 1. *)
Definition b2z (b : bool) : Z := if b then 1 else 0.

(** *** The checks of [pos_is_ok]

    The last-but-one loop of [pos_is_ok]: for both colours and the piece
    types [PAWN .. KING], every entry [i] below [pieceCount[pc]] of the
    piece list names a square that holds [pc] and whose [index] is [i]. *)
Definition piece_lists_ok (pos : Position) : bool :=
  forallb
    (fun c =>
       forallb
         (fun pt =>
            let pc := make_piece c pt in
            forallb
              (fun i =>
                 piece_eqb (board pos (pieceList pos pc (Z.of_nat i))) pc
                 && (index pos (pieceList pos pc (Z.of_nat i)) =? Z.of_nat i))
              (seq 0 (Z.to_nat (pieceCount pos pc))))
         piece_types_PAWN_to_KING)
    [WHITE; BLACK].

(** [s] is the entry of [pc]'s piece list that [index[s]] names. *)
Definition list_entry (pos : Position) (pc : Piece) (s : Square) : Prop :=
  0 <= index pos s < pieceCount pos pc /\ pieceList pos pc (index pos s) = s.

(** No live entry of a checked piece list names [s]. *)
Definition unlisted (pos : Position) (s : Square) : Prop :=
  forall pc i, In (type_of pc) piece_types_PAWN_to_KING ->
               0 <= i < pieceCount pos pc -> pieceList pos pc i <> s.

(* ================================================================= *)
(** ** [bitboard.cpp]: further tables of [Bitboards::init] *)

(** [unsigned] arithmetic: 32 bits, every result wraps. *)
Definition u32 (x : Z) : Z := x mod 2 ^ 32.

(** [popcount16(u)], the SWAR population count *)
Definition popcount16 (u : Z) : Z :=
  let u := u32 (u - Z.land (Z.shiftr u 1) 0x5555) in
  let u := u32 (Z.land (Z.shiftr u 2) 0x3333 + Z.land u 0x3333) in
  let u := Z.land (u32 (Z.shiftr u 4 + u)) 0x0F0F in
  Z.shiftr (u32 (u * 0x0101)) 8.

(** [PopCnt16[i] = (uint8_t) popcount16(i)] *)
Definition PopCnt16 (i : Z) : Z := popcount16 i mod 2 ^ 8.

(** The number of one bits among the low 64 of [b]. *)
Definition bit_count (b : Bitboard) : Z := Z.of_nat (List.length (squares_of b)).

(** The integers [0 .. 2^k - 1], by doubling. *)
Fixpoint words (k : nat) : list Z :=
  match k with
  | O => [0]
  | S n => words n ++ map (fun x => x + 2 ^ Z.of_nat n) (words n)
  end.

(** [AdjacentFilesBB[f]] *)
Definition AdjacentFilesBB (f : Z) : Bitboard :=
  Z.lor (if FILE_A <? f then FileBB (f - 1) else 0)
        (if f <? FILE_H then FileBB (f + 1) else 0).

(** [ForwardRanksBB]: the loop
    [for (r = RANK_1; r < RANK_8; ++r)
       ForwardRanksBB[WHITE][r] = ~(ForwardRanksBB[BLACK][r + 1]
                                     = ForwardRanksBB[BLACK][r] | RankBB[r])]
    on the zero-initialised table. *)
Definition ForwardRanksBB_table : Color -> Z -> Bitboard :=
  fold_left
    (fun (tbl : Color -> Z -> Bitboard) r =>
       let b := Z.lor (tbl BLACK r) (RankBB r) in
       let tbl := updC tbl BLACK (upd (tbl BLACK) (r + 1) b) in
       updC tbl WHITE (upd (tbl WHITE) r (bb_not b)))
    (map Z.of_nat (seq 0 7)) (fun _ _ => 0).

Definition ForwardRanksBB (c : Color) (r : Z) : Bitboard := ForwardRanksBB_table c r.

Definition ForwardFileBB (c : Color) (s : Square) : Bitboard :=
  Z.land (ForwardRanksBB c (rank_of s)) (FileBB (file_of s)).
Definition PawnAttackSpan (c : Color) (s : Square) : Bitboard :=
  Z.land (ForwardRanksBB c (rank_of s)) (AdjacentFilesBB (file_of s)).
Definition PassedPawnMask (c : Color) (s : Square) : Bitboard :=
  Z.lor (ForwardFileBB c s) (PawnAttackSpan c s).

(** [pawn_passed(c, s)] of [position.h] *)
Definition pawn_passed (pos : Position) (c : Color) (s : Square) : bool :=
  Z.land (pieces_c_pt pos (flip c) PAWN) (PassedPawnMask c s) =? 0.

(** [t] is on a rank in front of [s] from [c]'s side, on the same or an
    adjacent file. *)
Definition in_front_nearby (c : Color) (s t : Square) : bool :=
  (match c with
   | WHITE => rank_of s <? rank_of t
   | BLACK => rank_of t <? rank_of s
   end)
  && (Z.abs (file_of t - file_of s) <=? 1).

(** *** Rays

    [ray_squares] lists the squares that one direction of
    [sliding_attack] visits when nothing blocks: the loop test without
    the occupancy.  [walk] collects such a list up to and including the
    first occupied square, as the loop body does. *)
Fixpoint ray_squares (fuel : nat) (d : Direction) (sq : Square) (max_dist : Z)
    (s : Square) : list Square :=
  match fuel with
  | O => []
  | S n =>
      if is_ok s && (distance s (s - d) =? 1) && (distance s sq <=? max_dist)
      then s :: ray_squares n d sq max_dist (s + d)
      else []
  end.

Fixpoint walk (occupied : Bitboard) (l : list Square) : Bitboard :=
  match l with
  | [] => 0
  | x :: r =>
      if bb_has occupied x then SquareBB x else Z.lor (SquareBB x) (walk occupied r)
  end.

(** *** [init_magics] *)

(** [edges]: the board edges that are not on the rank or file of [s] *)
Definition magic_edges (s : Square) : Bitboard :=
  Z.lor (Z.land (Z.lor Rank1BB Rank8BB) (bb_not (rank_bb s)))
        (Z.land (Z.lor FileABB FileHBB) (bb_not (file_bb s))).

(** [m.mask = sliding_attack(directions, s, 0) & ~edges] *)
Definition magic_mask (directions : list Direction) (s : Square) : Bitboard :=
  Z.land (sliding_attack directions s 0 7) (bb_not (magic_edges s)).

(** *** The attack tables of [init_magics]

    [pext(b, mask)] is the BMI2 bit extract that [bitboard.h] wraps: the
    bits of [b] at the one bits of [mask], packed from the lowest up. *)
Fixpoint pext_bits (b : Bitboard) (l : list Square) : Z :=
  match l with
  | [] => 0
  | x :: r => b2z (Z.testbit b x) + 2 * pext_bits b r
  end.

Definition pext (b mask : Bitboard) : Z := pext_bits b (squares_of mask).

(** [struct Magic]; [attacks] is the offset of the square's part of the
    table, [m.attacks - table]. *)
Record Magic : Type := mkMagic { mask : Bitboard; shift : Z; attacks : Z }.

(** The [do ... while (b)] of [init_magics] on the build with [HasPext]:
    every subset [b] of the mask, by the Carry-Rippler step
    [b = (b - m.mask) & m.mask] on 64 bits, has its attack set stored at
    [m.attacks[pext(b, m.mask)]].  The arrays
    [occupancy] and [reference] have 4096 entries, which bounds the
    iterations; [None] when the bound is passed. *)
Fixpoint magic_fill (fuel : nat) (directions : list Direction) (s : Square) (m : Magic)
    (b : Bitboard) (size : Z) (table : Z -> Bitboard) : option ((Z -> Bitboard) * Z) :=
  match fuel with
  | O => None
  | S n =>
      let reference := sliding_attack directions s b 7 in
      let table := upd table (attacks m + pext b (mask m)) reference in
      let size := size + 1 in
      let b := Z.land (Z.land (b - mask m) U64) (mask m) in
      if b =? 0 then Some (table, size)
      else magic_fill n directions s m b size table
  end.

(** The body of the loop over the squares in [init_magics]; [size] is
    the variable that the loop of the square before left. *)
Definition magic_step (directions : list Direction)
    (acc : option ((Z -> Bitboard) * (Square -> Magic) * Z)) (s : Square)
  : option ((Z -> Bitboard) * (Square -> Magic) * Z) :=
  match acc with
  | None => None
  | Some (table, magics, size) =>
      let edges := magic_edges s in
      let msk := Z.land (sliding_attack directions s 0 7) (bb_not edges) in
      let m := {| mask := msk;
                  shift := 64 - bit_count msk;
                  attacks := if s =? SQ_A1 then 0
                             else attacks (magics (s - 1)) + size |} in
      let magics := upd magics s m in
      match magic_fill 4096 directions s m 0 0 table with
      | Some (table, size) => Some (table, magics, size)
      | None => None
      end
  end.

(** [init_magics(table, magics, directions)] on the build with
    [HasPext]; the table and the magics start zero-initialised. *)
Definition init_magics (directions : list Direction)
  : option ((Z -> Bitboard) * (Square -> Magic)) :=
  option_map
    (fun r : (Z -> Bitboard) * (Square -> Magic) * Z => fst r)
    (fold_left (magic_step directions) all_squares
       (Some (fun _ => 0, fun _ => mkMagic 0 0 0, 0))).

(** [RookTable[0x19000]], [BishopTable[0x1480]] *)
Definition RookTable_size : Z := 0x19000.
Definition BishopTable_size : Z := 0x1480.

(** The subsets of [mask] in the order of the Carry-Rippler step. *)
Fixpoint rippler (fuel : nat) (mask b : Bitboard) : option (list Bitboard) :=
  match fuel with
  | O => None
  | S n =>
      let b' := Z.land (Z.land (b - mask) U64) mask in
      if b' =? 0 then Some [b]
      else option_map (cons b) (rippler n mask b')
  end.

Fixpoint Zlist_eqb (a b : list Z) : bool :=
  match a, b with
  | [], [] => true
  | x :: a', y :: b' => (x =? y) && Zlist_eqb a' b'
  | _, _ => false
  end.

(** The enumeration for the mask of [s] stays within 4096 steps, and
    its members are the subsets of the mask, with the extracted indices
    0, 1, 2, ... in this order. *)
Definition magic_square_ok (directions : list Direction) (s : Square) : bool :=
  let m := magic_mask directions s in
  (0 <=? m) && (m <? 2 ^ 64)
  && match rippler 4096 m 0 with
     | Some L =>
         (let l := squares_of m in
          Zlist_eqb (map (fun b => pext_bits b l) L)
                    (map Z.of_nat (seq 0 (List.length L))))
         && (Z.of_nat (List.length L) =? 2 ^ bit_count m)
         && forallb (fun b => Z.land b m =? b) L
     | None => false
     end.

(** The offset of the part of square [n]: the sizes of the parts before. *)
Fixpoint magic_offset (directions : list Direction) (n : nat) : Z :=
  match n with
  | O => 0
  | S k => magic_offset directions k
           + 2 ^ bit_count (magic_mask directions (Z.of_nat k))
  end.

(** The state of the loop over the squares after [j] of them: each
    square done has its mask, its offset and its part of the table. *)
Definition magic_inv (directions : list Direction) (j : nat)
    (st : (Z -> Bitboard) * (Square -> Magic) * Z) : Prop :=
  let '(table, magics, size) := st in
  (forall s, (s < j)%nat ->
     mask (magics (Z.of_nat s)) = magic_mask directions (Z.of_nat s)
     /\ attacks (magics (Z.of_nat s)) = magic_offset directions s
     /\ forall b, Z.land b (magic_mask directions (Z.of_nat s)) = b ->
          table (magic_offset directions s + pext b (magic_mask directions (Z.of_nat s)))
          = sliding_attack directions (Z.of_nat s) b 7)
  /\ (forall k, j = S k -> size = 2 ^ bit_count (magic_mask directions (Z.of_nat k))).

(* ================================================================= *)
(** ** [betza.h], [betza.cpp]: the registry of custom pieces *)

Record BetzaPattern : Type := mkBetzaPattern {
  notation : string;
  offsets : list (Z * Z);   (* (fileOffset, rankOffset) *)
  isRider : bool;
  captureOnly : bool;
  quietOnly : bool
}.

Record BetzaPiece : Type := mkBetzaPiece {
  name : string;
  patterns : list BetzaPattern
}.

(** [std::map<PieceType, BetzaPiece> customPieces] *)
Definition BetzaRegistry : Type := PieceType -> option BetzaPiece.

(** [std::to_string] of a small number *)
Definition to_string (z : Z) : string := NilZero.string_of_int (Z.to_int z).

Definition knight_offsets : list (Z * Z) :=
  [(2, 1); (2, -1); (-2, 1); (-2, -1); (1, 2); (1, -2); (-1, 2); (-1, -2)].
Definition king_offsets : list (Z * Z) :=
  [(1, 0); (-1, 0); (0, 1); (0, -1); (1, 1); (1, -1); (-1, 1); (-1, -1)].
Definition rook_offsets : list (Z * Z) := [(1, 0); (-1, 0); (0, 1); (0, -1)].
Definition bishop_offsets : list (Z * Z) := [(1, 1); (1, -1); (-1, 1); (-1, -1)].

(** The chain of [if (notation == ...)] in [addCustomPiece] *)
Definition parse_notation (n : string) : list BetzaPattern :=
  if String.eqb n "N" then [mkBetzaPattern "N" knight_offsets false false false]
  else if String.eqb n "K" then [mkBetzaPattern "K" king_offsets false false false]
  else if String.eqb n "R" then [mkBetzaPattern "R" rook_offsets true false false]
  else if String.eqb n "B" then [mkBetzaPattern "B" bishop_offsets true false false]
  else if String.eqb n "Q" then [mkBetzaPattern "Q" king_offsets true false false]
  else if String.eqb n "WF" then [mkBetzaPattern "WF" king_offsets false false false]
  else if String.eqb n "mWcF"
       then [mkBetzaPattern "mW" [(0, 1)] false false true;
             mkBetzaPattern "cF" [(1, 1); (-1, 1)] false true false]
  else if String.eqb n "RN"
       then [mkBetzaPattern "R" rook_offsets true false false;
             mkBetzaPattern "N" knight_offsets false false false]
  else if String.eqb n "HW"
       then [mkBetzaPattern "H" [(3, 0); (-3, 0); (0, 3); (0, -3)] false false false;
             mkBetzaPattern "W" rook_offsets false false false]
  else [].

(** [addCustomPiece(pt, notation, name)]; [CUSTOM_PIECES] is the first
    custom identifier. *)
Definition addCustomPiece (pt : PieceType) (n : string) (nm : string)
    (customPieces : BetzaRegistry) : BetzaRegistry :=
  if negb (is_custom pt) then customPieces
  else
    let piece :=
      {| name := if String.eqb nm EmptyString
                 then String.append "Custom"
                        (to_string (pt_index pt - pt_index CUSTOM_PIECE_1 + 1))
                 else nm;
         patterns := parse_notation n |} in
    updT customPieces pt (Some piece).

(** [BetzaManager::init()] *)
Definition BetzaManager_init : BetzaRegistry :=
  let r : BetzaRegistry := fun _ => None in
  let r := addCustomPiece CUSTOM_PIECE_1 "N" "Knight-like" r in
  let r := addCustomPiece CUSTOM_PIECE_2 "K" "King-like" r in
  let r := addCustomPiece CUSTOM_PIECE_3 "R" "Rook-like" r in
  let r := addCustomPiece CUSTOM_PIECE_4 "B" "Bishop-like" r in
  let r := addCustomPiece CUSTOM_PIECE_5 "Q" "Queen-like" r in
  let r := addCustomPiece CUSTOM_PIECE_6 "mWcF" "Pawn-like" r in
  let r := addCustomPiece CUSTOM_PIECE_7 "WF" "Wazir-Ferz" r in
  let r := addCustomPiece CUSTOM_PIECE_8 "RN" "Amazon-like" r in
  addCustomPiece CUSTOM_PIECE_9 "HW" "Three-Leaper-Wazir" r.

(** The [while (true)] of a rider offset in [getAttacks]; [None] when
    [fuel] runs out. *)
Fixpoint betza_ride (fuel : nat) (fileOffset rankOffset : Z) (occupied : Bitboard)
    (to : Square) (atk : Bitboard) : option Bitboard :=
  match fuel with
  | O => None
  | S n =>
      let newSquare := to + fileOffset + 8 * rankOffset in
      if (newSquare <? SQ_A1) || (SQ_H8 <? newSquare) then Some atk
      else
        let to := newSquare in
        (* Check if we wrapped around the board *)
        if negb (Z.abs (file_of to - file_of (newSquare - fileOffset - 8 * rankOffset))
                 =? Z.abs fileOffset)
        then Some atk
        else
          let atk := Z.lor atk (SquareBB to) in
          if negb (Z.land occupied (SquareBB to) =? 0) then Some atk (* Blocked *)
          else betza_ride n fileOffset rankOffset occupied to atk
  end.

(** One offset of a leaping pattern *)
Definition betza_leap (fileOffset rankOffset : Z) (from : Square) (atk : Bitboard)
  : Bitboard :=
  let newSquare := from + fileOffset + 8 * rankOffset in
  if (SQ_A1 <=? newSquare) && (newSquare <=? SQ_H8)
  then
    let to := newSquare in
    if (Z.abs (file_of to - file_of from) =? Z.abs fileOffset)
       && (Z.abs (rank_of to - rank_of from) =? Z.abs rankOffset)
    then Z.lor atk (SquareBB to)
    else atk
  else atk.

(** The loops over the offsets of a pattern and over the patterns *)
Definition betza_pattern (p : BetzaPattern) (from : Square) (occupied : Bitboard)
    (atk : option Bitboard) : option Bitboard :=
  fold_left
    (fun (acc : option Bitboard) (offset : Z * Z) =>
       match acc with
       | None => None
       | Some atk =>
           let fileOffset := fst offset in
           let rankOffset := snd offset in
           if isRider p
           then betza_ride 64 fileOffset rankOffset occupied from atk
           else Some (betza_leap fileOffset rankOffset from atk)
       end)
    (offsets p) atk.

(** [getAttacks(pt, from, occupied, capturesOnly)] *)
Definition getAttacks (customPieces : BetzaRegistry) (pt : PieceType) (from : Square)
    (occupied : Bitboard) (capturesOnly : bool) : option Bitboard :=
  match customPieces pt with
  | None => Some 0
  | Some piece =>
      fold_left
        (fun (acc : option Bitboard) (p : BetzaPattern) =>
           if capturesOnly && quietOnly p then acc
           else if negb capturesOnly && captureOnly p then acc
           else betza_pattern p from occupied acc)
        (patterns piece) (Some 0)
  end.

(** [isCustomPiece(pt)] *)
Definition isCustomPiece (customPieces : BetzaRegistry) (pt : PieceType) : bool :=
  match customPieces pt with Some _ => true | None => false end.

(** The global helper [attacks_from_betza(c, pt, from, occupied)]: it
    reads the global [betzaManager], whose registry is whatever [init]
    and [addCustomPiece] have left, so the registry is an argument here;
    [capturesOnly] takes its default. *)
Definition attacks_from_betza (betzaManager : BetzaRegistry) (c : Color)
    (pt : PieceType) (from : Square) (occupied : Bitboard) : option Bitboard :=
  getAttacks betzaManager pt from occupied false.

(** [Position::attacks_from_betza(c, pt, s)] of [position.h]: the call
    leaves [occupied] to its default, zero. *)
Definition Position_attacks_from_betza (betzaManager : BetzaRegistry) (pos : Position)
    (c : Color) (pt : PieceType) (s : Square) : option Bitboard :=
  attacks_from_betza betzaManager c pt s 0.

(** The registry before [init] or [addCustomPiece] has run: the empty
    [std::map]. *)
Definition empty_registry : BetzaRegistry := fun _ => None.

(** The squares a rider offset visits when nothing blocks. *)
Fixpoint betza_ride_squares (fuel : nat) (fileOffset rankOffset : Z) (to : Square)
  : option (list Square) :=
  match fuel with
  | O => None
  | S n =>
      let newSquare := to + fileOffset + 8 * rankOffset in
      if (newSquare <? SQ_A1) || (SQ_H8 <? newSquare) then Some []
      else if negb (Z.abs (file_of newSquare
                           - file_of (newSquare - fileOffset - 8 * rankOffset))
                    =? Z.abs fileOffset)
      then Some []
      else option_map (cons newSquare)
                      (betza_ride_squares n fileOffset rankOffset newSquare)
  end.

(** Comparing a result with an expected bitboard. *)
Definition option_Z_eqb (a : option Z) (b : Z) : bool :=
  match a with Some x => x =? b | None => false end.

(* ================================================================= *)
(** ** [position.cpp]: further members *)

Section PositionMore.

Context (T : Tables).

(** [do_null_move(newSt)]: [std::memcpy(&newSt, st, sizeof(StateInfo))]
    overwrites the whole of the caller's [newSt], which therefore does
    not matter. *)
Definition do_null_move (newSt : StateInfo) (pos : Position) : Position :=
  let newSt := si_previous (Some (st pos)) (st pos) in
  let pos := set_st newSt pos in
  let pos :=
    if negb (epSquare (st pos) =? SQ_NONE)
    then
      let pos := upd_st (fun si =>
                   si_key (Z.lxor (key si)
                                  (Zobrist_enpassant T (file_of (epSquare si)))) si) pos in
      upd_st (si_epSquare SQ_NONE) pos
    else pos in
  let pos := upd_st (fun si => si_key (Z.lxor (key si) (Zobrist_side T)) si) pos in
  let pos := upd_st (fun si => si_rule50 (rule50 si + 1) si) pos in
  let pos := upd_st (si_pliesFromNull 0) pos in
  let pos := set_sideToMove (flip (sideToMove pos)) pos in
  upd_st (set_check_info T pos) pos.

(** [undo_null_move()]; [None] stands for following a null [previous]. *)
Definition undo_null_move (pos : Position) : option Position :=
  match previous (st pos) with
  | Some prev => Some (set_sideToMove (flip (sideToMove pos)) (set_st prev pos))
  | None => None
  end.

(** [key_after(m)] *)
Definition key_after (pos : Position) (m : Move) : Key :=
  let from := from_sq m in
  let to := to_sq m in
  let pc := piece_on pos from in
  let captured := piece_on pos to in
  let k := Z.lxor (key (st pos)) (Zobrist_side T) in
  let k := if negb (piece_eqb captured NO_PIECE)
           then Z.lxor k (Zobrist_psq T captured to) else k in
  Z.lxor (Z.lxor k (Zobrist_psq T pc to)) (Zobrist_psq T pc from).

End PositionMore.

(** *** Predicates for the exchange evaluation *)

(** All one bits of [b] are squares of the board. *)
Definition within64 (b : Bitboard) : Prop :=
  forall n, Z.testbit b n = true -> 0 <= n < 64.

(** The answer [r] is no worse for the side [stm] than the answer [r']:
    [see_loop] answers [true] when the side that gives up is not [us]. *)
Definition no_worse (us stm : Color) (r r' : bool) : Prop :=
  if color_eqb us stm then r' = true -> r = true else r' = false -> r = false.

(** Tables for evaluation with the king without a value, as the
    exchange evaluation expects: piece values are a hundred times the
    ordinal of the type, and the sliders attack along their rays. *)
Definition see_tables : Tables :=
  {| Zobrist_psq := Zobrist_psq sample_tables;
     Zobrist_psq_gate := Zobrist_psq_gate sample_tables;
     Zobrist_inhand := Zobrist_inhand sample_tables;
     Zobrist_enpassant := Zobrist_enpassant sample_tables;
     Zobrist_castling := Zobrist_castling sample_tables;
     Zobrist_side := Zobrist_side sample_tables;
     Zobrist_noPawns := Zobrist_noPawns sample_tables;
     PSQT_psq := PSQT_psq sample_tables;
     PSQT_psq_gate := PSQT_psq_gate sample_tables;
     PieceValueMG := fun pc => match type_of pc with
                               | KING => 0
                               | pt => 100 * pt_index pt
                               end;
     attacks_bb := fun c pt s occ =>
                     Z.lor (LeaperAttacks c pt s)
                           (sliding_attack (slider pt) s occ (slider_dist pt));
     attacks_bb_magic := attacks_bb_magic sample_tables;
     between_bb := between_bb sample_tables;
     aligned := aligned sample_tables |}.

(** White rooks on a1 and a2 facing a black knight on a8 that a black
    rook on h8 defends; kings on g1 and g7. *)
Definition exchange_position : Position :=
  let pos := cleared_position zero_state in
  let pos := put_piece (make_piece WHITE ROOK) SQ_A1 pos in
  let pos := put_piece (make_piece WHITE ROOK) 8 pos in
  let pos := put_piece (make_piece BLACK KNIGHT) SQ_A8 pos in
  let pos := put_piece (make_piece BLACK ROOK) SQ_H8 pos in
  let pos := put_piece (make_piece WHITE KING) SQ_G1 pos in
  put_piece (make_piece BLACK KING) 54 pos.

(* ================================================================= *)
(** ** [position.cpp]: setting up a position *)

(** The squares [lo .. hi] *)
Definition squares_from_to (lo hi : Square) : list Square :=
  map (fun i => lo + Z.of_nat i) (seq 0 (Z.to_nat (hi - lo + 1))).

(** [set_castling_right(c, rfrom)] *)
Definition set_castling_right (c : Color) (rfrom : Square) (pos : Position) : Position :=
  let kfrom := square_of pos KING c in
  let cs := if kfrom <? rfrom then KING_SIDE else QUEEN_SIDE in
  let cr := castling_right c cs in
  let pos := upd_st (fun si => si_castlingRights (Z.lor (castlingRights si) cr) si) pos in
  let pos := set_castlingRightsMask
               (upd (castlingRightsMask pos) kfrom
                    (Z.lor (castlingRightsMask pos kfrom) cr)) pos in
  let pos := set_castlingRightsMask
               (upd (castlingRightsMask pos) rfrom
                    (Z.lor (castlingRightsMask pos rfrom) cr)) pos in
  let pos := set_castlingRookSquare (upd (castlingRookSquare pos) cr rfrom) pos in
  let kto := relative_square c (match cs with KING_SIDE => SQ_G1 | QUEEN_SIDE => SQ_C1 end) in
  let rto := relative_square c (match cs with KING_SIDE => SQ_F1 | QUEEN_SIDE => SQ_D1 end) in
  let add_path (pos : Position) (s : Square) : Position :=
    if negb (s =? kfrom) && negb (s =? rfrom)
    then set_castlingPath
           (upd (castlingPath pos) cr (Z.lor (castlingPath pos cr) (SquareBB s))) pos
    else pos in
  let pos := fold_left add_path (squares_from_to (Z.min rfrom rto) (Z.max rfrom rto)) pos in
  fold_left add_path (squares_from_to (Z.min kfrom kto) (Z.max kfrom kto)) pos.

(** The gates [GATE_1 .. n] *)
Definition gates_upto (n : Gate) : list Gate := map Z.of_nat (seq 1 (Z.to_nat n)).

Section PositionSetup.

Context (T : Tables).

(** [set_state(si)] *)
Definition set_state (pos : Position) (si : StateInfo) : StateInfo :=
  let si := si_materialKey 0 si in
  let si := si_key 0 si in
  let si := si_pawnKey (Zobrist_noPawns T) si in
  let si := si_nonPawnMaterial (fun _ => 0) si in
  let si := si_psq 0 si in
  let si := si_checkersBB (Z.land (attackers_to T pos (square_of pos KING (sideToMove pos)))
                                  (pieces_c pos (flip (sideToMove pos)))) si in
  let si := set_check_info T pos si in
  let si :=
    fold_left
      (fun si s =>
         let pc := piece_on pos s in
         let si := si_key (Z.lxor (key si) (Zobrist_psq T pc s)) si in
         si_psq (psq si + PSQT_psq T pc s) si)
      (squares_of (pieces pos)) si in
  let si :=
    fold_left
      (fun si g => si_key (Z.lxor (key si) (Zobrist_inhand T (gating_piece pos g) g)) si)
      (gates_upto (gate_count pos)) si in
  let si :=
    fold_left
      (fun si c =>
         fold_left
           (fun si g =>
              let s := gating_square pos c g in
              if negb (s =? SQ_NONE)
              then
                let pc := make_piece c (gating_piece pos g) in
                let si := si_key (Z.lxor (key si) (Zobrist_psq_gate T pc (file_of s))) si in
                si_psq (psq si + PSQT_psq_gate T pc (file_of s)) si
              else si)
           (gates_upto (setup_count pos c)) si)
      [WHITE; BLACK] si in
  let si :=
    if negb (epSquare si =? SQ_NONE)
    then si_key (Z.lxor (key si) (Zobrist_enpassant T (file_of (epSquare si)))) si
    else si in
  let si :=
    match sideToMove pos with
    | BLACK => si_key (Z.lxor (key si) (Zobrist_side T)) si
    | WHITE => si
    end in
  let si := si_key (Z.lxor (key si) (Zobrist_castling T (castlingRights si))) si in
  let si :=
    fold_left
      (fun si s => si_pawnKey (Z.lxor (pawnKey si) (Zobrist_psq T (piece_on pos s) s)) si)
      (squares_of (pieces_pt pos PAWN)) si in
  fold_left
    (fun si c =>
       fold_left
         (fun si pt =>
            let pc := make_piece c pt in
            let si :=
              match pt with
              | PAWN | KING => si
              | _ => si_nonPawnMaterial
                       (updC (nonPawnMaterial si) c
                             (nonPawnMaterial si c + pieceCount pos pc * PieceValueMG T pc)) si
              end in
            fold_left
              (fun si cnt => si_materialKey (Z.lxor (materialKey si) (Zobrist_psq T pc cnt)) si)
              (map Z.of_nat (seq 0 (Z.to_nat (pieceCount pos pc)))) si)
         piece_types_PAWN_to_KING si)
    [WHITE; BLACK] si.

End PositionSetup.

(* ================================================================= *)
(** ** Positions and predicates for the claims *)

(** A position for the exchange evaluation: a white rook on a1, a black
    knight on a8 whose square also hosts black's first gate (a hawk). *)
Definition see_sample_position : Position :=
  let pos := cleared_position zero_state in
  let pos := set_gating_type LEOPARD (set_gating_type HAWK pos) in
  let pos := put_piece (make_piece WHITE ROOK) SQ_A1 pos in
  let pos := put_piece (make_piece BLACK KNIGHT) SQ_A8 pos in
  let pos := put_piece (make_piece WHITE KING) SQ_H1 pos in
  let pos := put_piece (make_piece BLACK KING) SQ_H8 pos in
  put_gating_piece BLACK SQ_A8 pos.

(** A Chess960 position with the white king on f1 and the white rook on
    h1, the rook's square hosting white's first gate (a cannon); white
    may castle king-side.  Built with the calls [Position::set] makes for
    "4k3/8/8/8/8/8/8/5K1R[ChL-c-l-] w H - 0 1". *)
Definition castling960_position (T : Tables) : Position :=
  let pos := cleared_position zero_state in
  let pos := put_piece (make_piece BLACK KING) 60 pos in
  let pos := put_piece (make_piece WHITE KING) SQ_F1 pos in
  let pos := put_piece (make_piece WHITE ROOK) SQ_H1 pos in
  let pos := set_gating_type CANNON pos in
  let pos := put_gating_piece WHITE SQ_H1 pos in
  let pos := set_gating_type LEOPARD pos in
  let pos := set_gatingSquares
               (updC (gatingSquares pos) WHITE (upd (gatingSquares pos WHITE) 2 SQ_NONE))
               (set_setupCount (updC (setupCount pos) WHITE 2) pos) in
  let pos := set_gatingSquares
               (updC (gatingSquares pos) BLACK (upd (gatingSquares pos BLACK) 1 SQ_NONE))
               (set_setupCount (updC (setupCount pos) BLACK 1) pos) in
  let pos := set_gatingSquares
               (updC (gatingSquares pos) BLACK (upd (gatingSquares pos BLACK) 2 SQ_NONE))
               (set_setupCount (updC (setupCount pos) BLACK 2) pos) in
  let pos := set_sideToMove WHITE pos in
  let pos := set_castling_right WHITE SQ_H1 pos in
  let pos := upd_st (si_epSquare SQ_NONE) pos in
  let pos := set_gamePly 0 pos in
  let pos := set_chess960 true pos in
  upd_st (set_state T pos) pos.

(** King-side castling there: king f1 "takes" rook h1. *)
Definition castle_f1_h1 : Move := make CASTLING SQ_F1 SQ_H1 NO_PIECE_TYPE.

(** The members the reversibility law lists, compared between two
    positions: keys, score, board, bitboards, counts, castling rights,
    en-passant square, fifty-move counter and gate bitboard. *)
Definition observably_equal (p q : Position) : Prop :=
  key (st p) = key (st q)
  /\ pawnKey (st p) = pawnKey (st q)
  /\ materialKey (st p) = materialKey (st q)
  /\ psq (st p) = psq (st q)
  /\ (forall s, 0 <= s < 64 -> board p s = board q s)
  /\ (forall pt, byTypeBB p pt = byTypeBB q pt)
  /\ (forall c, byColorBB p c = byColorBB q c)
  /\ (forall pc, pieceCount p pc = pieceCount q pc)
  /\ castlingRights (st p) = castlingRights (st q)
  /\ epSquare (st p) = epSquare (st q)
  /\ rule50 (st p) = rule50 (st q)
  /\ gateBB p = gateBB q.

(* ================================================================= *)
(** ** [movegen.cpp]: the placement of the gating pieces *)

(** [generate<PLACEMENTS>(pos, moveList)]: the moves written to
    [moveList], in the order of [pop_lsb]. *)
Definition generate_PLACEMENTS (pos : Position) : list Move :=
  let us := side_to_move pos in
  let b := Z.land (match us with WHITE => Rank1BB | BLACK => Rank8BB end)
                  (bb_not (gates pos)) in
  (* King and rook are mutually exclusive gates *)
  let b :=
    if negb (Z.land (pieces_c_pt pos us KING) (gates pos) =? 0)
    then Z.land b (bb_not (pieces_c_pt pos us ROOK))
    else if negb (Z.land (pieces_c_pt pos us ROOK) (gates pos) =? 0)
    then Z.land b (bb_not (pieces_c_pt pos us KING))
    else b in
  let pt := gating_piece pos (setup_count pos us + 1) in
  map (fun s => make PUT_GATING_PIECE SQ_A1 s pt) (squares_of b).

(** The reading of the placement rule with empty squares only: every
    move generated puts the gating piece on an empty square. *)
Definition placements_on_empty_squares (pos : Position) : Prop :=
  forall m, In m (generate_PLACEMENTS pos) -> empty pos (to_sq m) = true.

(** A position of the placement phase: the catalog holds the hawk and
    the unicorn, white is to place its first gating piece; the white
    king is on e1, a white rook on a1, the black king on e8. *)
Definition placement_position : Position :=
  let pos := cleared_position zero_state in
  let pos := put_piece (make_piece WHITE KING) 4 pos in
  let pos := put_piece (make_piece WHITE ROOK) SQ_A1 pos in
  let pos := put_piece (make_piece BLACK KING) 60 pos in
  set_gating_type UNICORN (set_gating_type HAWK pos).

(* ================================================================= *)
(** ** The look-up of the sliding attacks

    Modelled from the spec: [bitboard.h], which holds [attacks_bb<Pt>]
    and [Magic::index], is not among the sources.  On the build with
    [HasPext] the subset index is used directly: the attack set is read
    at [pext(occupied, mask)] of the square's part of the table that
    [init_magics] filled. *)
Definition attacks_bb_lookup (tm : (Z -> Bitboard) * (Square -> Magic)) (s : Square)
    (occupied : Bitboard) : Bitboard :=
  let m := snd tm s in
  fst tm (attacks m + pext occupied (mask m)).

(** [None] when [init_magics] does not end. *)
Definition rook_attacks (s : Square) (occupied : Bitboard) : option Bitboard :=
  option_map (fun tm => attacks_bb_lookup tm s occupied) (init_magics RookDirections).

Definition bishop_attacks (s : Square) (occupied : Bitboard) : option Bitboard :=
  option_map (fun tm => attacks_bb_lookup tm s occupied) (init_magics BishopDirections).

(** Modelled from the spec: queen = rook + bishop. *)
Definition queen_attacks (s : Square) (occupied : Bitboard) : option Bitboard :=
  match rook_attacks s occupied, bishop_attacks s occupied with
  | Some r, Some b => Some (Z.lor r b)
  | _, _ => None
  end.

(** *** The squares a slider reaches, in the words of the spec

    The ray from [s] in the direction [(df, dr)]: the squares of the
    board with file [file_of s + k * df] and rank [rank_of s + k * dr]
    for [k = 1, 2, ...], nearest first. *)
Definition ray (df dr : Z) (s : Square) : list Square :=
  map (fun k => make_square (file_of s + k * df) (rank_of s + k * dr))
      (filter (fun k => (0 <=? file_of s + k * df) && (file_of s + k * df <=? 7)
                        && (0 <=? rank_of s + k * dr) && (rank_of s + k * dr <=? 7))
              (map Z.of_nat (seq 1 7))).

(** The squares of a ray up to and including the first blocker. *)
Fixpoint until_blocker (occupied : Bitboard) (l : list Square) : list Square :=
  match l with
  | [] => []
  | x :: r => if Z.testbit occupied x then [x] else x :: until_blocker occupied r
  end.

(** Along ranks and files; along diagonals: (file step, rank step). *)
Definition rook_steps : list (Z * Z) := [(0, 1); (1, 0); (0, -1); (-1, 0)].
Definition bishop_steps : list (Z * Z) := [(1, 1); (1, -1); (-1, -1); (-1, 1)].

Definition reached (steps : list (Z * Z)) (occupied : Bitboard) (s : Square)
  : list Square :=
  flat_map (fun d => until_blocker occupied (ray (fst d) (snd d) s)) steps.

(* ================================================================= *)
(** ** Basic facts *)

Lemma upd_same {A} (a : Z -> A) i v : upd a i v i = v.
Proof. unfold upd. now rewrite Z.eqb_refl. Qed.

Lemma upd_other {A} (a : Z -> A) i j v : j <> i -> upd a i v j = a j.
Proof. unfold upd. intros H. apply Z.eqb_neq in H. now rewrite H. Qed.

Lemma pt_eqb_refl pt : pt_eqb pt pt = true.
Proof. unfold pt_eqb. apply Z.eqb_refl. Qed.

Lemma pt_eqb_eq a b : pt_eqb a b = true <-> a = b.
Proof.
  unfold pt_eqb. rewrite Z.eqb_eq. split; [|now intros ->].
  destruct a, b; simpl; intros H; try reflexivity; discriminate H.
Qed.

Lemma pt_eqb_neq a b : pt_eqb a b = false <-> a <> b.
Proof.
  rewrite <- pt_eqb_eq. destruct (pt_eqb a b); split; congruence.
Qed.

(** *** Reduction of record projections

    [rsimpl] reduces projections of the field updates and nothing else,
    so that goals about [do_move] stay readable. *)
Ltac rsimpl :=
  cbn [fst snd
       pawnKey materialKey nonPawnMaterial castlingRights rule50 pliesFromNull psq
       epSquare key checkersBB capturedPiece gate capturedGate removedGatingType
       previous blockersForKing pinners checkSquares
       si_pawnKey si_materialKey si_nonPawnMaterial si_castlingRights si_rule50
       si_pliesFromNull si_psq si_epSquare si_key si_checkersBB si_capturedPiece
       si_gate si_capturedGate si_removedGatingType si_previous si_blockersForKing
       si_pinners si_checkSquares copy_state_prefix
       board gateBoard gatingPieces gatingSquares byTypeBB byColorBB gateBB pieceCount
       gateCount setupCount pieceList index castlingRightsMask castlingRookSquare
       castlingPath gamePly sideToMove st chess960
       set_board set_gateBoard set_gatingPieces set_gatingSquares set_byTypeBB
       set_byColorBB set_gateBB set_pieceCount set_gateCount set_setupCount
       set_pieceList set_index set_castlingRightsMask set_castlingRookSquare
       set_castlingPath set_gamePly set_sideToMove set_st set_chess960 upd_st
       color_of type_of from_sq to_sq move_tag move_pt] in *.

Lemma same_core_refl a : same_core a a.
Proof. unfold same_core. repeat split. Qed.

Lemma same_core_trans a b c : same_core a b -> same_core b c -> same_core a c.
Proof. unfold same_core. intuition congruence. Qed.

Lemma same_core_checkSquares v s : same_core (si_checkSquares v s) s.
Proof. destruct s. unfold same_core. simpl. repeat split. Qed.

Lemma same_core_pinners v s : same_core (si_pinners v s) s.
Proof. destruct s. unfold same_core. simpl. repeat split. Qed.

Lemma same_core_blockersForKing v s : same_core (si_blockersForKing v s) s.
Proof. destruct s. unfold same_core. simpl. repeat split. Qed.

Lemma fold_checkSquares_core (f : StateInfo -> PieceType -> PieceType -> Bitboard)
    (l : list PieceType) (si : StateInfo) :
  same_core (fold_left (fun si pt => si_checkSquares (f si pt) si) l si) si.
Proof.
  revert si. induction l as [|pt l IH]; intros si.
  - apply same_core_refl.
  - change (same_core (fold_left (fun si pt => si_checkSquares (f si pt) si) l
                         (si_checkSquares (f si pt) si)) si).
    eapply same_core_trans; [apply IH|]. apply same_core_checkSquares.
Qed.

Lemma set_check_info_core T pos si : same_core (set_check_info T pos si) si.
Proof.
  unfold set_check_info.
  destruct (slider_blockers T pos (pieces_c pos BLACK) (square_of pos KING WHITE))
    as [bw pb].
  destruct (slider_blockers T pos (pieces_c pos WHITE) (square_of pos KING BLACK))
    as [bb pw].
  eapply same_core_trans; [apply same_core_checkSquares|].
  eapply same_core_trans.
  - apply (fold_checkSquares_core
             (fun si pt => updT (checkSquares si) pt
                (attacks_from T pos (flip (sideToMove pos)) pt
                   (square_of pos KING (flip (sideToMove pos)))))).
  - eapply same_core_trans; [apply same_core_blockersForKing|].
    eapply same_core_trans; [apply same_core_pinners|].
    eapply same_core_trans; [apply same_core_blockersForKing|].
    apply same_core_pinners.
Qed.

(** [do_move] is the switch on the move type, wrapped in the hand-over
    of the state record: the board members are those the switch leaves,
    the side to move is flipped, and the new state is the one the switch
    leaves with the key and the checkers stored. *)
Lemma do_move_decompose T m newSt gc pos :
  let base := set_st (si_previous (Some (st pos)) (copy_state_prefix (st pos) newSt)) pos in
  let r := do_move_switch T m (sideToMove pos) (flip (sideToMove pos))
             (Z.lxor (key (st pos)) (Zobrist_side T)) base in
  let p := do_move T m newSt gc pos in
  same_board p (fst r)
  /\ sideToMove p = flip (sideToMove (fst r))
  /\ key (st p) = snd r
  /\ same_core (st p) (si_key (snd r) (si_checkersBB (checkersBB (st p)) (st (fst r)))).
Proof.
  intros base r p. subst p. unfold do_move.
  change (sideToMove (set_st (si_previous (Some (st pos))
            (copy_state_prefix (st pos) newSt)) pos)) with (sideToMove pos).
  fold base. fold r.
  destruct r as [p1 k]. cbn [fst snd].
  generalize (if gc
              then Z.land (attackers_to T p1 (square_of p1 KING (flip (sideToMove pos))))
                          (pieces_c p1 (sideToMove pos))
              else 0).
  intros cb. unfold upd_st.
  match goal with
  | |- context [set_check_info T ?q ?s] =>
      generalize (set_check_info_core T q s); generalize (set_check_info T q s)
  end.
  intros s' Hc. destruct p1 as [? ? ? ? ? ? ? ? ? ? ? ? ? ? ? ? ? s1 ?].
  unfold same_core, same_board in *. rsimpl.
  destruct s1, s'. rsimpl. intuition congruence.
Qed.



(* ================================================================= *)
(** ** Selection of gating types *)

(** What one selection does to the catalog, read off [do_move]. *)
Lemma do_move_select T pt newSt gc pos :
  let p := do_move T (select_gate pt) newSt gc pos in
  previous (st p) = Some (st pos)
  /\ if (gateCount pos =? NO_GATE) || negb (pt_eqb pt (gatingPieces pos (gateCount pos)))
     then gateCount p = gateCount pos + 1
          /\ gatingPieces p = upd (gatingPieces pos) (gateCount pos + 1) pt
          /\ removedGatingType (st p) = NO_PIECE_TYPE
     else gateCount p = gateCount pos - 1 + 1 + 1
          /\ gatingPieces p
             = upd (upd (upd (gatingPieces pos) (gateCount pos) NO_PIECE_TYPE)
                        (gateCount pos - 1 + 1) CANNON)
                   (gateCount pos - 1 + 1 + 1) LEOPARD
          /\ removedGatingType (st p) = pt.
Proof.
  intros p. subst p.
  pose proof (do_move_decompose T (select_gate pt) newSt gc pos) as H.
  cbv zeta in H. destruct H as (Hb & _ & _ & Hc).
  revert Hb Hc. generalize (do_move T (select_gate pt) newSt gc pos).
  intros p Hb Hc. unfold same_board in Hb. unfold same_core in Hc.
  destruct Hb as (_ & _ & Hgp & _ & _ & _ & _ & _ & Hgc & _).
  destruct Hc as (_ & _ & _ & _ & _ & _ & _ & _ & _ & _ & _ & _ & _ & Hrm & Hpr).
  rewrite Hgp, Hgc, Hrm, Hpr. clear Hgp Hgc Hrm Hpr.
  unfold do_move_switch. change (type_of_m (select_gate pt)) with SET_GATING_TYPE.
  cbv iota. unfold do_set_gating_type. rsimpl.
  unfold gating_type, select_gate. rsimpl.
  destruct ((gateCount pos =? NO_GATE)
            || negb (pt_eqb pt (gatingPieces pos (gateCount pos)))).
  - unfold set_gating_type. rsimpl. repeat split.
  - unfold set_gating_type, unset_gating_type. rsimpl. repeat split.
Qed.

(** What undoing one selection does to the catalog. *)
Lemma undo_move_select T pt pos prev :
  previous (st pos) = Some prev ->
  exists p, undo_move T (select_gate pt) pos = Some p
    /\ st p = prev
    /\ if pt_eqb (removedGatingType (st pos)) NO_PIECE_TYPE
       then gateCount p = gateCount pos - 1
            /\ gatingPieces p = upd (gatingPieces pos) (gateCount pos) NO_PIECE_TYPE
       else gateCount p = gateCount pos - 1 - 1 + 1
            /\ gatingPieces p
               = upd (upd (upd (gatingPieces pos) (gateCount pos) NO_PIECE_TYPE)
                          (gateCount pos - 1) NO_PIECE_TYPE)
                     (gateCount pos - 1 - 1 + 1) (removedGatingType (st pos)).
Proof.
  intros Hprev. unfold undo_move, undo_move_switch.
  change (type_of_m (select_gate pt)) with SET_GATING_TYPE. cbv iota.
  unfold undo_set_gating_type, unset_gating_type, set_gating_type.
  destruct pos as [? ? ? ? ? ? ? ? ? ? ? ? ? ? ? ? ? s0 ?]. rsimpl.
  destruct (pt_eqb (removedGatingType s0) NO_PIECE_TYPE); simpl negb; cbv iota;
    rsimpl; rewrite Hprev; eexists; (split; [reflexivity|]); rsimpl; repeat split.
Qed.

(** C4 (as stated) fails: after two selections of the hawk from the empty
    catalog, the catalog is the cannon and the leopard; the hawk is not
    in it. *)
Lemma double_selection_drops_selected_type :
  ~ catalog_keeps_selection sample_tables (cleared_position zero_state) HAWK.
Proof.
  unfold catalog_keeps_selection. intros [H _].
  assert (E : catalog (do_move sample_tables (select_gate HAWK) zero_state false
                         (do_move sample_tables (select_gate HAWK) zero_state false
                            (cleared_position zero_state)))
              = [CANNON; LEOPARD]) by (vm_compute; reflexivity).
  rewrite E in H. destruct H as [H|[H|[]]]; discriminate H.
Qed.

(** C4 (amended): from an empty catalog, two selections of the same type
    [pt] leave exactly the fallback pair (cannon, leopard) in the
    catalog, the selected type being taken out and recorded in
    [removedGatingType]; undoing the second selection puts [pt] back as
    the only entry, and undoing the first leaves the catalog empty:
    [gateCount] is back at [NO_GATE] and every entry of [gatingPieces]
    is [NO_PIECE_TYPE].  The count is 1, 2, 1 and 0 along the way. *)
Theorem double_selection_gives_fallback_pair
    (T : Tables) (pos : Position) (pt : PieceType) (s1 s2 : StateInfo) (gc1 gc2 : bool) :
  gateCount pos = NO_GATE ->
  (forall g, gatingPieces pos g = NO_PIECE_TYPE) ->
  pt <> NO_PIECE_TYPE ->
  let m := select_gate pt in
  let p1 := do_move T m s1 gc1 pos in
  let p2 := do_move T m s2 gc2 p1 in
  catalog p1 = [pt] /\ gateCount p1 = 1
  /\ catalog p2 = [CANNON; LEOPARD] /\ gateCount p2 = 2
  /\ removedGatingType (st p2) = pt
  /\ exists p3 p4,
       undo_move T m p2 = Some p3 /\ undo_move T m p3 = Some p4
       /\ catalog p3 = [pt] /\ gateCount p3 = 1
       /\ catalog p4 = [] /\ gateCount p4 = NO_GATE
       /\ (forall g, gatingPieces p4 g = NO_PIECE_TYPE)
       /\ st p4 = st pos.
Proof.
  intros Hgc Hgp Hpt m p1 p2.
  destruct (do_move_select T pt s1 gc1 pos) as (Hprev1 & H1). fold m p1 in Hprev1, H1.
  rewrite Hgc in H1. simpl in H1. destruct H1 as (Hc1 & Hp1 & Hr1).
  destruct (do_move_select T pt s2 gc2 p1) as (Hprev2 & H2). fold m p2 in Hprev2, H2.
  rewrite Hc1, Hp1 in H2. rewrite upd_same, pt_eqb_refl in H2. simpl in H2.
  destruct H2 as (Hc2 & Hp2 & Hr2).
  destruct (undo_move_select T pt p2 (st p1) Hprev2) as (p3 & Hu3 & Hst3 & H3).
  rewrite Hr2 in H3.
  destruct (pt_eqb pt NO_PIECE_TYPE) eqn:E; [apply pt_eqb_eq in E; contradiction|].
  rewrite Hc2, Hp2 in H3. simpl in H3. destruct H3 as (Hc3 & Hp3).
  assert (Hprev3 : previous (st p3) = Some (st pos)) by (rewrite Hst3; exact Hprev1).
  destruct (undo_move_select T pt p3 (st pos) Hprev3) as (p4 & Hu4 & Hst4 & H4).
  rewrite Hst3, Hr1 in H4. simpl in H4. rewrite Hc3, Hp3 in H4. simpl in H4.
  destruct H4 as (Hc4 & Hp4).
  split; [unfold catalog; rewrite Hc1, Hp1; reflexivity|].
  split; [exact Hc1|].
  split; [unfold catalog; rewrite Hc2, Hp2; reflexivity|].
  split; [exact Hc2|].
  split; [exact Hr2|].
  exists p3, p4.
  split; [exact Hu3|]. split; [exact Hu4|].
  split; [unfold catalog; rewrite Hc3, Hp3; reflexivity|].
  split; [exact Hc3|].
  split; [unfold catalog; rewrite Hc4; reflexivity|].
  split; [exact Hc4|].
  split; [|exact Hst4].
  intros g. rewrite Hp4. unfold upd.
  repeat match goal with |- context [if ?c then _ else _] => destruct c end;
    try reflexivity; apply Hgp.
Qed.

Lemma double_selection_gives_fallback_pair_witness :
  let pos := cleared_position zero_state in
  let m := select_gate HAWK in
  let p2 := do_move sample_tables m zero_state false
              (do_move sample_tables m zero_state false pos) in
  catalog p2 = [CANNON; LEOPARD] /\ removedGatingType (st p2) = HAWK.
Proof.
  intros pos m p2.
  destruct (double_selection_gives_fallback_pair sample_tables pos HAWK
              zero_state zero_state false false) as (_ & _ & H2 & _ & H3 & _).
  - reflexivity.
  - intros g. reflexivity.
  - discriminate.
  - split; [exact H2 | exact H3].
Defined.

(* ================================================================= *)
(** ** Bits and squares *)

Lemma testbit_SquareBB s n : 0 <= s -> Z.testbit (SquareBB s) n = (n =? s).
Proof.
  intros Hs. unfold SquareBB. rewrite Z.shiftl_1_l, Z.pow2_bits_eqb by assumption.
  apply Z.eqb_sym.
Qed.

Lemma land_SquareBB_zero b s :
  0 <= s -> (Z.land b (SquareBB s) =? 0) = negb (Z.testbit b s).
Proof.
  intros Hs. destruct (Z.testbit b s) eqn:E; simpl.
  - apply Z.eqb_neq. intros H.
    assert (Ht : Z.testbit (Z.land b (SquareBB s)) s = true).
    { rewrite Z.land_spec, E, testbit_SquareBB by assumption. now rewrite Z.eqb_refl. }
    rewrite H, Z.bits_0 in Ht. discriminate.
  - apply Z.eqb_eq. apply Z.bits_inj'. intros n Hn.
    rewrite Z.land_spec, Z.bits_0, testbit_SquareBB by assumption.
    destruct (Z.eqb_spec n s) as [->|]; [now rewrite E | apply andb_false_r].
Qed.

Lemma bb_has_spec b s : 0 <= s -> bb_has b s = Z.testbit b s.
Proof.
  intros Hs. unfold bb_has. rewrite land_SquareBB_zero by assumption.
  apply negb_involutive.
Qed.

Lemma in_all_squares s : In s all_squares <-> 0 <= s < 64.
Proof.
  unfold all_squares. rewrite in_map_iff. split.
  - intros (n & <- & Hn). apply in_seq in Hn. lia.
  - intros H. exists (Z.to_nat s). split; [lia|]. apply in_seq. lia.
Qed.

Lemma squares_of_spec b s : In s (squares_of b) <-> 0 <= s < 64 /\ Z.testbit b s = true.
Proof. unfold squares_of. rewrite filter_In, in_all_squares. reflexivity. Qed.

Lemma NoDup_all_squares : NoDup all_squares.
Proof.
  unfold all_squares. apply Finite.Injective_map_NoDup.
  - intros a b H. lia.
  - apply seq_NoDup.
Qed.

Lemma NoDup_squares_of b : NoDup (squares_of b).
Proof. unfold squares_of. apply NoDup_filter, NoDup_all_squares. Qed.

Lemma land_nonzero_iff a b :
  Z.land a b <> 0 <-> exists n, Z.testbit a n = true /\ Z.testbit b n = true.
Proof.
  split.
  - intros H. destruct (Z.eq_dec (Z.land a b) 0) as [E|E]; [contradiction|].
    assert (Hex : exists n, Z.testbit (Z.land a b) n = true).
    { destruct (Z.land a b) as [|p|p] eqn:El; [contradiction| |].
      - exists (Z.log2 (Z.pos p)). apply Z.bit_log2. lia.
      - exists (Z.succ (Z.log2 (Z.pred (- Z.neg p)))).
        apply Z.bits_above_log2_neg; [lia | apply Z.lt_succ_diag_r]. }
    destruct Hex as (n & Hn). rewrite Z.land_spec in Hn.
    apply andb_true_iff in Hn. now exists n.
  - intros (n & Ha & Hb) H.
    assert (Ht : Z.testbit (Z.land a b) n = true) by (now rewrite Z.land_spec, Ha, Hb).
    rewrite H, Z.bits_0 in Ht. discriminate.
Qed.

Lemma testbit_bound b n :
  0 <= b < 2 ^ 64 -> Z.testbit b n = true -> 0 <= n < 64.
Proof.
  intros Hb Hn. split.
  - destruct (Z.ltb_spec n 0); [|assumption].
    rewrite Z.testbit_neg_r in Hn by assumption. discriminate.
  - destruct (Z.ltb_spec n 64); [assumption|].
    rewrite Z.bits_above_log2 in Hn; [discriminate|lia|].
    destruct (Z.eq_dec b 0) as [->|]; [change (Z.log2 0) with 0; lia|].
    apply Z.log2_lt_pow2; [lia|].
    assert (2 ^ 64 <= 2 ^ n) by (apply Z.pow_le_mono_r; lia). lia.
Qed.

Lemma color_eqb_eq a b : color_eqb a b = true <-> a = b.
Proof. destruct a, b; simpl; split; congruence. Qed.

Lemma color_eqb_refl a : color_eqb a a = true.
Proof. now destruct a. Qed.

Lemma flip_flip c : flip (flip c) = c.
Proof. now destruct c. Qed.

Lemma flip_neq c : color_eqb (flip c) c = false.
Proof. now destruct c. Qed.

Lemma piece_eqb_eq a b : piece_eqb a b = true <-> a = b.
Proof.
  unfold piece_eqb. rewrite andb_true_iff, color_eqb_eq, pt_eqb_eq.
  destruct a, b; simpl. split; [intros [-> ->]; reflexivity | intros H; now inversion H].
Qed.

Lemma piece_eqb_refl a : piece_eqb a a = true.
Proof. now apply piece_eqb_eq. Qed.

Lemma piece_eqb_neq a b : piece_eqb a b = false <-> a <> b.
Proof. rewrite <- piece_eqb_eq. destruct (piece_eqb a b); split; congruence. Qed.

(** *** Symbolic execution

    [run] computes with the helpers of [position.h] and the blocks of
    [do_move] / [undo_move] by need, leaving the tables, the bit
    operations and the array updates folded. *)
Ltac run :=
  lazy beta iota zeta delta
    [fst snd
       pawnKey materialKey nonPawnMaterial castlingRights rule50 pliesFromNull psq
       epSquare key checkersBB capturedPiece gate capturedGate removedGatingType
       previous blockersForKing pinners checkSquares
       si_pawnKey si_materialKey si_nonPawnMaterial si_castlingRights si_rule50
       si_pliesFromNull si_psq si_epSquare si_key si_checkersBB si_capturedPiece
       si_gate si_capturedGate si_removedGatingType si_previous si_blockersForKing
       si_pinners si_checkSquares copy_state_prefix
       board gateBoard gatingPieces gatingSquares byTypeBB byColorBB gateBB pieceCount
       gateCount setupCount pieceList index castlingRightsMask castlingRookSquare
       castlingPath gamePly sideToMove st chess960
       set_board set_gateBoard set_gatingPieces set_gatingSquares set_byTypeBB
       set_byColorBB set_gateBB set_pieceCount set_gateCount set_setupCount
       set_pieceList set_index set_castlingRightsMask set_castlingRookSquare
       set_castlingPath set_gamePly set_sideToMove set_st set_chess960 upd_st
       from_sq to_sq move_tag move_pt type_of_m promotion_type gating_type
       put_piece remove_piece move_piece gate_piece ungate_piece add_gate remove_gate
       capture_gate uncapture_gate put_gating_piece remove_gating_piece
       set_gating_type unset_gating_type
       do_capture 
       do_pawn_extra do_board_move do_move_switch do_set_gating_type
       do_put_gating_piece
       undo_board_move
       undo_set_gating_type undo_move_switch
       piece_on pieces gating_piece_sq gating_piece attacks_from pieces_c_pt].

Lemma bb_has_lxor_other b s t :
  0 <= s -> 0 <= t -> s <> t -> bb_has (Z.lxor b (SquareBB t)) s = bb_has b s.
Proof.
  intros Hs Ht Hne. rewrite !bb_has_spec by assumption.
  rewrite Z.lxor_spec, testbit_SquareBB by assumption.
  destruct (Z.eqb_spec s t); [contradiction|]. apply xorb_false_r.
Qed.

(** Naming the members of a position and of its state record. *)
Ltac destruct_pos pos :=
  let s0 := fresh "s0" in
  destruct pos as [bd gbd gps gsq tbb cbb gbb pcn gcn scn pls idx crm crs cpath ply stm
                   s0 c960];
  destruct s0 as [pk mk npm cr r50 pfn ps ep ky chk capP gt capG rmG prev bfk pin csq].

Lemma updC_same {A} (a : Color -> A) c v : updC a c v c = v.
Proof. unfold updC. now rewrite color_eqb_refl. Qed.

Lemma updC_other {A} (a : Color -> A) c d v : d <> c -> updC a c v d = a d.
Proof.
  unfold updC. intros H. destruct (color_eqb d c) eqn:E; [|reflexivity].
  apply color_eqb_eq in E. contradiction.
Qed.

Lemma updT_same {A} (a : PieceType -> A) t v : updT a t v t = v.
Proof. unfold updT. now rewrite pt_eqb_refl. Qed.

Lemma updT_other {A} (a : PieceType -> A) t u v : u <> t -> updT a t v u = a u.
Proof. unfold updT. intros H. apply pt_eqb_neq in H. now rewrite H. Qed.

Lemma updP_same {A} (a : Piece -> A) p v : updP a p v p = v.
Proof. unfold updP. now rewrite piece_eqb_refl. Qed.

Lemma updP_other {A} (a : Piece -> A) p q v : q <> p -> updP a p v q = a q.
Proof. unfold updP. intros H. apply piece_eqb_neq in H. now rewrite H. Qed.

Lemma flip_ne c : flip c <> c.
Proof. destruct c; discriminate. Qed.

Lemma ne_flip c : c <> flip c.
Proof. destruct c; discriminate. Qed.

(** Array look-ups at known indices. *)
Ltac arr :=
  repeat first
    [ rewrite upd_same
    | rewrite upd_other by (assumption || lia)
    | rewrite updC_same
    | rewrite updC_other by (assumption || apply flip_ne || apply ne_flip)
    | rewrite updT_same
    | rewrite updT_other by (assumption || congruence)
    | rewrite updP_same
    | rewrite updP_other by (assumption || congruence) ].

Lemma bb_has_lxor_same b s : 0 <= s -> bb_has (Z.lxor b (SquareBB s)) s = negb (bb_has b s).
Proof.
  intros Hs. rewrite !bb_has_spec by assumption.
  rewrite Z.lxor_spec, testbit_SquareBB, Z.eqb_refl by assumption.
  apply xorb_true_r.
Qed.

Lemma bb_has_lor_same b s : 0 <= s -> bb_has (Z.lor b (SquareBB s)) s = true.
Proof.
  intros Hs. rewrite !bb_has_spec by assumption.
  rewrite Z.lor_spec, testbit_SquareBB, Z.eqb_refl by assumption.
  apply orb_true_r.
Qed.

Lemma bb_has_lor_other b s t :
  0 <= s -> 0 <= t -> s <> t -> bb_has (Z.lor b (SquareBB t)) s = bb_has b s.
Proof.
  intros Hs Ht Hne. rewrite !bb_has_spec by assumption.
  rewrite Z.lor_spec, testbit_SquareBB by assumption.
  destruct (Z.eqb_spec s t); [contradiction|]. apply orb_false_r.
Qed.

Lemma in_all_piece_types pt : pt <> NO_PIECE_TYPE -> In pt all_piece_types.
Proof. destruct pt; intros H; try contradiction; simpl; tauto. Qed.

Lemma bitboards_consistent_spec pos :
  bitboards_consistent pos = true ->
  (forall s, 0 <= s < 64 ->
     Z.testbit (byTypeBB pos ALL_PIECES) s = negb (piece_eqb (board pos s) NO_PIECE))
  /\ (forall pt s, 0 <= s < 64 -> pt <> NO_PIECE_TYPE ->
        Z.testbit (byTypeBB pos pt) s
        = negb (piece_eqb (board pos s) NO_PIECE) && pt_eqb (type_of (board pos s)) pt)
  /\ (forall c s, 0 <= s < 64 ->
        Z.testbit (byColorBB pos c) s
        = negb (piece_eqb (board pos s) NO_PIECE) && color_eqb (color_of (board pos s)) c)
  /\ (forall s, 0 <= s < 64 -> board pos s <> NO_PIECE ->
        type_of (board pos s) <> NO_PIECE_TYPE).
Proof.
  unfold bitboards_consistent. rewrite forallb_forall. intros H.
  assert (H' : forall s, 0 <= s < 64 ->
            Z.testbit (byTypeBB pos ALL_PIECES) s = negb (piece_eqb (board pos s) NO_PIECE)
            /\ (forall pt, In pt all_piece_types ->
                  Z.testbit (byTypeBB pos pt) s
                  = negb (piece_eqb (board pos s) NO_PIECE)
                    && pt_eqb (type_of (board pos s)) pt)
            /\ (forall c, Z.testbit (byColorBB pos c) s
                  = negb (piece_eqb (board pos s) NO_PIECE)
                    && color_eqb (color_of (board pos s)) c)
            /\ implb (negb (piece_eqb (board pos s) NO_PIECE))
                     (negb (pt_eqb (type_of (board pos s)) NO_PIECE_TYPE)) = true).
  { intros s Hs. apply in_all_squares in Hs. specialize (H s Hs). cbv zeta in H.
    rewrite !andb_true_iff in H. destruct H as (((H1 & H2) & H3) & H4).
    rewrite forallb_forall in H2, H3. repeat split.
    - now apply eqb_prop.
    - intros pt Hpt. apply eqb_prop. now apply H2.
    - intros c. apply eqb_prop. apply H3. destruct c; simpl; tauto.
    - exact H4. }
  repeat split.
  - intros s Hs. apply H'. assumption.
  - intros pt s Hs Hpt. apply H'; [assumption | now apply in_all_piece_types].
  - intros c s Hs. apply H'. assumption.
  - intros s Hs Hne Hty. destruct (H' s Hs) as (_ & _ & _ & H4).
    apply piece_eqb_neq in Hne. rewrite Hne in H4. simpl in H4.
    apply negb_true_iff, pt_eqb_neq in H4. contradiction.
Qed.

(* ================================================================= *)
(** ** The members after each helper of [position.h]

    One equation per helper and member; the members a helper does not
    write are unchanged. *)

Lemma put_piece_board pc s pos :
  board (put_piece pc s pos) = upd (board pos) s pc.
Proof. destruct pos; reflexivity. Qed.

Lemma put_piece_gateBoard pc s pos :
  gateBoard (put_piece pc s pos) = gateBoard pos.
Proof. destruct pos; reflexivity. Qed.

Lemma put_piece_gatingPieces pc s pos :
  gatingPieces (put_piece pc s pos) = gatingPieces pos.
Proof. destruct pos; reflexivity. Qed.

Lemma put_piece_gatingSquares pc s pos :
  gatingSquares (put_piece pc s pos) = gatingSquares pos.
Proof. destruct pos; reflexivity. Qed.

Lemma put_piece_byTypeBB pc s pos :
  byTypeBB (put_piece pc s pos) = updT (updT (byTypeBB pos) ALL_PIECES (Z.lor (byTypeBB pos ALL_PIECES) (SquareBB s))) (type_of pc) (Z.lor (updT (byTypeBB pos) ALL_PIECES (Z.lor (byTypeBB pos ALL_PIECES) (SquareBB s)) (type_of pc)) (SquareBB s)).
Proof. destruct pos; reflexivity. Qed.

Lemma put_piece_byColorBB pc s pos :
  byColorBB (put_piece pc s pos) = updC (byColorBB pos) (color_of pc) (Z.lor (byColorBB pos (color_of pc)) (SquareBB s)).
Proof. destruct pos; reflexivity. Qed.

Lemma put_piece_gateBB pc s pos :
  gateBB (put_piece pc s pos) = gateBB pos.
Proof. destruct pos; reflexivity. Qed.

Lemma put_piece_pieceCount pc s pos :
  pieceCount (put_piece pc s pos) = updP (updP (pieceCount pos) pc (pieceCount pos pc + 1)) (make_piece (color_of pc) ALL_PIECES) (updP (pieceCount pos) pc (pieceCount pos pc + 1) (make_piece (color_of pc) ALL_PIECES) + 1).
Proof. destruct pos; reflexivity. Qed.

Lemma put_piece_gateCount pc s pos :
  gateCount (put_piece pc s pos) = gateCount pos.
Proof. destruct pos; reflexivity. Qed.

Lemma put_piece_setupCount pc s pos :
  setupCount (put_piece pc s pos) = setupCount pos.
Proof. destruct pos; reflexivity. Qed.

Lemma put_piece_castlingRightsMask pc s pos :
  castlingRightsMask (put_piece pc s pos) = castlingRightsMask pos.
Proof. destruct pos; reflexivity. Qed.

Lemma put_piece_castlingRookSquare pc s pos :
  castlingRookSquare (put_piece pc s pos) = castlingRookSquare pos.
Proof. destruct pos; reflexivity. Qed.

Lemma put_piece_castlingPath pc s pos :
  castlingPath (put_piece pc s pos) = castlingPath pos.
Proof. destruct pos; reflexivity. Qed.

Lemma put_piece_gamePly pc s pos :
  gamePly (put_piece pc s pos) = gamePly pos.
Proof. destruct pos; reflexivity. Qed.

Lemma put_piece_sideToMove pc s pos :
  sideToMove (put_piece pc s pos) = sideToMove pos.
Proof. destruct pos; reflexivity. Qed.

Lemma put_piece_st pc s pos :
  st (put_piece pc s pos) = st pos.
Proof. destruct pos; reflexivity. Qed.

Lemma put_piece_chess960 pc s pos :
  chess960 (put_piece pc s pos) = chess960 pos.
Proof. destruct pos; reflexivity. Qed.

Lemma remove_piece_board pc s pos :
  board (remove_piece pc s pos) = board pos.
Proof. destruct pos; reflexivity. Qed.

Lemma remove_piece_gateBoard pc s pos :
  gateBoard (remove_piece pc s pos) = gateBoard pos.
Proof. destruct pos; reflexivity. Qed.

Lemma remove_piece_gatingPieces pc s pos :
  gatingPieces (remove_piece pc s pos) = gatingPieces pos.
Proof. destruct pos; reflexivity. Qed.

Lemma remove_piece_gatingSquares pc s pos :
  gatingSquares (remove_piece pc s pos) = gatingSquares pos.
Proof. destruct pos; reflexivity. Qed.

Lemma remove_piece_byTypeBB pc s pos :
  byTypeBB (remove_piece pc s pos) = updT (updT (byTypeBB pos) ALL_PIECES (Z.lxor (byTypeBB pos ALL_PIECES) (SquareBB s))) (type_of pc) (Z.lxor (updT (byTypeBB pos) ALL_PIECES (Z.lxor (byTypeBB pos ALL_PIECES) (SquareBB s)) (type_of pc)) (SquareBB s)).
Proof. destruct pos; reflexivity. Qed.

Lemma remove_piece_byColorBB pc s pos :
  byColorBB (remove_piece pc s pos) = updC (byColorBB pos) (color_of pc) (Z.lxor (byColorBB pos (color_of pc)) (SquareBB s)).
Proof. destruct pos; reflexivity. Qed.

Lemma remove_piece_gateBB pc s pos :
  gateBB (remove_piece pc s pos) = gateBB pos.
Proof. destruct pos; reflexivity. Qed.

Lemma remove_piece_pieceCount pc s pos :
  pieceCount (remove_piece pc s pos) = updP (updP (pieceCount pos) pc (pieceCount pos pc - 1)) (make_piece (color_of pc) ALL_PIECES) (updP (pieceCount pos) pc (pieceCount pos pc - 1) (make_piece (color_of pc) ALL_PIECES) - 1).
Proof. destruct pos; reflexivity. Qed.

Lemma remove_piece_gateCount pc s pos :
  gateCount (remove_piece pc s pos) = gateCount pos.
Proof. destruct pos; reflexivity. Qed.

Lemma remove_piece_setupCount pc s pos :
  setupCount (remove_piece pc s pos) = setupCount pos.
Proof. destruct pos; reflexivity. Qed.

Lemma remove_piece_castlingRightsMask pc s pos :
  castlingRightsMask (remove_piece pc s pos) = castlingRightsMask pos.
Proof. destruct pos; reflexivity. Qed.

Lemma remove_piece_castlingRookSquare pc s pos :
  castlingRookSquare (remove_piece pc s pos) = castlingRookSquare pos.
Proof. destruct pos; reflexivity. Qed.

Lemma remove_piece_castlingPath pc s pos :
  castlingPath (remove_piece pc s pos) = castlingPath pos.
Proof. destruct pos; reflexivity. Qed.

Lemma remove_piece_gamePly pc s pos :
  gamePly (remove_piece pc s pos) = gamePly pos.
Proof. destruct pos; reflexivity. Qed.

Lemma remove_piece_sideToMove pc s pos :
  sideToMove (remove_piece pc s pos) = sideToMove pos.
Proof. destruct pos; reflexivity. Qed.

Lemma remove_piece_st pc s pos :
  st (remove_piece pc s pos) = st pos.
Proof. destruct pos; reflexivity. Qed.

Lemma remove_piece_chess960 pc s pos :
  chess960 (remove_piece pc s pos) = chess960 pos.
Proof. destruct pos; reflexivity. Qed.

Lemma move_piece_board pc from to pos :
  board (move_piece pc from to pos) = upd (upd (board pos) from NO_PIECE) to pc.
Proof. destruct pos; reflexivity. Qed.

Lemma move_piece_gateBoard pc from to pos :
  gateBoard (move_piece pc from to pos) = gateBoard pos.
Proof. destruct pos; reflexivity. Qed.

Lemma move_piece_gatingPieces pc from to pos :
  gatingPieces (move_piece pc from to pos) = gatingPieces pos.
Proof. destruct pos; reflexivity. Qed.

Lemma move_piece_gatingSquares pc from to pos :
  gatingSquares (move_piece pc from to pos) = gatingSquares pos.
Proof. destruct pos; reflexivity. Qed.

Lemma move_piece_byTypeBB pc from to pos :
  byTypeBB (move_piece pc from to pos) = updT (updT (byTypeBB pos) ALL_PIECES (Z.lxor (byTypeBB pos ALL_PIECES) (Z.lxor (SquareBB from) (SquareBB to)))) (type_of pc) (Z.lxor (updT (byTypeBB pos) ALL_PIECES (Z.lxor (byTypeBB pos ALL_PIECES) (Z.lxor (SquareBB from) (SquareBB to))) (type_of pc)) (Z.lxor (SquareBB from) (SquareBB to))).
Proof. destruct pos; reflexivity. Qed.

Lemma move_piece_byColorBB pc from to pos :
  byColorBB (move_piece pc from to pos) = updC (byColorBB pos) (color_of pc) (Z.lxor (byColorBB pos (color_of pc)) (Z.lxor (SquareBB from) (SquareBB to))).
Proof. destruct pos; reflexivity. Qed.

Lemma move_piece_gateBB pc from to pos :
  gateBB (move_piece pc from to pos) = gateBB pos.
Proof. destruct pos; reflexivity. Qed.

Lemma move_piece_pieceCount pc from to pos :
  pieceCount (move_piece pc from to pos) = pieceCount pos.
Proof. destruct pos; reflexivity. Qed.

Lemma move_piece_gateCount pc from to pos :
  gateCount (move_piece pc from to pos) = gateCount pos.
Proof. destruct pos; reflexivity. Qed.

Lemma move_piece_setupCount pc from to pos :
  setupCount (move_piece pc from to pos) = setupCount pos.
Proof. destruct pos; reflexivity. Qed.

Lemma move_piece_castlingRightsMask pc from to pos :
  castlingRightsMask (move_piece pc from to pos) = castlingRightsMask pos.
Proof. destruct pos; reflexivity. Qed.

Lemma move_piece_castlingRookSquare pc from to pos :
  castlingRookSquare (move_piece pc from to pos) = castlingRookSquare pos.
Proof. destruct pos; reflexivity. Qed.

Lemma move_piece_castlingPath pc from to pos :
  castlingPath (move_piece pc from to pos) = castlingPath pos.
Proof. destruct pos; reflexivity. Qed.

Lemma move_piece_gamePly pc from to pos :
  gamePly (move_piece pc from to pos) = gamePly pos.
Proof. destruct pos; reflexivity. Qed.

Lemma move_piece_sideToMove pc from to pos :
  sideToMove (move_piece pc from to pos) = sideToMove pos.
Proof. destruct pos; reflexivity. Qed.

Lemma move_piece_st pc from to pos :
  st (move_piece pc from to pos) = st pos.
Proof. destruct pos; reflexivity. Qed.

Lemma move_piece_chess960 pc from to pos :
  chess960 (move_piece pc from to pos) = chess960 pos.
Proof. destruct pos; reflexivity. Qed.

Lemma add_gate_board c s g pos :
  board (add_gate c s g pos) = board pos.
Proof. destruct pos; reflexivity. Qed.

Lemma add_gate_gateBoard c s g pos :
  gateBoard (add_gate c s g pos) = upd (gateBoard pos) s g.
Proof. destruct pos; reflexivity. Qed.

Lemma add_gate_gatingPieces c s g pos :
  gatingPieces (add_gate c s g pos) = gatingPieces pos.
Proof. destruct pos; reflexivity. Qed.

Lemma add_gate_gatingSquares c s g pos :
  gatingSquares (add_gate c s g pos) = updC (gatingSquares pos) c (upd (gatingSquares pos c) g s).
Proof. destruct pos; reflexivity. Qed.

Lemma add_gate_byTypeBB c s g pos :
  byTypeBB (add_gate c s g pos) = byTypeBB pos.
Proof. destruct pos; reflexivity. Qed.

Lemma add_gate_byColorBB c s g pos :
  byColorBB (add_gate c s g pos) = byColorBB pos.
Proof. destruct pos; reflexivity. Qed.

Lemma add_gate_gateBB c s g pos :
  gateBB (add_gate c s g pos) = Z.lor (gateBB pos) (SquareBB s).
Proof. destruct pos; reflexivity. Qed.

Lemma add_gate_pieceCount c s g pos :
  pieceCount (add_gate c s g pos) = pieceCount pos.
Proof. destruct pos; reflexivity. Qed.

Lemma add_gate_gateCount c s g pos :
  gateCount (add_gate c s g pos) = gateCount pos.
Proof. destruct pos; reflexivity. Qed.

Lemma add_gate_setupCount c s g pos :
  setupCount (add_gate c s g pos) = setupCount pos.
Proof. destruct pos; reflexivity. Qed.

Lemma add_gate_castlingRightsMask c s g pos :
  castlingRightsMask (add_gate c s g pos) = castlingRightsMask pos.
Proof. destruct pos; reflexivity. Qed.

Lemma add_gate_castlingRookSquare c s g pos :
  castlingRookSquare (add_gate c s g pos) = castlingRookSquare pos.
Proof. destruct pos; reflexivity. Qed.

Lemma add_gate_castlingPath c s g pos :
  castlingPath (add_gate c s g pos) = castlingPath pos.
Proof. destruct pos; reflexivity. Qed.

Lemma add_gate_gamePly c s g pos :
  gamePly (add_gate c s g pos) = gamePly pos.
Proof. destruct pos; reflexivity. Qed.

Lemma add_gate_sideToMove c s g pos :
  sideToMove (add_gate c s g pos) = sideToMove pos.
Proof. destruct pos; reflexivity. Qed.

Lemma add_gate_st c s g pos :
  st (add_gate c s g pos) = st pos.
Proof. destruct pos; reflexivity. Qed.

Lemma add_gate_chess960 c s g pos :
  chess960 (add_gate c s g pos) = chess960 pos.
Proof. destruct pos; reflexivity. Qed.

Lemma add_gate_pieceList c s g pos :
  pieceList (add_gate c s g pos) = pieceList pos.
Proof. destruct pos; reflexivity. Qed.

Lemma add_gate_index c s g pos :
  index (add_gate c s g pos) = index pos.
Proof. destruct pos; reflexivity. Qed.

Lemma remove_gate_board c s g pos :
  board (remove_gate c s g pos) = board pos.
Proof. destruct pos; reflexivity. Qed.

Lemma remove_gate_gateBoard c s g pos :
  gateBoard (remove_gate c s g pos) = upd (gateBoard pos) s NO_GATE.
Proof. destruct pos; reflexivity. Qed.

Lemma remove_gate_gatingPieces c s g pos :
  gatingPieces (remove_gate c s g pos) = gatingPieces pos.
Proof. destruct pos; reflexivity. Qed.

Lemma remove_gate_gatingSquares c s g pos :
  gatingSquares (remove_gate c s g pos) = updC (gatingSquares pos) c (upd (gatingSquares pos c) g SQ_NONE).
Proof. destruct pos; reflexivity. Qed.

Lemma remove_gate_byTypeBB c s g pos :
  byTypeBB (remove_gate c s g pos) = byTypeBB pos.
Proof. destruct pos; reflexivity. Qed.

Lemma remove_gate_byColorBB c s g pos :
  byColorBB (remove_gate c s g pos) = byColorBB pos.
Proof. destruct pos; reflexivity. Qed.

Lemma remove_gate_gateBB c s g pos :
  gateBB (remove_gate c s g pos) = Z.lxor (gateBB pos) (SquareBB s).
Proof. destruct pos; reflexivity. Qed.

Lemma remove_gate_pieceCount c s g pos :
  pieceCount (remove_gate c s g pos) = pieceCount pos.
Proof. destruct pos; reflexivity. Qed.

Lemma remove_gate_gateCount c s g pos :
  gateCount (remove_gate c s g pos) = gateCount pos.
Proof. destruct pos; reflexivity. Qed.

Lemma remove_gate_setupCount c s g pos :
  setupCount (remove_gate c s g pos) = setupCount pos.
Proof. destruct pos; reflexivity. Qed.

Lemma remove_gate_castlingRightsMask c s g pos :
  castlingRightsMask (remove_gate c s g pos) = castlingRightsMask pos.
Proof. destruct pos; reflexivity. Qed.

Lemma remove_gate_castlingRookSquare c s g pos :
  castlingRookSquare (remove_gate c s g pos) = castlingRookSquare pos.
Proof. destruct pos; reflexivity. Qed.

Lemma remove_gate_castlingPath c s g pos :
  castlingPath (remove_gate c s g pos) = castlingPath pos.
Proof. destruct pos; reflexivity. Qed.

Lemma remove_gate_gamePly c s g pos :
  gamePly (remove_gate c s g pos) = gamePly pos.
Proof. destruct pos; reflexivity. Qed.

Lemma remove_gate_sideToMove c s g pos :
  sideToMove (remove_gate c s g pos) = sideToMove pos.
Proof. destruct pos; reflexivity. Qed.

Lemma remove_gate_st c s g pos :
  st (remove_gate c s g pos) = st pos.
Proof. destruct pos; reflexivity. Qed.

Lemma remove_gate_chess960 c s g pos :
  chess960 (remove_gate c s g pos) = chess960 pos.
Proof. destruct pos; reflexivity. Qed.

Lemma remove_gate_pieceList c s g pos :
  pieceList (remove_gate c s g pos) = pieceList pos.
Proof. destruct pos; reflexivity. Qed.

Lemma remove_gate_index c s g pos :
  index (remove_gate c s g pos) = index pos.
Proof. destruct pos; reflexivity. Qed.

Lemma gate_piece_board c s pos :
  board (gate_piece c s pos) = upd (board pos) s (make_piece c (gatingPieces pos (gateBoard pos s))).
Proof. destruct pos; reflexivity. Qed.

Lemma gate_piece_gateBoard c s pos :
  gateBoard (gate_piece c s pos) = upd (gateBoard pos) s NO_GATE.
Proof. destruct pos; reflexivity. Qed.

Lemma gate_piece_gatingPieces c s pos :
  gatingPieces (gate_piece c s pos) = gatingPieces pos.
Proof. destruct pos; reflexivity. Qed.

Lemma gate_piece_gatingSquares c s pos :
  gatingSquares (gate_piece c s pos) = updC (gatingSquares pos) c (upd (gatingSquares pos c) (gateBoard pos s) SQ_NONE).
Proof. destruct pos; reflexivity. Qed.

Lemma gate_piece_byTypeBB c s pos :
  byTypeBB (gate_piece c s pos) = byTypeBB (put_piece (make_piece c (gatingPieces pos (gateBoard pos s))) s pos).
Proof. destruct pos; reflexivity. Qed.

Lemma gate_piece_byColorBB c s pos :
  byColorBB (gate_piece c s pos) = byColorBB (put_piece (make_piece c (gatingPieces pos (gateBoard pos s))) s pos).
Proof. destruct pos; reflexivity. Qed.

Lemma gate_piece_gateBB c s pos :
  gateBB (gate_piece c s pos) = Z.lxor (gateBB pos) (SquareBB s).
Proof. destruct pos; reflexivity. Qed.

Lemma gate_piece_pieceCount c s pos :
  pieceCount (gate_piece c s pos) = pieceCount (put_piece (make_piece c (gatingPieces pos (gateBoard pos s))) s pos).
Proof. destruct pos; reflexivity. Qed.

Lemma gate_piece_gateCount c s pos :
  gateCount (gate_piece c s pos) = gateCount pos.
Proof. destruct pos; reflexivity. Qed.

Lemma gate_piece_setupCount c s pos :
  setupCount (gate_piece c s pos) = setupCount pos.
Proof. destruct pos; reflexivity. Qed.

Lemma gate_piece_castlingRightsMask c s pos :
  castlingRightsMask (gate_piece c s pos) = castlingRightsMask pos.
Proof. destruct pos; reflexivity. Qed.

Lemma gate_piece_castlingRookSquare c s pos :
  castlingRookSquare (gate_piece c s pos) = castlingRookSquare pos.
Proof. destruct pos; reflexivity. Qed.

Lemma gate_piece_castlingPath c s pos :
  castlingPath (gate_piece c s pos) = castlingPath pos.
Proof. destruct pos; reflexivity. Qed.

Lemma gate_piece_gamePly c s pos :
  gamePly (gate_piece c s pos) = gamePly pos.
Proof. destruct pos; reflexivity. Qed.

Lemma gate_piece_sideToMove c s pos :
  sideToMove (gate_piece c s pos) = sideToMove pos.
Proof. destruct pos; reflexivity. Qed.

Lemma gate_piece_st c s pos :
  st (gate_piece c s pos) = si_gate (gateBoard pos s) (st pos).
Proof. destruct pos; reflexivity. Qed.

Lemma gate_piece_chess960 c s pos :
  chess960 (gate_piece c s pos) = chess960 pos.
Proof. destruct pos; reflexivity. Qed.

Lemma ungate_piece_board c s pos :
  board (ungate_piece c s pos) = board pos.
Proof. destruct pos; reflexivity. Qed.

Lemma ungate_piece_gateBoard c s pos :
  gateBoard (ungate_piece c s pos) = upd (gateBoard pos) s (gate (st pos)).
Proof. destruct pos; reflexivity. Qed.

Lemma ungate_piece_gatingPieces c s pos :
  gatingPieces (ungate_piece c s pos) = gatingPieces pos.
Proof. destruct pos; reflexivity. Qed.

Lemma ungate_piece_gatingSquares c s pos :
  gatingSquares (ungate_piece c s pos) = updC (gatingSquares pos) c (upd (gatingSquares pos c) (gate (st pos)) s).
Proof. destruct pos; reflexivity. Qed.

Lemma ungate_piece_byTypeBB c s pos :
  byTypeBB (ungate_piece c s pos) = byTypeBB (remove_piece (make_piece c (gatingPieces pos (gate (st pos)))) s pos).
Proof. destruct pos; reflexivity. Qed.

Lemma ungate_piece_byColorBB c s pos :
  byColorBB (ungate_piece c s pos) = byColorBB (remove_piece (make_piece c (gatingPieces pos (gate (st pos)))) s pos).
Proof. destruct pos; reflexivity. Qed.

Lemma ungate_piece_gateBB c s pos :
  gateBB (ungate_piece c s pos) = Z.lor (gateBB pos) (SquareBB s).
Proof. destruct pos; reflexivity. Qed.

Lemma ungate_piece_pieceCount c s pos :
  pieceCount (ungate_piece c s pos) = pieceCount (remove_piece (make_piece c (gatingPieces pos (gate (st pos)))) s pos).
Proof. destruct pos; reflexivity. Qed.

Lemma ungate_piece_gateCount c s pos :
  gateCount (ungate_piece c s pos) = gateCount pos.
Proof. destruct pos; reflexivity. Qed.

Lemma ungate_piece_setupCount c s pos :
  setupCount (ungate_piece c s pos) = setupCount pos.
Proof. destruct pos; reflexivity. Qed.

Lemma ungate_piece_castlingRightsMask c s pos :
  castlingRightsMask (ungate_piece c s pos) = castlingRightsMask pos.
Proof. destruct pos; reflexivity. Qed.

Lemma ungate_piece_castlingRookSquare c s pos :
  castlingRookSquare (ungate_piece c s pos) = castlingRookSquare pos.
Proof. destruct pos; reflexivity. Qed.

Lemma ungate_piece_castlingPath c s pos :
  castlingPath (ungate_piece c s pos) = castlingPath pos.
Proof. destruct pos; reflexivity. Qed.

Lemma ungate_piece_gamePly c s pos :
  gamePly (ungate_piece c s pos) = gamePly pos.
Proof. destruct pos; reflexivity. Qed.

Lemma ungate_piece_sideToMove c s pos :
  sideToMove (ungate_piece c s pos) = sideToMove pos.
Proof. destruct pos; reflexivity. Qed.

Lemma ungate_piece_st c s pos :
  st (ungate_piece c s pos) = st pos.
Proof. destruct pos; reflexivity. Qed.

Lemma ungate_piece_chess960 c s pos :
  chess960 (ungate_piece c s pos) = chess960 pos.
Proof. destruct pos; reflexivity. Qed.

Lemma capture_gate_board c s pos :
  board (capture_gate c s pos) = board pos.
Proof. destruct pos; reflexivity. Qed.

Lemma capture_gate_gateBoard c s pos :
  gateBoard (capture_gate c s pos) = upd (gateBoard pos) s NO_GATE.
Proof. destruct pos; reflexivity. Qed.

Lemma capture_gate_gatingPieces c s pos :
  gatingPieces (capture_gate c s pos) = gatingPieces pos.
Proof. destruct pos; reflexivity. Qed.

Lemma capture_gate_gatingSquares c s pos :
  gatingSquares (capture_gate c s pos) = updC (gatingSquares pos) c (upd (gatingSquares pos c) (gateBoard pos s) SQ_NONE).
Proof. destruct pos; reflexivity. Qed.

Lemma capture_gate_byTypeBB c s pos :
  byTypeBB (capture_gate c s pos) = byTypeBB pos.
Proof. destruct pos; reflexivity. Qed.

Lemma capture_gate_byColorBB c s pos :
  byColorBB (capture_gate c s pos) = byColorBB pos.
Proof. destruct pos; reflexivity. Qed.

Lemma capture_gate_gateBB c s pos :
  gateBB (capture_gate c s pos) = Z.lxor (gateBB pos) (SquareBB s).
Proof. destruct pos; reflexivity. Qed.

Lemma capture_gate_pieceCount c s pos :
  pieceCount (capture_gate c s pos) = pieceCount pos.
Proof. destruct pos; reflexivity. Qed.

Lemma capture_gate_gateCount c s pos :
  gateCount (capture_gate c s pos) = gateCount pos.
Proof. destruct pos; reflexivity. Qed.

Lemma capture_gate_setupCount c s pos :
  setupCount (capture_gate c s pos) = setupCount pos.
Proof. destruct pos; reflexivity. Qed.

Lemma capture_gate_castlingRightsMask c s pos :
  castlingRightsMask (capture_gate c s pos) = castlingRightsMask pos.
Proof. destruct pos; reflexivity. Qed.

Lemma capture_gate_castlingRookSquare c s pos :
  castlingRookSquare (capture_gate c s pos) = castlingRookSquare pos.
Proof. destruct pos; reflexivity. Qed.

Lemma capture_gate_castlingPath c s pos :
  castlingPath (capture_gate c s pos) = castlingPath pos.
Proof. destruct pos; reflexivity. Qed.

Lemma capture_gate_gamePly c s pos :
  gamePly (capture_gate c s pos) = gamePly pos.
Proof. destruct pos; reflexivity. Qed.

Lemma capture_gate_sideToMove c s pos :
  sideToMove (capture_gate c s pos) = sideToMove pos.
Proof. destruct pos; reflexivity. Qed.

Lemma capture_gate_st c s pos :
  st (capture_gate c s pos) = si_capturedGate (gateBoard pos s) (st pos).
Proof. destruct pos; reflexivity. Qed.

Lemma capture_gate_chess960 c s pos :
  chess960 (capture_gate c s pos) = chess960 pos.
Proof. destruct pos; reflexivity. Qed.

Lemma capture_gate_pieceList c s pos :
  pieceList (capture_gate c s pos) = pieceList pos.
Proof. destruct pos; reflexivity. Qed.

Lemma capture_gate_index c s pos :
  index (capture_gate c s pos) = index pos.
Proof. destruct pos; reflexivity. Qed.

Lemma uncapture_gate_board c s pos :
  board (uncapture_gate c s pos) = board pos.
Proof. destruct pos; reflexivity. Qed.

Lemma uncapture_gate_gateBoard c s pos :
  gateBoard (uncapture_gate c s pos) = upd (gateBoard pos) s (capturedGate (st pos)).
Proof. destruct pos; reflexivity. Qed.

Lemma uncapture_gate_gatingPieces c s pos :
  gatingPieces (uncapture_gate c s pos) = gatingPieces pos.
Proof. destruct pos; reflexivity. Qed.

Lemma uncapture_gate_gatingSquares c s pos :
  gatingSquares (uncapture_gate c s pos) = updC (gatingSquares pos) c (upd (gatingSquares pos c) (capturedGate (st pos)) s).
Proof. destruct pos; reflexivity. Qed.

Lemma uncapture_gate_byTypeBB c s pos :
  byTypeBB (uncapture_gate c s pos) = byTypeBB pos.
Proof. destruct pos; reflexivity. Qed.

Lemma uncapture_gate_byColorBB c s pos :
  byColorBB (uncapture_gate c s pos) = byColorBB pos.
Proof. destruct pos; reflexivity. Qed.

Lemma uncapture_gate_gateBB c s pos :
  gateBB (uncapture_gate c s pos) = Z.lor (gateBB pos) (SquareBB s).
Proof. destruct pos; reflexivity. Qed.

Lemma uncapture_gate_pieceCount c s pos :
  pieceCount (uncapture_gate c s pos) = pieceCount pos.
Proof. destruct pos; reflexivity. Qed.

Lemma uncapture_gate_gateCount c s pos :
  gateCount (uncapture_gate c s pos) = gateCount pos.
Proof. destruct pos; reflexivity. Qed.

Lemma uncapture_gate_setupCount c s pos :
  setupCount (uncapture_gate c s pos) = setupCount pos.
Proof. destruct pos; reflexivity. Qed.

Lemma uncapture_gate_castlingRightsMask c s pos :
  castlingRightsMask (uncapture_gate c s pos) = castlingRightsMask pos.
Proof. destruct pos; reflexivity. Qed.

Lemma uncapture_gate_castlingRookSquare c s pos :
  castlingRookSquare (uncapture_gate c s pos) = castlingRookSquare pos.
Proof. destruct pos; reflexivity. Qed.

Lemma uncapture_gate_castlingPath c s pos :
  castlingPath (uncapture_gate c s pos) = castlingPath pos.
Proof. destruct pos; reflexivity. Qed.

Lemma uncapture_gate_gamePly c s pos :
  gamePly (uncapture_gate c s pos) = gamePly pos.
Proof. destruct pos; reflexivity. Qed.

Lemma uncapture_gate_sideToMove c s pos :
  sideToMove (uncapture_gate c s pos) = sideToMove pos.
Proof. destruct pos; reflexivity. Qed.

Lemma uncapture_gate_st c s pos :
  st (uncapture_gate c s pos) = st pos.
Proof. destruct pos; reflexivity. Qed.

Lemma uncapture_gate_chess960 c s pos :
  chess960 (uncapture_gate c s pos) = chess960 pos.
Proof. destruct pos; reflexivity. Qed.

Lemma uncapture_gate_pieceList c s pos :
  pieceList (uncapture_gate c s pos) = pieceList pos.
Proof. destruct pos; reflexivity. Qed.

Lemma uncapture_gate_index c s pos :
  index (uncapture_gate c s pos) = index pos.
Proof. destruct pos; reflexivity. Qed.

Create Rewrite HintDb fields.
#[export] Hint Rewrite
  put_piece_board put_piece_gateBoard put_piece_gatingPieces put_piece_gatingSquares
  put_piece_gateBB put_piece_gateCount put_piece_setupCount
  put_piece_castlingRightsMask put_piece_castlingRookSquare put_piece_castlingPath
  put_piece_gamePly put_piece_sideToMove put_piece_st put_piece_chess960
  remove_piece_board remove_piece_gateBoard remove_piece_gatingPieces
  remove_piece_gatingSquares remove_piece_gateBB remove_piece_gateCount
  remove_piece_setupCount remove_piece_castlingRightsMask
  remove_piece_castlingRookSquare remove_piece_castlingPath remove_piece_gamePly
  remove_piece_sideToMove remove_piece_st remove_piece_chess960 move_piece_board
  move_piece_gateBoard move_piece_gatingPieces move_piece_gatingSquares
  move_piece_gateBB move_piece_gateCount move_piece_setupCount
  move_piece_castlingRightsMask move_piece_castlingRookSquare move_piece_castlingPath
  move_piece_gamePly move_piece_sideToMove move_piece_st move_piece_chess960
  add_gate_board add_gate_gateBoard add_gate_gatingPieces add_gate_gatingSquares
  add_gate_byTypeBB add_gate_byColorBB add_gate_gateBB add_gate_pieceCount
  add_gate_gateCount add_gate_setupCount add_gate_castlingRightsMask
  add_gate_castlingRookSquare add_gate_castlingPath add_gate_gamePly
  add_gate_sideToMove add_gate_st add_gate_chess960 add_gate_pieceList add_gate_index
  remove_gate_board remove_gate_gateBoard remove_gate_gatingPieces
  remove_gate_gatingSquares remove_gate_byTypeBB remove_gate_byColorBB
  remove_gate_gateBB remove_gate_pieceCount remove_gate_gateCount
  remove_gate_setupCount remove_gate_castlingRightsMask remove_gate_castlingRookSquare
  remove_gate_castlingPath remove_gate_gamePly remove_gate_sideToMove remove_gate_st
  remove_gate_chess960 remove_gate_pieceList remove_gate_index gate_piece_board gate_piece_gateBoard
  gate_piece_gatingPieces gate_piece_gatingSquares gate_piece_byTypeBB
  gate_piece_byColorBB gate_piece_gateBB gate_piece_pieceCount gate_piece_gateCount
  gate_piece_setupCount gate_piece_castlingRightsMask gate_piece_castlingRookSquare
  gate_piece_castlingPath gate_piece_gamePly gate_piece_sideToMove gate_piece_st
  gate_piece_chess960 ungate_piece_board ungate_piece_gateBoard
  ungate_piece_gatingPieces ungate_piece_gatingSquares ungate_piece_byTypeBB
  ungate_piece_byColorBB ungate_piece_gateBB ungate_piece_pieceCount
  ungate_piece_gateCount ungate_piece_setupCount ungate_piece_castlingRightsMask
  ungate_piece_castlingRookSquare ungate_piece_castlingPath ungate_piece_gamePly
  ungate_piece_sideToMove ungate_piece_st ungate_piece_chess960 capture_gate_board
  capture_gate_gateBoard capture_gate_gatingPieces capture_gate_gatingSquares
  capture_gate_byTypeBB capture_gate_byColorBB capture_gate_gateBB
  capture_gate_pieceCount capture_gate_gateCount capture_gate_setupCount
  capture_gate_castlingRightsMask capture_gate_castlingRookSquare
  capture_gate_castlingPath capture_gate_gamePly capture_gate_sideToMove
  capture_gate_st capture_gate_chess960 capture_gate_pieceList capture_gate_index
  uncapture_gate_board uncapture_gate_gateBoard uncapture_gate_gatingPieces
  uncapture_gate_gatingSquares uncapture_gate_byTypeBB uncapture_gate_byColorBB
  uncapture_gate_gateBB uncapture_gate_pieceCount uncapture_gate_gateCount
  uncapture_gate_setupCount uncapture_gate_castlingRightsMask
  uncapture_gate_castlingRookSquare uncapture_gate_castlingPath uncapture_gate_gamePly
  uncapture_gate_sideToMove uncapture_gate_st uncapture_gate_chess960
  uncapture_gate_pieceList uncapture_gate_index
  : fields.

(* ================================================================= *)
(** ** The bitboards and counts after [put_piece], [remove_piece], [move_piece] *)

Lemma pt_eqb_sym a b : pt_eqb a b = pt_eqb b a.
Proof. unfold pt_eqb. apply Z.eqb_sym. Qed.

Lemma piece_eqb_sym a b : piece_eqb a b = piece_eqb b a.
Proof.
  unfold piece_eqb. rewrite (pt_eqb_sym (type_of a)). f_equal.
  destruct (color_of a), (color_of b); reflexivity.
Qed.

Lemma lxor_lxor_cancel a b : Z.lxor (Z.lxor a b) b = a.
Proof. now rewrite Z.lxor_assoc, Z.lxor_nilpotent, Z.lxor_0_r. Qed.

Lemma lor_lor_same a b : Z.lor (Z.lor a b) b = Z.lor a b.
Proof. now rewrite <- Z.lor_assoc, Z.lor_diag. Qed.

Lemma byTypeBB_put_piece pc s pos pt :
  byTypeBB (put_piece pc s pos) pt
  = if pt_eqb pt ALL_PIECES || pt_eqb pt (type_of pc)
    then Z.lor (byTypeBB pos pt) (SquareBB s) else byTypeBB pos pt.
Proof.
  rewrite put_piece_byTypeBB. unfold updT.
  destruct (pt_eqb pt (type_of pc)) eqn:E1, (pt_eqb pt ALL_PIECES) eqn:E2; simpl;
    try reflexivity.
  - apply pt_eqb_eq in E1, E2. subst pt. rewrite <- E2, pt_eqb_refl.
    now rewrite lor_lor_same.
  - apply pt_eqb_eq in E1. subst pt. now rewrite E2.
  - apply pt_eqb_eq in E2. now subst pt.
Qed.

Lemma byTypeBB_remove_piece pc s pos pt :
  byTypeBB (remove_piece pc s pos) pt
  = if xorb (pt_eqb pt ALL_PIECES) (pt_eqb pt (type_of pc))
    then Z.lxor (byTypeBB pos pt) (SquareBB s) else byTypeBB pos pt.
Proof.
  rewrite remove_piece_byTypeBB. unfold updT.
  destruct (pt_eqb pt (type_of pc)) eqn:E1, (pt_eqb pt ALL_PIECES) eqn:E2; simpl;
    try reflexivity.
  - apply pt_eqb_eq in E1, E2. subst pt. rewrite <- E2, pt_eqb_refl.
    now rewrite lxor_lxor_cancel.
  - apply pt_eqb_eq in E1. subst pt. now rewrite E2.
  - apply pt_eqb_eq in E2. now subst pt.
Qed.

Lemma byTypeBB_move_piece pc from to pos pt :
  byTypeBB (move_piece pc from to pos) pt
  = if xorb (pt_eqb pt ALL_PIECES) (pt_eqb pt (type_of pc))
    then Z.lxor (byTypeBB pos pt) (Z.lxor (SquareBB from) (SquareBB to))
    else byTypeBB pos pt.
Proof.
  rewrite move_piece_byTypeBB. unfold updT.
  destruct (pt_eqb pt (type_of pc)) eqn:E1, (pt_eqb pt ALL_PIECES) eqn:E2; simpl;
    try reflexivity.
  - apply pt_eqb_eq in E1, E2. subst pt. rewrite <- E2, pt_eqb_refl.
    now rewrite lxor_lxor_cancel.
  - apply pt_eqb_eq in E1. subst pt. now rewrite E2.
  - apply pt_eqb_eq in E2. now subst pt.
Qed.

Lemma byColorBB_put_piece pc s pos c :
  byColorBB (put_piece pc s pos) c
  = if color_eqb c (color_of pc)
    then Z.lor (byColorBB pos c) (SquareBB s) else byColorBB pos c.
Proof.
  rewrite put_piece_byColorBB. unfold updC.
  destruct (color_eqb c (color_of pc)) eqn:E; [|reflexivity].
  apply color_eqb_eq in E. now subst c.
Qed.

Lemma byColorBB_remove_piece pc s pos c :
  byColorBB (remove_piece pc s pos) c
  = if color_eqb c (color_of pc)
    then Z.lxor (byColorBB pos c) (SquareBB s) else byColorBB pos c.
Proof.
  rewrite remove_piece_byColorBB. unfold updC.
  destruct (color_eqb c (color_of pc)) eqn:E; [|reflexivity].
  apply color_eqb_eq in E. now subst c.
Qed.

Lemma byColorBB_move_piece pc from to pos c :
  byColorBB (move_piece pc from to pos) c
  = if color_eqb c (color_of pc)
    then Z.lxor (byColorBB pos c) (Z.lxor (SquareBB from) (SquareBB to))
    else byColorBB pos c.
Proof.
  rewrite move_piece_byColorBB. unfold updC.
  destruct (color_eqb c (color_of pc)) eqn:E; [|reflexivity].
  apply color_eqb_eq in E. now subst c.
Qed.

Lemma pieceCount_put_piece pc s pos q :
  pieceCount (put_piece pc s pos) q
  = pieceCount pos q + b2z (piece_eqb q pc)
    + b2z (piece_eqb q (make_piece (color_of pc) ALL_PIECES)).
Proof.
  rewrite put_piece_pieceCount. unfold updP, b2z.
  destruct (piece_eqb q pc) eqn:E1,
           (piece_eqb q (make_piece (color_of pc) ALL_PIECES)) eqn:E2,
           (piece_eqb (make_piece (color_of pc) ALL_PIECES) pc) eqn:E3;
    repeat match goal with
           | H : piece_eqb _ _ = true |- _ => apply piece_eqb_eq in H
           | H : piece_eqb _ _ = false |- _ => apply piece_eqb_neq in H
           end;
    subst; try congruence; try lia.
Qed.

Lemma pieceCount_remove_piece pc s pos q :
  pieceCount (remove_piece pc s pos) q
  = pieceCount pos q - b2z (piece_eqb q pc)
    - b2z (piece_eqb q (make_piece (color_of pc) ALL_PIECES)).
Proof.
  rewrite remove_piece_pieceCount. unfold updP, b2z.
  destruct (piece_eqb q pc) eqn:E1,
           (piece_eqb q (make_piece (color_of pc) ALL_PIECES)) eqn:E2,
           (piece_eqb (make_piece (color_of pc) ALL_PIECES) pc) eqn:E3;
    repeat match goal with
           | H : piece_eqb _ _ = true |- _ => apply piece_eqb_eq in H
           | H : piece_eqb _ _ = false |- _ => apply piece_eqb_neq in H
           end;
    subst; try congruence; try lia.
Qed.

#[export] Hint Rewrite
  byTypeBB_put_piece byTypeBB_remove_piece byTypeBB_move_piece
  byColorBB_put_piece byColorBB_remove_piece byColorBB_move_piece
  pieceCount_put_piece pieceCount_remove_piece
  : fields.

Lemma land_lor_SquareBB b s : 0 <= s -> (Z.land (Z.lor b (SquareBB s)) (SquareBB s) =? 0) = false.
Proof.
  intros Hs. rewrite land_SquareBB_zero by assumption.
  rewrite Z.lor_spec, testbit_SquareBB, Z.eqb_refl by assumption.
  now rewrite orb_true_r.
Qed.

(* ================================================================= *)
(** ** The board helpers of [position.h] *)

Lemma put_piece_index pc s pos :
  index (put_piece pc s pos) = upd (index pos) s (pieceCount pos pc).
Proof. destruct pos; reflexivity. Qed.

Lemma put_piece_pieceList_at pc s pos q :
  pieceList (put_piece pc s pos) q
  = if piece_eqb q pc then upd (pieceList pos pc) (pieceCount pos pc) s
    else pieceList pos q.
Proof.
  destruct pos. unfold put_piece. rsimpl. rewrite upd_same. reflexivity.
Qed.

Lemma remove_piece_index pc s pos :
  index (remove_piece pc s pos)
  = upd (index pos) (pieceList pos pc (pieceCount pos pc - 1)) (index pos s).
Proof.
  destruct pos. unfold remove_piece. rsimpl. now rewrite updP_same.
Qed.

Lemma remove_piece_pieceList_at pc s pos q :
  pieceList (remove_piece pc s pos) q
  = if piece_eqb q pc
    then upd (upd (pieceList pos pc) (index pos s)
                  (pieceList pos pc (pieceCount pos pc - 1)))
             (pieceCount pos pc - 1) SQ_NONE
    else pieceList pos q.
Proof.
  destruct pos. unfold remove_piece. rsimpl.
  rewrite !updP_same, upd_same. unfold updP.
  destruct (piece_eqb q pc); reflexivity.
Qed.

Lemma move_piece_index pc from to pos :
  index (move_piece pc from to pos) = upd (index pos) to (index pos from).
Proof. destruct pos; reflexivity. Qed.

Lemma move_piece_pieceList_at pc from to pos q :
  pieceList (move_piece pc from to pos) q
  = if piece_eqb q pc then upd (pieceList pos pc) (index pos from) to
    else pieceList pos q.
Proof.
  destruct pos. unfold move_piece. rsimpl. rewrite upd_same. reflexivity.
Qed.

Lemma checked_has_type pc :
  In (type_of pc) piece_types_PAWN_to_KING -> type_of pc <> NO_PIECE_TYPE.
Proof. intros H E. rewrite E in H. simpl in H. intuition discriminate. Qed.

Lemma checked_not_aggregate pc q :
  In (type_of q) piece_types_PAWN_to_KING ->
  piece_eqb q (make_piece (color_of pc) ALL_PIECES) = false.
Proof.
  intros H. apply piece_eqb_neq. intros E. apply checked_has_type in H.
  rewrite E in H. now apply H.
Qed.

Lemma piece_lists_ok_spec pos :
  piece_lists_ok pos = true <->
  (forall pc i, In (type_of pc) piece_types_PAWN_to_KING ->
     0 <= i < pieceCount pos pc ->
     board pos (pieceList pos pc i) = pc /\ index pos (pieceList pos pc i) = i).
Proof.
  unfold piece_lists_ok. split.
  - intros H [c pt] i Hpt Hi. cbn [type_of] in Hpt.
    rewrite forallb_forall in H.
    assert (Hc : In c [WHITE; BLACK]) by (destruct c; simpl; tauto).
    specialize (H c Hc). rewrite forallb_forall in H. specialize (H pt Hpt).
    cbv zeta in H. rewrite forallb_forall in H.
    specialize (H (Z.to_nat i)). rewrite Z2Nat.id in H by lia.
    assert (Hin : In (Z.to_nat i) (seq 0 (Z.to_nat (pieceCount pos (make_piece c pt))))).
    { apply in_seq. lia. }
    specialize (H Hin). apply andb_true_iff in H. destruct H as [H1 H2].
    apply piece_eqb_eq in H1. apply Z.eqb_eq in H2. now split.
  - intros H. apply forallb_forall. intros c _. apply forallb_forall. intros pt Hpt.
    cbv zeta. apply forallb_forall. intros n Hn. apply in_seq in Hn.
    destruct (H (make_piece c pt) (Z.of_nat n) Hpt) as [H1 H2]; [lia|].
    apply andb_true_iff. split; [now apply piece_eqb_eq | now apply Z.eqb_eq].
Qed.

(** X1: [put_piece] keeps the piece lists in order when the list has
    room, and appends the square: the count is one more, [index[s]] is
    the old count and the list names [s] there *)
Theorem put_piece_keeps_piece_lists pc s pos :
  piece_lists_ok pos = true ->
  unlisted pos s ->
  type_of pc <> NO_PIECE_TYPE ->
  0 <= s < 64 ->
  0 <= pieceCount pos pc < 16 ->
  piece_lists_ok (put_piece pc s pos) = true
  /\ pieceCount (put_piece pc s pos) pc = pieceCount pos pc + 1
  /\ index (put_piece pc s pos) s = pieceCount pos pc
  /\ pieceList (put_piece pc s pos) pc (pieceCount pos pc) = s
  /\ (forall q i, (q <> pc \/ i <> pieceCount pos pc) ->
        pieceList (put_piece pc s pos) q i = pieceList pos q i)
  /\ (forall t, t <> s -> index (put_piece pc s pos) t = index pos t).
Proof.
  intros Hok Hun Hty Hs Hcnt. rewrite piece_lists_ok_spec in Hok.
  assert (Hagg : piece_eqb pc (make_piece (color_of pc) ALL_PIECES) = false).
  { apply piece_eqb_neq. intros E. apply Hty. now rewrite E. }
  split; [|split; [|split; [|split; [|split]]]].
  - apply piece_lists_ok_spec. intros q i Hq Hi.
    rewrite pieceCount_put_piece, (checked_not_aggregate pc q Hq) in Hi.
    rewrite put_piece_pieceList_at, put_piece_board, put_piece_index.
    destruct (piece_eqb q pc) eqn:E; unfold b2z in Hi.
    + apply piece_eqb_eq in E. subst q.
      destruct (Z.eq_dec i (pieceCount pos pc)) as [->|Hne].
      * rewrite !upd_same. now split.
      * rewrite (upd_other _ _ i) by assumption.
        assert (Hi' : 0 <= i < pieceCount pos pc) by lia.
        pose proof (Hun pc i Hq Hi') as Hs'.
        rewrite !upd_other by assumption. now apply Hok.
    + assert (Hi' : 0 <= i < pieceCount pos q) by lia.
      pose proof (Hun q i Hq Hi') as Hs'.
      rewrite !upd_other by assumption. now apply Hok.
  - rewrite pieceCount_put_piece, piece_eqb_refl, Hagg. unfold b2z. lia.
  - rewrite put_piece_index. apply upd_same.
  - rewrite put_piece_pieceList_at, piece_eqb_refl. apply upd_same.
  - intros q i Hqi. rewrite put_piece_pieceList_at.
    destruct (piece_eqb q pc) eqn:E; [|reflexivity].
    apply piece_eqb_eq in E. subst q.
    destruct Hqi as [Hq|Hi]; [now contradiction Hq|]. now rewrite upd_other.
  - intros t Ht. rewrite put_piece_index. now apply upd_other.
Qed.

Lemma put_piece_keeps_piece_lists_witness :
  let pos := put_piece (make_piece WHITE ROOK) SQ_A1 (cleared_position zero_state) in
  let pc := make_piece WHITE ROOK in
  piece_lists_ok (put_piece pc SQ_H1 pos) = true
  /\ pieceCount (put_piece pc SQ_H1 pos) pc = pieceCount pos pc + 1
  /\ index (put_piece pc SQ_H1 pos) SQ_H1 = pieceCount pos pc
  /\ pieceList (put_piece pc SQ_H1 pos) pc (pieceCount pos pc) = SQ_H1
  /\ (forall q i, (q <> pc \/ i <> pieceCount pos pc) ->
        pieceList (put_piece pc SQ_H1 pos) q i = pieceList pos q i)
  /\ (forall t, t <> SQ_H1 -> index (put_piece pc SQ_H1 pos) t = index pos t).
Proof.
  intros pos pc. apply put_piece_keeps_piece_lists.
  - reflexivity.
  - intros q i _ Hi. unfold pos in *. rewrite pieceCount_put_piece in Hi.
    rewrite put_piece_pieceList_at.
    destruct (piece_eqb q (make_piece WHITE ROOK)) eqn:E.
    + unfold b2z in Hi. simpl in Hi.
      destruct (piece_eqb q (make_piece WHITE ALL_PIECES)) eqn:E2.
      * apply piece_eqb_eq in E. subst q. simpl in E2. discriminate E2.
      * assert (i = 0) by lia. subst i. vm_compute. discriminate.
    + simpl. discriminate.
  - discriminate.
  - unfold SQ_H1. lia.
  - vm_compute. split; [discriminate | reflexivity].
Defined.


(** X2: [remove_piece] keeps the piece lists in order: the count drops by
    one, the old last slot is reset to [SQ_NONE], and the old last
    entry takes the slot of the removed square unless the removed
    square was that last entry itself *)
Theorem remove_piece_keeps_piece_lists pc s pos :
  piece_lists_ok pos = true ->
  In (type_of pc) piece_types_PAWN_to_KING ->
  list_entry pos pc s ->
  let q := remove_piece pc s pos in
  let last := pieceList pos pc (pieceCount pos pc - 1) in
  piece_lists_ok q = true
  /\ unlisted q s
  /\ pieceCount q pc = pieceCount pos pc - 1
  /\ pieceList q pc (pieceCount pos pc - 1) = SQ_NONE
  /\ index q last = index pos s
  /\ (s <> last -> pieceList q pc (index pos s) = last)
  /\ (s = last -> index pos s = pieceCount pos pc - 1).
Proof.
  intros Hok Hpc [Hk Hks] q last0. subst q last0. rewrite piece_lists_ok_spec in Hok.
  set (cnt := pieceCount pos pc) in *. set (k := index pos s) in *.
  set (last := pieceList pos pc (cnt - 1)).
  assert (Hlast : board pos last = pc /\ index pos last = cnt - 1)
    by (apply Hok; [assumption | fold cnt; lia]).
  assert (Hs : board pos s = pc) by (rewrite <- Hks; apply Hok; assumption).
  assert (Hcount : forall q, In (type_of q) piece_types_PAWN_to_KING ->
            pieceCount (remove_piece pc s pos) q
            = pieceCount pos q - b2z (piece_eqb q pc)).
  { intros q Hq. rewrite pieceCount_remove_piece, (checked_not_aggregate pc q Hq).
    unfold b2z at 2. lia. }
  assert (Hent : forall q i, In (type_of q) piece_types_PAWN_to_KING ->
            0 <= i < pieceCount (remove_piece pc s pos) q ->
            exists t, pieceList (remove_piece pc s pos) q i = t
                      /\ board pos t = q
                      /\ upd (index pos) last k t = i /\ t <> s).
  { intros q i Hq Hi. rewrite (Hcount q Hq) in Hi.
    rewrite remove_piece_pieceList_at. fold cnt k last.
    destruct (piece_eqb q pc) eqn:E; unfold b2z in Hi.
    - apply piece_eqb_eq in E. subst q. fold cnt in Hi.
      rewrite (upd_other _ _ i) by lia.
      destruct (Z.eq_dec i k) as [->|Hne].
      + rewrite upd_same. exists last. repeat split.
        * apply Hlast.
        * apply upd_same.
        * intros E. destruct Hlast as [_ Hl]. rewrite E in Hl. fold k in Hl. lia.
      + rewrite upd_other by assumption.
        assert (Hi' : 0 <= i < pieceCount pos pc) by (fold cnt; lia).
        destruct (Hok pc i Hpc Hi') as [Hb Hx].
        exists (pieceList pos pc i). repeat split; [assumption| |].
        * rewrite upd_other; [assumption|]. intros E. rewrite E in Hx.
          destruct Hlast as [_ Hl]. lia.
        * intros E. rewrite E in Hx. fold k in Hx. lia.
    - assert (Hi' : 0 <= i < pieceCount pos q) by lia.
      destruct (Hok q i Hq Hi') as [Hb Hx].
      apply piece_eqb_neq in E.
      exists (pieceList pos q i). repeat split; [assumption| |].
      + rewrite upd_other; [assumption|]. intros E'. rewrite E' in Hb.
        destruct Hlast as [Hl _]. congruence.
      + intros E'. rewrite E' in Hb. congruence. }
  split; [|split; [|split; [|split; [|split; [|split]]]]].
  - apply piece_lists_ok_spec. intros q i Hq Hi.
    destruct (Hent q i Hq Hi) as (t & Ht & Hb & Hx & _).
    rewrite remove_piece_board, remove_piece_index, Ht. fold cnt k last. now split.
  - intros q i Hq Hi. destruct (Hent q i Hq Hi) as (t & Ht & _ & _ & Hne).
    now rewrite Ht.
  - rewrite (Hcount pc Hpc), piece_eqb_refl. reflexivity.
  - rewrite remove_piece_pieceList_at, piece_eqb_refl. fold cnt. apply upd_same.
  - rewrite remove_piece_index. fold cnt last. apply upd_same.
  - intros Hne. rewrite remove_piece_pieceList_at, piece_eqb_refl. fold cnt k last.
    assert (Hk' : k <> cnt - 1).
    { intros E. apply Hne. rewrite <- Hks. fold k. rewrite E. reflexivity. }
    rewrite upd_other by assumption. apply upd_same.
  - intros E. destruct Hlast as [_ Hl]. rewrite <- E in Hl. exact Hl.
Qed.

Lemma remove_piece_keeps_piece_lists_witness :
  let pos := put_piece (make_piece BLACK KNIGHT) SQ_H8
               (put_piece (make_piece BLACK KNIGHT) SQ_A8 (cleared_position zero_state)) in
  let pc := make_piece BLACK KNIGHT in
  let q := remove_piece pc SQ_A8 pos in
  let last := pieceList pos pc (pieceCount pos pc - 1) in
  piece_lists_ok q = true
  /\ unlisted q SQ_A8
  /\ pieceCount q pc = pieceCount pos pc - 1
  /\ pieceList q pc (pieceCount pos pc - 1) = SQ_NONE
  /\ index q last = index pos SQ_A8
  /\ (SQ_A8 <> last -> pieceList q pc (index pos SQ_A8) = last)
  /\ (SQ_A8 = last -> index pos SQ_A8 = pieceCount pos pc - 1).
Proof.
  intros pos pc. apply remove_piece_keeps_piece_lists.
  - reflexivity.
  - simpl. tauto.
  - split; [vm_compute; split; [discriminate | reflexivity] | reflexivity].
Defined.


(** X3: [move_piece] keeps the piece lists in order: the entry at
    [index[from]] is redirected to [to], [index[to]] takes that slot
    number, and [index[from]] keeps its value although [from] is no
    longer listed *)
Theorem move_piece_keeps_piece_lists pc from to pos :
  piece_lists_ok pos = true ->
  In (type_of pc) piece_types_PAWN_to_KING ->
  list_entry pos pc from ->
  unlisted pos to ->
  from <> to ->
  let q := move_piece pc from to pos in
  piece_lists_ok q = true
  /\ unlisted q from
  /\ pieceList q pc (index pos from) = to
  /\ index q to = index pos from
  /\ index q from = index pos from
  /\ (forall p, pieceCount q p = pieceCount pos p).
Proof.
  intros Hok Hpc [Hk Hks] Hun Hne q0. subst q0. rewrite piece_lists_ok_spec in Hok.
  set (k := index pos from) in *.
  assert (Hs : board pos from = pc) by (rewrite <- Hks; apply Hok; assumption).
  assert (Hent : forall q i, In (type_of q) piece_types_PAWN_to_KING ->
            0 <= i < pieceCount pos q ->
            exists t, pieceList (move_piece pc from to pos) q i = t
                      /\ upd (upd (board pos) from NO_PIECE) to pc t = q
                      /\ upd (index pos) to k t = i /\ t <> from).
  { intros q i Hq Hi. rewrite move_piece_pieceList_at. fold k.
    pose proof (Hun q i Hq Hi) as Hto.
    destruct (Hok q i Hq Hi) as [Hb Hx].
    destruct (piece_eqb q pc) eqn:E.
    - apply piece_eqb_eq in E. subst q.
      destruct (Z.eq_dec i k) as [->|Hik].
      + rewrite upd_same. exists to. rewrite !upd_same. repeat split. congruence.
      + rewrite upd_other by assumption. exists (pieceList pos pc i).
        assert (Hfr : pieceList pos pc i <> from).
        { intros E. rewrite E in Hx. fold k in Hx. lia. }
        rewrite !upd_other by assumption. now repeat split.
    - apply piece_eqb_neq in E. exists (pieceList pos q i).
      assert (Hfr : pieceList pos q i <> from).
      { intros E'. rewrite E' in Hb. congruence. }
      rewrite !upd_other by assumption. now repeat split. }
  split; [|split; [|split; [|split; [|split]]]].
  - apply piece_lists_ok_spec. intros q i Hq Hi. rewrite move_piece_pieceCount in Hi.
    destruct (Hent q i Hq Hi) as (t & Ht & Hb & Hx & _).
    rewrite move_piece_board, move_piece_index, Ht. fold k. now split.
  - intros q i Hq Hi. rewrite move_piece_pieceCount in Hi.
    destruct (Hent q i Hq Hi) as (t & Ht & _ & _ & Hfr). now rewrite Ht.
  - rewrite move_piece_pieceList_at, piece_eqb_refl. fold k. apply upd_same.
  - rewrite move_piece_index. apply upd_same.
  - rewrite move_piece_index. fold k. now apply upd_other.
  - intros p. now rewrite move_piece_pieceCount.
Qed.

Lemma move_piece_keeps_piece_lists_witness :
  let pos := put_piece (make_piece WHITE ROOK) SQ_A1 (cleared_position zero_state) in
  let pc := make_piece WHITE ROOK in
  let q := move_piece pc SQ_A1 SQ_A8 pos in
  piece_lists_ok q = true
  /\ unlisted q SQ_A1
  /\ pieceList q pc (index pos SQ_A1) = SQ_A8
  /\ index q SQ_A8 = index pos SQ_A1
  /\ index q SQ_A1 = index pos SQ_A1
  /\ (forall p, pieceCount q p = pieceCount pos p).
Proof.
  intros pos pc. apply move_piece_keeps_piece_lists.
  - reflexivity.
  - simpl. tauto.
  - split; [vm_compute; split; [discriminate | reflexivity] | reflexivity].
  - intros q i _ Hi. unfold pos in *. rewrite pieceCount_put_piece in Hi.
    rewrite put_piece_pieceList_at.
    destruct (piece_eqb q (make_piece WHITE ROOK)) eqn:E.
    + unfold b2z in Hi. simpl in Hi.
      destruct (piece_eqb q (make_piece WHITE ALL_PIECES)) eqn:E2.
      * apply piece_eqb_eq in E. subst q. simpl in E2. discriminate E2.
      * assert (i = 0) by lia. subst i. vm_compute. discriminate.
    + simpl. discriminate.
  - discriminate.
Defined.

(* ================================================================= *)
(** ** Board array and bitboards *)

Lemma testbit_lor_SquareBB b s t :
  0 <= s -> Z.testbit (Z.lor b (SquareBB s)) t = Z.testbit b t || (t =? s).
Proof. intros Hs. now rewrite Z.lor_spec, testbit_SquareBB. Qed.

Lemma testbit_lxor_SquareBB b s t :
  0 <= s -> Z.testbit (Z.lxor b (SquareBB s)) t = xorb (Z.testbit b t) (t =? s).
Proof. intros Hs. now rewrite Z.lxor_spec, testbit_SquareBB. Qed.

Lemma bitboards_consistent_intro pos :
  (forall s, 0 <= s < 64 ->
     Z.testbit (byTypeBB pos ALL_PIECES) s = negb (piece_eqb (board pos s) NO_PIECE)) ->
  (forall pt s, 0 <= s < 64 -> pt <> NO_PIECE_TYPE ->
     Z.testbit (byTypeBB pos pt) s
     = negb (piece_eqb (board pos s) NO_PIECE) && pt_eqb (type_of (board pos s)) pt) ->
  (forall c s, 0 <= s < 64 ->
     Z.testbit (byColorBB pos c) s
     = negb (piece_eqb (board pos s) NO_PIECE) && color_eqb (color_of (board pos s)) c) ->
  (forall s, 0 <= s < 64 -> board pos s <> NO_PIECE ->
     type_of (board pos s) <> NO_PIECE_TYPE) ->
  bitboards_consistent pos = true.
Proof.
  intros HA HT HC HN. unfold bitboards_consistent. apply forallb_forall.
  intros s Hs. apply in_all_squares in Hs. cbv zeta.
  rewrite !andb_true_iff. repeat split.
  - rewrite HA by assumption. apply eqb_reflx.
  - apply forallb_forall. intros pt Hpt. rewrite HT; [apply eqb_reflx | assumption |].
    intros E. subst pt. simpl in Hpt. intuition discriminate.
  - apply forallb_forall. intros c _. rewrite HC by assumption. apply eqb_reflx.
  - destruct (piece_eqb (board pos s) NO_PIECE) eqn:E; [reflexivity|]. simpl.
    apply negb_true_iff, pt_eqb_neq. apply HN; [assumption|]. now apply piece_eqb_neq.
Qed.

Lemma real_piece_not_NO_PIECE pc :
  type_of pc <> NO_PIECE_TYPE -> piece_eqb pc NO_PIECE = false.
Proof. intros H. apply piece_eqb_neq. intros E. apply H. now rewrite E. Qed.

Lemma pt_eqb_ALL_false pt : pt <> NO_PIECE_TYPE -> pt_eqb pt ALL_PIECES = false.
Proof. intros H. now apply pt_eqb_neq. Qed.

(** X4: [put_piece] on an empty square keeps board and bitboards in agreement *)
Theorem put_piece_keeps_bitboards pc s pos :
  0 <= s < 64 ->
  bitboards_consistent pos = true ->
  board pos s = NO_PIECE ->
  type_of pc <> NO_PIECE_TYPE ->
  bitboards_consistent (put_piece pc s pos) = true.
Proof.
  intros Hs Hcons Hemp Hty.
  apply bitboards_consistent_spec in Hcons. destruct Hcons as (HA & HT & HC & HN).
  pose proof (real_piece_not_NO_PIECE pc Hty) as Hpc.
  assert (Hs0 : 0 <= s) by lia.
  apply bitboards_consistent_intro.
  - intros t Ht. rewrite byTypeBB_put_piece, pt_eqb_refl. cbn [orb].
    rewrite testbit_lor_SquareBB, put_piece_board by assumption. unfold upd.
    destruct (Z.eqb_spec t s) as [->|Hne].
    + now rewrite Hpc, orb_true_r.
    + rewrite orb_false_r. now apply HA.
  - intros pt t Ht Hpt. rewrite byTypeBB_put_piece, (pt_eqb_ALL_false pt Hpt).
    cbn [orb]. rewrite put_piece_board. unfold upd.
    destruct (pt_eqb pt (type_of pc)) eqn:E.
    + rewrite testbit_lor_SquareBB by assumption.
      destruct (Z.eqb_spec t s) as [->|Hne].
      * now rewrite Hpc, orb_true_r, (pt_eqb_sym (type_of pc) pt), E.
      * rewrite orb_false_r. now apply HT.
    + destruct (Z.eqb_spec t s) as [->|Hne].
      * rewrite HT, Hemp by assumption.
        rewrite Hpc, (pt_eqb_sym (type_of pc) pt), E, piece_eqb_refl. reflexivity.
      * now apply HT.
  - intros c t Ht. rewrite byColorBB_put_piece, put_piece_board. unfold upd.
    destruct (color_eqb c (color_of pc)) eqn:E.
    + rewrite testbit_lor_SquareBB by assumption.
      destruct (Z.eqb_spec t s) as [->|Hne].
      * apply color_eqb_eq in E. subst c. now rewrite Hpc, orb_true_r, color_eqb_refl.
      * rewrite orb_false_r. now apply HC.
    + destruct (Z.eqb_spec t s) as [->|Hne].
      * rewrite HC, Hemp by assumption. rewrite Hpc, piece_eqb_refl. simpl.
        destruct c, (color_of pc); simpl in *; congruence.
      * now apply HC.
  - intros t Ht. rewrite put_piece_board. unfold upd.
    destruct (Z.eqb_spec t s) as [->|Hne]; [intros _; exact Hty | now apply HN].
Qed.

Lemma put_piece_keeps_bitboards_witness :
  bitboards_consistent
    (put_piece (make_piece WHITE ROOK) SQ_A1 (cleared_position zero_state)) = true.
Proof.
  apply put_piece_keeps_bitboards.
  - unfold SQ_A1. lia.
  - reflexivity.
  - reflexivity.
  - discriminate.
Defined.

(** X5: [move_piece] to an empty square keeps board and bitboards in agreement *)
Theorem move_piece_keeps_bitboards pc from to pos :
  0 <= from < 64 -> 0 <= to < 64 -> from <> to ->
  bitboards_consistent pos = true ->
  board pos from = pc ->
  type_of pc <> NO_PIECE_TYPE ->
  board pos to = NO_PIECE ->
  bitboards_consistent (move_piece pc from to pos) = true.
Proof.
  intros Hf Ht Hne Hcons Hfrom Hty Hto.
  apply bitboards_consistent_spec in Hcons. destruct Hcons as (HA & HT & HC & HN).
  pose proof (real_piece_not_NO_PIECE pc Hty) as Hpc.
  assert (Hf0 : 0 <= from) by lia. assert (Ht0 : 0 <= to) by lia.
  assert (Hagg : pt_eqb ALL_PIECES (type_of pc) = false).
  { rewrite pt_eqb_sym. now apply pt_eqb_ALL_false. }
  apply bitboards_consistent_intro.
  - intros t Hrt. rewrite byTypeBB_move_piece, pt_eqb_refl, Hagg. cbn [xorb].
    rewrite !Z.lxor_spec, !testbit_SquareBB, move_piece_board by assumption.
    unfold upd. rewrite (HA t Hrt).
    destruct (Z.eqb_spec t to) as [E1|Hn1], (Z.eqb_spec t from) as [E2|Hn2];
      try (exfalso; congruence).
    + subst t. rewrite Hto, piece_eqb_refl, Hpc. reflexivity.
    + subst t. rewrite Hfrom, Hpc, piece_eqb_refl. reflexivity.
    + now rewrite !xorb_false_r.
  - intros pt t Hrt Hpt. rewrite byTypeBB_move_piece, (pt_eqb_ALL_false pt Hpt).
    cbn [xorb]. rewrite move_piece_board. unfold upd.
    destruct (pt_eqb pt (type_of pc)) eqn:E.
    + rewrite !Z.lxor_spec, !testbit_SquareBB, (HT pt t Hrt Hpt) by assumption.
      destruct (Z.eqb_spec t to) as [E1|Hn1], (Z.eqb_spec t from) as [E2|Hn2];
        try (exfalso; congruence).
      * subst t.
        rewrite Hto, piece_eqb_refl, Hpc, (pt_eqb_sym (type_of pc) pt), E. reflexivity.
      * subst t. rewrite Hfrom, Hpc, piece_eqb_refl, (pt_eqb_sym (type_of pc) pt), E.
        reflexivity.
      * now rewrite !xorb_false_r.
    + rewrite (HT pt t Hrt Hpt).
      destruct (Z.eqb_spec t to) as [E1|Hn1], (Z.eqb_spec t from) as [E2|Hn2];
        try (exfalso; congruence).
      * subst t.
        rewrite Hto, piece_eqb_refl, Hpc, (pt_eqb_sym (type_of pc) pt), E. reflexivity.
      * subst t. rewrite Hfrom, Hpc, piece_eqb_refl, (pt_eqb_sym (type_of pc) pt), E.
        reflexivity.
      * reflexivity.
  - intros c t Hrt. rewrite byColorBB_move_piece, move_piece_board. unfold upd.
    destruct (color_eqb c (color_of pc)) eqn:E.
    + rewrite !Z.lxor_spec, !testbit_SquareBB, (HC c t Hrt) by assumption.
      destruct (Z.eqb_spec t to) as [E1|Hn1], (Z.eqb_spec t from) as [E2|Hn2];
        try (exfalso; congruence).
      * subst t. rewrite Hto, piece_eqb_refl, Hpc. simpl.
        destruct c, (color_of pc); simpl in *; congruence.
      * subst t. rewrite Hfrom, Hpc, piece_eqb_refl. simpl.
        destruct c, (color_of pc); simpl in *; congruence.
      * now rewrite !xorb_false_r.
    + rewrite (HC c t Hrt).
      destruct (Z.eqb_spec t to) as [E1|Hn1], (Z.eqb_spec t from) as [E2|Hn2];
        try (exfalso; congruence).
      * subst t. rewrite Hto, piece_eqb_refl, Hpc. simpl.
        destruct c, (color_of pc); simpl in *; congruence.
      * subst t. rewrite Hfrom, Hpc, piece_eqb_refl. simpl.
        destruct c, (color_of pc); simpl in *; congruence.
      * reflexivity.
  - intros t Hrt. rewrite move_piece_board. unfold upd.
    destruct (Z.eqb_spec t to) as [E1|Hn1]; [intros _; exact Hty|].
    destruct (Z.eqb_spec t from) as [E2|Hn2]; [intros H; now contradiction H|].
    now apply HN.
Qed.

Lemma move_piece_keeps_bitboards_witness :
  bitboards_consistent
    (move_piece (make_piece WHITE ROOK) SQ_A1 SQ_A8
       (put_piece (make_piece WHITE ROOK) SQ_A1 (cleared_position zero_state))) = true.
Proof.
  apply move_piece_keeps_bitboards.
  - unfold SQ_A1. lia.
  - unfold SQ_A8. lia.
  - discriminate.
  - reflexivity.
  - reflexivity.
  - discriminate.
  - reflexivity.
Defined.

(** X6: [remove_piece] followed by clearing the square keeps board and
    bitboards in agreement; [remove_piece] alone leaves the board entry. *)
Theorem remove_piece_keeps_bitboards pc s pos :
  0 <= s < 64 ->
  bitboards_consistent pos = true ->
  board pos s = pc ->
  type_of pc <> NO_PIECE_TYPE ->
  board (remove_piece pc s pos) s = pc
  /\ bitboards_consistent
       (set_board (upd (board (remove_piece pc s pos)) s NO_PIECE)
                  (remove_piece pc s pos)) = true.
Proof.
  intros Hs Hcons Hb Hty. split; [now rewrite remove_piece_board|].
  apply bitboards_consistent_spec in Hcons. destruct Hcons as (HA & HT & HC & HN).
  pose proof (real_piece_not_NO_PIECE pc Hty) as Hpc.
  assert (Hs0 : 0 <= s) by lia.
  assert (Hagg : pt_eqb ALL_PIECES (type_of pc) = false).
  { rewrite pt_eqb_sym. now apply pt_eqb_ALL_false. }
  set (q := remove_piece pc s pos).
  assert (Eb : board (set_board (upd (board q) s NO_PIECE) q) = upd (board pos) s NO_PIECE).
  { unfold q. rewrite remove_piece_board. destruct (remove_piece pc s pos); reflexivity. }
  assert (Et : byTypeBB (set_board (upd (board q) s NO_PIECE) q) = byTypeBB q).
  { destruct q; reflexivity. }
  assert (Ec : byColorBB (set_board (upd (board q) s NO_PIECE) q) = byColorBB q).
  { destruct q; reflexivity. }
  apply bitboards_consistent_intro; rewrite ?Eb, ?Et, ?Ec; unfold q, upd.
  - intros t Hrt. rewrite byTypeBB_remove_piece, pt_eqb_refl, Hagg. cbn [xorb].
    rewrite testbit_lxor_SquareBB, (HA t Hrt) by assumption.
    destruct (Z.eqb_spec t s) as [E1|Hn1].
    + subst t. rewrite Hb, Hpc, piece_eqb_refl. reflexivity.
    + apply xorb_false_r.
  - intros pt t Hrt Hpt. rewrite byTypeBB_remove_piece, (pt_eqb_ALL_false pt Hpt).
    cbn [xorb]. destruct (pt_eqb pt (type_of pc)) eqn:E.
    + rewrite testbit_lxor_SquareBB, (HT pt t Hrt Hpt) by assumption.
      destruct (Z.eqb_spec t s) as [E1|Hn1].
      * subst t. rewrite Hb, Hpc, piece_eqb_refl, (pt_eqb_sym (type_of pc) pt), E.
        reflexivity.
      * apply xorb_false_r.
    + rewrite (HT pt t Hrt Hpt). destruct (Z.eqb_spec t s) as [E1|Hn1]; [|reflexivity].
      subst t. rewrite Hb, Hpc, piece_eqb_refl, (pt_eqb_sym (type_of pc) pt), E.
      reflexivity.
  - intros c t Hrt. rewrite byColorBB_remove_piece.
    destruct (color_eqb c (color_of pc)) eqn:E.
    + rewrite testbit_lxor_SquareBB, (HC c t Hrt) by assumption.
      destruct (Z.eqb_spec t s) as [E1|Hn1].
      * subst t. rewrite Hb, Hpc, piece_eqb_refl. simpl.
        destruct c, (color_of pc); simpl in *; congruence.
      * apply xorb_false_r.
    + rewrite (HC c t Hrt). destruct (Z.eqb_spec t s) as [E1|Hn1]; [|reflexivity].
      subst t. rewrite Hb, Hpc, piece_eqb_refl. simpl.
      destruct c, (color_of pc); simpl in *; congruence.
  - intros t Hrt. destruct (Z.eqb_spec t s) as [E1|Hn1];
      [intros H; now contradiction H | now apply HN].
Qed.

Lemma remove_piece_keeps_bitboards_witness :
  let pos := put_piece (make_piece WHITE ROOK) SQ_A1 (cleared_position zero_state) in
  board (remove_piece (make_piece WHITE ROOK) SQ_A1 pos) SQ_A1 = make_piece WHITE ROOK
  /\ bitboards_consistent
       (set_board (upd (board (remove_piece (make_piece WHITE ROOK) SQ_A1 pos)) SQ_A1
                       NO_PIECE)
                  (remove_piece (make_piece WHITE ROOK) SQ_A1 pos)) = true.
Proof.
  intros pos. apply remove_piece_keeps_bitboards.
  - unfold SQ_A1. lia.
  - reflexivity.
  - reflexivity.
  - discriminate.
Defined.

(* ================================================================= *)
(** ** Round trips of the helpers of [position.h] *)

(** Splitting a conjunction into its members, and nothing else. *)
Ltac conjuncts := repeat match goal with |- _ /\ _ => split end.

Lemma lor_lxor_SquareBB b s :
  0 <= s -> Z.testbit b s = false -> Z.lxor (Z.lor b (SquareBB s)) (SquareBB s) = b.
Proof.
  intros Hs Hb. apply Z.bits_inj'. intros n _.
  rewrite testbit_lxor_SquareBB, testbit_lor_SquareBB by assumption.
  destruct (Z.eqb_spec n s) as [->|_]; [now rewrite Hb | now rewrite orb_false_r, xorb_false_r].
Qed.

Lemma lxor_lor_SquareBB b s :
  0 <= s -> Z.testbit b s = true -> Z.lor (Z.lxor b (SquareBB s)) (SquareBB s) = b.
Proof.
  intros Hs Hb. apply Z.bits_inj'. intros n _.
  rewrite testbit_lor_SquareBB, testbit_lxor_SquareBB by assumption.
  destruct (Z.eqb_spec n s) as [->|_]; [now rewrite Hb | now rewrite orb_false_r, xorb_false_r].
Qed.

Lemma lxor_fromTo_back b f t :
  Z.lxor (Z.lxor b (Z.lxor (SquareBB f) (SquareBB t))) (Z.lxor (SquareBB t) (SquareBB f)) = b.
Proof.
  rewrite (Z.lxor_comm (SquareBB t)). apply lxor_lxor_cancel.
Qed.

Lemma pieceCount_put_piece_self pc s pos :
  type_of pc <> NO_PIECE_TYPE ->
  pieceCount (put_piece pc s pos) pc = pieceCount pos pc + 1.
Proof.
  intros Hty. rewrite pieceCount_put_piece, piece_eqb_refl.
  assert (E : piece_eqb pc (make_piece (color_of pc) ALL_PIECES) = false).
  { apply piece_eqb_neq. intros E. apply Hty. now rewrite E. }
  rewrite E. unfold b2z. lia.
Qed.

Lemma put_remove_piece_restores pc s pos :
  0 <= s ->
  type_of pc <> NO_PIECE_TYPE ->
  Z.testbit (byTypeBB pos ALL_PIECES) s = false ->
  Z.testbit (byTypeBB pos (type_of pc)) s = false ->
  Z.testbit (byColorBB pos (color_of pc)) s = false ->
  let q := remove_piece pc s (put_piece pc s pos) in
  (forall pt, byTypeBB q pt = byTypeBB pos pt)
  /\ (forall c, byColorBB q c = byColorBB pos c)
  /\ (forall p, pieceCount q p = pieceCount pos p)
  /\ board q s = pc
  /\ (forall t, t <> s -> board q t = board pos t)
  /\ (forall i, pieceList q pc i
                = if i =? pieceCount pos pc then SQ_NONE else pieceList pos pc i)
  /\ index q s = pieceCount pos pc.
Proof.
  intros Hs Hty HA HT HC q. subst q.
  pose proof (pieceCount_put_piece_self pc s pos Hty) as Hcnt.
  conjuncts.
  - intros pt. rewrite byTypeBB_remove_piece, byTypeBB_put_piece.
    destruct (pt_eqb pt ALL_PIECES) eqn:E1, (pt_eqb pt (type_of pc)) eqn:E2;
      cbn [xorb orb]; try reflexivity.
    + apply pt_eqb_eq in E1, E2. exfalso. apply Hty. rewrite <- E2, E1. reflexivity.
    + apply pt_eqb_eq in E1. subst pt. now apply lor_lxor_SquareBB.
    + apply pt_eqb_eq in E2. subst pt. now apply lor_lxor_SquareBB.
  - intros c. rewrite byColorBB_remove_piece, byColorBB_put_piece.
    destruct (color_eqb c (color_of pc)) eqn:E; [|reflexivity].
    apply color_eqb_eq in E. subst c. now apply lor_lxor_SquareBB.
  - intros p. rewrite pieceCount_remove_piece, pieceCount_put_piece. lia.
  - rewrite remove_piece_board, put_piece_board. apply upd_same.
  - intros t Hne. rewrite remove_piece_board, put_piece_board. now apply upd_other.
  - intros i. rewrite remove_piece_pieceList_at, piece_eqb_refl, Hcnt.
    replace (pieceCount pos pc + 1 - 1) with (pieceCount pos pc) by lia.
    rewrite put_piece_pieceList_at, piece_eqb_refl, put_piece_index, !upd_same.
    unfold upd. destruct (i =? pieceCount pos pc); reflexivity.
  - rewrite remove_piece_index, Hcnt.
    replace (pieceCount pos pc + 1 - 1) with (pieceCount pos pc) by lia.
    rewrite put_piece_pieceList_at, piece_eqb_refl, put_piece_index, !upd_same.
    reflexivity.
Qed.

(** X7: [remove_piece] undoes [put_piece] on the bitboards and counts but
    leaves the board entry and clears the list slot *)
Theorem put_then_remove_piece pc s pos :
  0 <= s ->
  type_of pc <> NO_PIECE_TYPE ->
  Z.testbit (byTypeBB pos ALL_PIECES) s = false ->
  Z.testbit (byTypeBB pos (type_of pc)) s = false ->
  Z.testbit (byColorBB pos (color_of pc)) s = false ->
  let q := remove_piece pc s (put_piece pc s pos) in
  (forall pt, byTypeBB q pt = byTypeBB pos pt)
  /\ (forall c, byColorBB q c = byColorBB pos c)
  /\ (forall p, pieceCount q p = pieceCount pos p)
  /\ board q s = pc
  /\ (forall t, t <> s -> board q t = board pos t)
  /\ (forall i, pieceList q pc i
                = if i =? pieceCount pos pc then SQ_NONE else pieceList pos pc i)
  /\ index q s = pieceCount pos pc.
Proof. exact (put_remove_piece_restores pc s pos). Qed.

Lemma put_then_remove_piece_witness :
  let pos := cleared_position zero_state in
  let pc := make_piece BLACK QUEEN in
  let q := remove_piece pc 59 (put_piece pc 59 pos) in
  (forall pt, byTypeBB q pt = byTypeBB pos pt)
  /\ (forall c, byColorBB q c = byColorBB pos c)
  /\ (forall p, pieceCount q p = pieceCount pos p)
  /\ board q 59 = pc
  /\ (forall t, t <> 59 -> board q t = board pos t)
  /\ (forall i, pieceList q pc i
                = if i =? pieceCount pos pc then SQ_NONE else pieceList pos pc i)
  /\ index q 59 = pieceCount pos pc.
Proof.
  intros pos pc. apply put_then_remove_piece.
  - lia.
  - discriminate.
  - reflexivity.
  - reflexivity.
  - reflexivity.
Defined.

(** X8: moving a piece there and back restores bitboards, counts and the
    list entry; [index[to]] keeps the value it was given *)
Theorem move_piece_there_and_back pc from to pos :
  from <> to ->
  let q := move_piece pc to from (move_piece pc from to pos) in
  (forall pt, byTypeBB q pt = byTypeBB pos pt)
  /\ (forall c, byColorBB q c = byColorBB pos c)
  /\ (forall p, pieceCount q p = pieceCount pos p)
  /\ board q from = pc /\ board q to = NO_PIECE
  /\ (forall t, t <> from -> t <> to -> board q t = board pos t)
  /\ index q from = index pos from
  /\ index q to = index pos from
  /\ (forall i, pieceList q pc i
                = if i =? index pos from then from else pieceList pos pc i).
Proof.
  intros Hne q. subst q. conjuncts.
  - intros pt. rewrite !byTypeBB_move_piece.
    destruct (xorb (pt_eqb pt ALL_PIECES) (pt_eqb pt (type_of pc)));
      [apply lxor_fromTo_back | reflexivity].
  - intros c. rewrite !byColorBB_move_piece.
    destruct (color_eqb c (color_of pc)); [apply lxor_fromTo_back | reflexivity].
  - intros p. now rewrite !move_piece_pieceCount.
  - rewrite move_piece_board. apply upd_same.
  - rewrite !move_piece_board. rewrite upd_other by congruence. apply upd_same.
  - intros t H1 H2. rewrite !move_piece_board. now rewrite !upd_other.
  - rewrite !move_piece_index. rewrite !upd_same. reflexivity.
  - rewrite !move_piece_index. rewrite upd_other by congruence. apply upd_same.
  - intros i. rewrite !move_piece_pieceList_at, piece_eqb_refl, !move_piece_index, upd_same.
    unfold upd. destruct (i =? index pos from); reflexivity.
Qed.

Lemma move_piece_there_and_back_witness :
  let pos := put_piece (make_piece WHITE ROOK) SQ_A1 (cleared_position zero_state) in
  let pc := make_piece WHITE ROOK in
  let q := move_piece pc SQ_A8 SQ_A1 (move_piece pc SQ_A1 SQ_A8 pos) in
  (forall pt, byTypeBB q pt = byTypeBB pos pt)
  /\ (forall c, byColorBB q c = byColorBB pos c)
  /\ (forall p, pieceCount q p = pieceCount pos p)
  /\ board q SQ_A1 = pc /\ board q SQ_A8 = NO_PIECE
  /\ (forall t, t <> SQ_A1 -> t <> SQ_A8 -> board q t = board pos t)
  /\ index q SQ_A1 = index pos SQ_A1
  /\ index q SQ_A8 = index pos SQ_A1
  /\ (forall i, pieceList q pc i
                = if i =? index pos SQ_A1 then SQ_A1 else pieceList pos pc i).
Proof.
  intros pos pc. apply move_piece_there_and_back. discriminate.
Defined.

(** X9: [remove_gating_piece] undoes [put_gating_piece] but for the
    slot of [gatingSquares] that was used, which holds [SQ_NONE]
    afterwards whatever it held before *)
Theorem put_then_remove_gating_piece c s pos :
  0 <= s < 64 ->
  Z.testbit (gateBB pos) s = false ->
  gateBoard pos s = NO_GATE ->
  NO_GATE <= setupCount pos c < GATE_NB - 1 ->
  let g := setupCount pos c + 1 in
  let p := put_gating_piece c s pos in
  let q := remove_gating_piece c s p in
  (gateBoard p s = g /\ gatingSquares p c g = s
   /\ Z.testbit (gateBB p) s = true /\ setupCount p c = g)
  /\ gateBB q = gateBB pos
  /\ (forall t, gateBoard q t = gateBoard pos t)
  /\ (forall d, setupCount q d = setupCount pos d)
  /\ gatingSquares q c g = SQ_NONE
  /\ (forall d g', d <> c \/ g' <> g -> gatingSquares q d g' = gatingSquares pos d g').
Proof.
  intros Hs Hbit Hgb Hcnt g p q. subst g p q.
  assert (Hs0 : 0 <= s) by lia.
  unfold remove_gating_piece, put_gating_piece.
  destruct pos as [bd gbd gps gsq tbb cbb gbb pcn gcn scn pls idx crm crs cpath ply stm
                   s0 c960].
  unfold add_gate, remove_gate. rsimpl. conjuncts.
  - apply upd_same.
  - now rewrite !updC_same, upd_same.
  - rewrite testbit_lor_SquareBB, Z.eqb_refl by assumption. apply orb_true_r.
  - apply updC_same.
  - now apply lor_lxor_SquareBB.
  - intros t. unfold upd. destruct (Z.eqb_spec t s) as [->|_]; [now rewrite Hgb | reflexivity].
  - intros d. rewrite updC_same. unfold updC.
    destruct (color_eqb d c) eqn:E; [|reflexivity].
    apply color_eqb_eq in E. subst d. lia.
  - rewrite !updC_same. apply upd_same.
  - intros d g' Hd. rewrite !updC_same. unfold updC.
    destruct (color_eqb d c) eqn:E; [|reflexivity].
    apply color_eqb_eq in E. subst d.
    destruct Hd as [Hd|Hg]; [now contradiction Hd|].
    rewrite !upd_other by assumption. reflexivity.
Qed.

Lemma put_then_remove_gating_piece_witness :
  let pos := cleared_position zero_state in
  let g := setupCount pos WHITE + 1 in
  let p := put_gating_piece WHITE SQ_D1 pos in
  let q := remove_gating_piece WHITE SQ_D1 p in
  (gateBoard p SQ_D1 = g /\ gatingSquares p WHITE g = SQ_D1
   /\ Z.testbit (gateBB p) SQ_D1 = true /\ setupCount p WHITE = g)
  /\ gateBB q = gateBB pos
  /\ (forall t, gateBoard q t = gateBoard pos t)
  /\ (forall d, setupCount q d = setupCount pos d)
  /\ gatingSquares q WHITE g = SQ_NONE
  /\ (forall d g', d <> WHITE \/ g' <> g -> gatingSquares q d g' = gatingSquares pos d g').
Proof.
  intros pos. apply put_then_remove_gating_piece.
  - unfold SQ_D1. lia.
  - reflexivity.
  - reflexivity.
  - vm_compute. split; [discriminate | reflexivity].
Defined.

Lemma gate_piece_index c s pos :
  index (gate_piece c s pos)
  = index (put_piece (make_piece c (gatingPieces pos (gateBoard pos s))) s pos).
Proof. destruct pos; reflexivity. Qed.

Lemma gate_piece_pieceList c s pos :
  pieceList (gate_piece c s pos)
  = pieceList (put_piece (make_piece c (gatingPieces pos (gateBoard pos s))) s pos).
Proof. destruct pos; reflexivity. Qed.

Lemma ungate_piece_index c s pos :
  index (ungate_piece c s pos)
  = index (remove_piece (make_piece c (gatingPieces pos (gate (st pos)))) s pos).
Proof. destruct pos; reflexivity. Qed.

Lemma ungate_piece_pieceList c s pos :
  pieceList (ungate_piece c s pos)
  = pieceList (remove_piece (make_piece c (gatingPieces pos (gate (st pos)))) s pos).
Proof. destruct pos; reflexivity. Qed.

Lemma remove_piece_pieceList_ext pc s P P' :
  pieceList P = pieceList P' -> index P = index P' -> pieceCount P = pieceCount P' ->
  pieceList (remove_piece pc s P) = pieceList (remove_piece pc s P').
Proof.
  destruct P as [a1 a2 a3 a4 a5 a6 a7 a8 a9 a10 a11 a12 a13 a14 a15 a16 a17 a18 a19].
  destruct P' as [b1 b2 b3 b4 b5 b6 b7 b8 b9 b10 b11 b12 b13 b14 b15 b16 b17 b18 b19].
  cbn [pieceList index pieceCount]. intros. subst. reflexivity.
Qed.



(* ================================================================= *)
(** ** The tables of [Bitboards::init] *)

Lemma in_words k i : 0 <= i < 2 ^ Z.of_nat k -> In i (words k).
Proof.
  revert i. induction k as [|k IH]; intros i Hi.
  - simpl in *. left. lia.
  - rewrite Nat2Z.inj_succ, Z.pow_succ_r in Hi by lia.
    cbn [words]. apply in_or_app.
    destruct (Z.ltb_spec i (2 ^ Z.of_nat k)).
    + left. apply IH. lia.
    + right. apply in_map_iff. exists (i - 2 ^ Z.of_nat k). split; [lia|].
      apply IH. lia.
Qed.

Lemma filter_none {A} (f : A -> bool) l :
  (forall x, In x l -> f x = false) -> filter f l = [].
Proof.
  induction l as [|y l IH]; intros H; [reflexivity|].
  cbn [filter]. rewrite (H y) by now left. apply IH. intros x Hx. apply H. now right.
Qed.

(** A number below [2^k] has its one bits among the low [k]. *)
Lemma bit_count_low (k : nat) b :
  (k <= 64)%nat -> 0 <= b < 2 ^ Z.of_nat k ->
  bit_count b
  = Z.of_nat (List.length (filter (Z.testbit b) (map Z.of_nat (seq 0 k)))).
Proof.
  intros Hk Hb. unfold bit_count, squares_of, all_squares.
  replace 64%nat with (k + (64 - k))%nat by lia.
  rewrite seq_app, map_app, filter_app, length_app. cbn [Nat.add].
  assert (E : filter (Z.testbit b) (map Z.of_nat (seq k (64 - k))) = []).
  { apply filter_none.
    intros n Hn. apply in_map_iff in Hn. destruct Hn as (m & <- & Hm).
    apply in_seq in Hm.
    destruct (Z.eq_dec b 0) as [->|Hnz]; [apply Z.bits_0|].
    apply Z.bits_above_log2; [lia|].
    assert (Z.log2 b < Z.of_nat k) by (apply Z.log2_lt_pow2; lia). lia. }
  rewrite E. cbn [List.length]. now rewrite Nat.add_0_r.
Qed.

Lemma PopCnt16_check :
  forallb (fun i =>
             let low (k : nat) (b : Z) :=
               Z.of_nat (List.length (filter (Z.testbit b) (map Z.of_nat (seq 0 k)))) in
             let p := popcount16 i in
             let c := low 16%nat i in
             (p mod 2 ^ 8 =? c) && (p =? c + 256 * low 8%nat (Z.shiftr i 8)))
          (words 16) = true.
Proof. vm_compute. reflexivity. Qed.

(** X11: the table [PopCnt16] holds the number of one bits of every 16-bit
    index; [popcount16] itself also carries the count of the high byte
    in its second byte, which the cast to [uint8_t] drops. *)
Theorem PopCnt16_counts_bits i :
  0 <= i < 2 ^ 16 ->
  PopCnt16 i = bit_count i
  /\ popcount16 i = bit_count i + 256 * bit_count (Z.shiftr i 8).
Proof.
  intros Hi. pose proof PopCnt16_check as H. rewrite forallb_forall in H.
  specialize (H i (in_words 16 i Hi)). cbv zeta in H. apply andb_true_iff in H.
  destruct H as [H1 H2]. apply Z.eqb_eq in H1, H2.
  assert (Hh : 0 <= Z.shiftr i 8 < 2 ^ 8).
  { rewrite Z.shiftr_div_pow2 by lia. split.
    - apply Z.div_pos; lia.
    - apply Z.div_lt_upper_bound; lia. }
  rewrite (bit_count_low 16 i) by (simpl; lia).
  rewrite (bit_count_low 8 (Z.shiftr i 8)) by (simpl; lia).
  split; [exact H1 | exact H2].
Qed.

Lemma PopCnt16_counts_bits_witness :
  PopCnt16 0xF0F1 = bit_count 0xF0F1
  /\ popcount16 0xF0F1 = bit_count 0xF0F1 + 256 * bit_count (Z.shiftr 0xF0F1 8).
Proof. apply PopCnt16_counts_bits. lia. Defined.

Lemma in_combine_map {A B} (f : A -> B) (l : list A) x :
  In x l -> In (x, f x) (combine l (map f l)).
Proof.
  induction l as [|y l IH]; [intros []|].
  intros [->|H]; [now left | right; now apply IH].
Qed.

(** The rows of the two colours are computed once for each piece type
    and compared square by square. *)
Lemma PseudoAttacks_check :
  forallb
    (fun pt =>
       let tw := combine all_squares (map (PseudoAttacks WHITE pt) all_squares) in
       let tb := combine all_squares (map (PseudoAttacks BLACK pt) all_squares) in
       forallb (fun sa => negb (Z.testbit (snd sa) (fst sa))) tw
       && forallb (fun sa => negb (Z.testbit (snd sa) (fst sa))) tb
       && forallb
            (fun sa =>
               forallb (fun ta => Bool.eqb (Z.testbit (snd sa) (fst ta))
                                           (Z.testbit (snd ta) (fst sa)))
                       tb)
            tw)
    (NO_PIECE_TYPE :: all_piece_types) = true.
Proof. vm_compute. reflexivity. Qed.

(** X12: the pseudo-attack table is its own reverse with the colour
    flipped, and no square attacks itself. *)
Theorem PseudoAttacks_reverse c pt s t :
  0 <= s < 64 -> 0 <= t < 64 ->
  Z.testbit (PseudoAttacks c pt s) t = Z.testbit (PseudoAttacks (flip c) pt t) s
  /\ Z.testbit (PseudoAttacks c pt s) s = false.
Proof.
  intros Hs Ht. pose proof PseudoAttacks_check as H.
  rewrite forallb_forall in H.
  assert (Hpt : In pt (NO_PIECE_TYPE :: all_piece_types)).
  { destruct (pt_eqb pt NO_PIECE_TYPE) eqn:E.
    - apply pt_eqb_eq in E. now left.
    - right. apply in_all_piece_types. now apply pt_eqb_neq. }
  specialize (H pt Hpt). cbv zeta in H.
  rewrite !andb_true_iff in H. destruct H as [[HW HB] HX].
  rewrite forallb_forall in HW, HB, HX.
  apply in_all_squares in Hs, Ht.
  assert (Hrev : forall a b, In a all_squares -> In b all_squares ->
            Z.testbit (PseudoAttacks WHITE pt a) b
            = Z.testbit (PseudoAttacks BLACK pt b) a).
  { intros a b Ha Hb.
    specialize (HX _ (in_combine_map (PseudoAttacks WHITE pt) all_squares a Ha)).
    rewrite forallb_forall in HX.
    specialize (HX _ (in_combine_map (PseudoAttacks BLACK pt) all_squares b Hb)).
    cbn [fst snd] in HX. now apply eqb_prop. }
  destruct c; cbn [flip]; split.
  - now apply Hrev.
  - specialize (HW _ (in_combine_map (PseudoAttacks WHITE pt) all_squares s Hs)).
    cbn [fst snd] in HW. now apply negb_true_iff.
  - symmetry. now apply Hrev.
  - specialize (HB _ (in_combine_map (PseudoAttacks BLACK pt) all_squares s Hs)).
    cbn [fst snd] in HB. now apply negb_true_iff.
Qed.

Lemma PseudoAttacks_reverse_witness :
  Z.testbit (PseudoAttacks WHITE PAWN 12) 21 = Z.testbit (PseudoAttacks BLACK PAWN 21) 12
  /\ Z.testbit (PseudoAttacks WHITE PAWN 12) 12 = false.
Proof. apply PseudoAttacks_reverse; lia. Defined.

Lemma PassedPawnMask_check :
  forallb
    (fun c =>
       forallb
         (fun s =>
            let m := PassedPawnMask c s in
            (0 <=? m) && (m <? 2 ^ 64)
            && forallb (fun t => Bool.eqb (Z.testbit m t) (in_front_nearby c s t))
                       all_squares)
         all_squares)
    [WHITE; BLACK] = true.
Proof. vm_compute. reflexivity. Qed.

Lemma PassedPawnMask_spec c s :
  0 <= s < 64 ->
  0 <= PassedPawnMask c s < 2 ^ 64
  /\ forall t, 0 <= t < 64 ->
       Z.testbit (PassedPawnMask c s) t = in_front_nearby c s t.
Proof.
  intros Hs. pose proof PassedPawnMask_check as H. rewrite forallb_forall in H.
  assert (Hc : In c [WHITE; BLACK]) by (destruct c; simpl; tauto).
  specialize (H c Hc). rewrite forallb_forall in H.
  apply in_all_squares in Hs. specialize (H s Hs). cbv zeta in H.
  rewrite !andb_true_iff in H. destruct H as [[H1 H2] H3].
  split; [lia|]. intros t Ht. rewrite forallb_forall in H3.
  apply eqb_prop. apply H3. now apply in_all_squares.
Qed.

(** X13: [pawn_passed(c, s)] holds exactly when no enemy pawn stands in
    front of [s], seen from [c], on the same or an adjacent file. *)
Theorem pawn_passed_iff pos c s :
  0 <= s < 64 ->
  (pawn_passed pos c s = true <->
   forall t, 0 <= t < 64 ->
     Z.testbit (pieces_c_pt pos (flip c) PAWN) t = true ->
     in_front_nearby c s t = false).
Proof.
  intros Hs. destruct (PassedPawnMask_spec c s Hs) as [Hb Hm].
  unfold pawn_passed. rewrite Z.eqb_eq. split.
  - intros H t Ht Hp. rewrite <- (Hm t Ht).
    assert (E : Z.testbit (Z.land (pieces_c_pt pos (flip c) PAWN) (PassedPawnMask c s)) t
                = false) by (rewrite H; apply Z.bits_0).
    rewrite Z.land_spec, Hp in E. exact E.
  - intros H. apply Z.bits_inj'. intros n Hn. rewrite Z.land_spec, Z.bits_0.
    destruct (Z.testbit (PassedPawnMask c s) n) eqn:Em; [|apply andb_false_r].
    pose proof (testbit_bound _ _ Hb Em) as Hr.
    rewrite andb_true_r.
    destruct (Z.testbit (pieces_c_pt pos (flip c) PAWN) n) eqn:Ep; [|reflexivity].
    rewrite (Hm n Hr) in Em. rewrite (H n Hr Ep) in Em. discriminate.
Qed.

Lemma pawn_passed_iff_witness :
  pawn_passed (put_piece (make_piece BLACK PAWN) 52 (cleared_position zero_state))
              WHITE 27 = true <->
  forall t, 0 <= t < 64 ->
    Z.testbit (pieces_c_pt (put_piece (make_piece BLACK PAWN) 52
                              (cleared_position zero_state)) (flip WHITE) PAWN) t = true ->
    in_front_nearby WHITE 27 t = false.
Proof. apply pawn_passed_iff. lia. Defined.

(* ================================================================= *)
(** ** [sliding_attack] *)

Lemma sliding_ray_walk fuel d sq occ md s :
  sliding_ray fuel d sq occ md s = walk occ (ray_squares fuel d sq md s).
Proof.
  revert s. induction fuel as [|n IH]; intros s; [reflexivity|].
  cbn [sliding_ray ray_squares].
  destruct (is_ok s && (distance s (s - d) =? 1) && (distance s sq <=? md));
    [|reflexivity].
  cbn [walk]. now rewrite IH.
Qed.

Lemma ray_squares_nonneg fuel d sq md s x :
  In x (ray_squares fuel d sq md s) -> 0 <= x.
Proof.
  revert s. induction fuel as [|n IH]; intros s; [intros []|].
  cbn [ray_squares].
  destruct (is_ok s) eqn:Eok; cbn [andb]; [|intros []].
  destruct ((distance s (s - d) =? 1) && (distance s sq <=? md)); [|intros []].
  intros [<-|H]; [|now apply (IH (s + d))].
  unfold is_ok, SQ_A1 in Eok. apply andb_true_iff in Eok. lia.
Qed.

Lemma walk_ext occ occ' l :
  (forall x, In x (removelast l) -> bb_has occ x = bb_has occ' x) ->
  walk occ l = walk occ' l.
Proof.
  induction l as [|x r IH]; intros H; [reflexivity|].
  cbn [walk]. destruct r as [|y r].
  - cbn [walk]. rewrite Z.lor_0_r. now destruct (bb_has occ x), (bb_has occ' x).
  - rewrite (H x) by (now left). rewrite IH; [reflexivity|].
    intros z Hz. apply H. now right.
Qed.

Lemma walk_testbit occ l t :
  (forall x, In x l -> 0 <= x) ->
  Z.testbit (walk occ l) t = true -> In t l.
Proof.
  induction l as [|x r IH]; intros Hnn H.
  - cbn [walk] in H. rewrite Z.bits_0 in H. discriminate.
  - cbn [walk] in H. assert (Hx : 0 <= x) by (apply Hnn; now left).
    destruct (bb_has occ x).
    + rewrite testbit_SquareBB in H by assumption. apply Z.eqb_eq in H. now left.
    + rewrite Z.lor_spec, testbit_SquareBB in H by assumption.
      apply orb_true_iff in H. destruct H as [H|H].
      * apply Z.eqb_eq in H. now left.
      * right. apply IH; [|assumption]. intros y Hy. apply Hnn. now right.
Qed.

Lemma bb_has_0 x : bb_has 0 x = false.
Proof. unfold bb_has. now rewrite Z.land_0_l. Qed.

Lemma walk_open l t :
  (forall x, In x l -> 0 <= x) -> In t l -> Z.testbit (walk 0 l) t = true.
Proof.
  induction l as [|x r IH]; intros Hnn Hin; [destruct Hin|].
  destruct Hin as [E|H].
  - subst x. cbn [walk]. rewrite bb_has_0, Z.lor_spec, testbit_SquareBB, Z.eqb_refl.
    + reflexivity.
    + apply Hnn. now left.
  - cbn [walk]. rewrite bb_has_0, Z.lor_spec, IH; [apply orb_true_r| |assumption].
    intros y Hy. apply Hnn. now right.
Qed.

(** X14: with blockers, [sliding_attack] returns a part of what it returns
    on the empty board *)
Theorem sliding_attack_within_open_rays directions sq occupied max_dist t :
  Z.testbit (sliding_attack directions sq occupied max_dist) t = true ->
  Z.testbit (sliding_attack directions sq 0 max_dist) t = true.
Proof.
  induction directions as [|d ds IH]; cbn [sliding_attack]; [trivial|].
  destruct (d =? 0); [trivial|].
  rewrite !Z.lor_spec, !orb_true_iff, !sliding_ray_walk. intros [H|H].
  - left. apply walk_open; [apply ray_squares_nonneg|].
    eapply walk_testbit; [apply ray_squares_nonneg | exact H].
  - right. now apply IH.
Qed.

Lemma sliding_attack_within_open_rays_witness :
  Z.testbit (sliding_attack RookDirections SQ_A1 (SquareBB 16) 7) 8 = true
  /\ Z.testbit (sliding_attack RookDirections SQ_A1 0 7) 8 = true.
Proof.
  assert (H : Z.testbit (sliding_attack RookDirections SQ_A1 (SquareBB 16) 7) 8 = true)
    by (vm_compute; reflexivity).
  split; [exact H|].
  exact (sliding_attack_within_open_rays RookDirections SQ_A1 (SquareBB 16) 7 8 H).
Defined.

Lemma sliding_attack_ext directions sq occ occ' md :
  (forall d x, In d directions ->
     In x (removelast (ray_squares 64 d sq md (sq + d))) ->
     bb_has occ x = bb_has occ' x) ->
  sliding_attack directions sq occ md = sliding_attack directions sq occ' md.
Proof.
  induction directions as [|d ds IH]; intros H; [reflexivity|].
  cbn [sliding_attack]. destruct (d =? 0); [reflexivity|].
  rewrite !sliding_ray_walk. f_equal.
  - apply walk_ext. intros x Hx. apply (H d); [now left | assumption].
  - apply IH. intros d' x Hd Hx. apply (H d'); [now right | assumption].
Qed.

Lemma magic_mask_check :
  forallb
    (fun directions =>
       forallb
         (fun s =>
            let m := magic_mask directions s in
            forallb
              (fun d =>
                 forallb (fun x => (0 <=? x) && Z.testbit m x)
                         (removelast (ray_squares 64 d s 7 (s + d))))
              directions)
         all_squares)
    [RookDirections; BishopDirections] = true.
Proof. vm_compute. reflexivity. Qed.

Lemma sliding_attack_mask directions s occupied :
  directions = RookDirections \/ directions = BishopDirections ->
  0 <= s < 64 ->
  sliding_attack directions s occupied 7
  = sliding_attack directions s (Z.land occupied (magic_mask directions s)) 7.
Proof.
  intros Hd Hs. apply sliding_attack_ext. intros d x Hin Hx.
  pose proof magic_mask_check as H. rewrite forallb_forall in H.
  assert (Hd' : In directions [RookDirections; BishopDirections])
    by (destruct Hd as [->| ->]; simpl; tauto).
  specialize (H _ Hd'). rewrite forallb_forall in H.
  apply in_all_squares in Hs. specialize (H s Hs). cbv zeta in H.
  rewrite forallb_forall in H. specialize (H d Hin).
  rewrite forallb_forall in H. specialize (H x Hx).
  apply andb_true_iff in H. destruct H as [H0 H1]. apply Z.leb_le in H0.
  rewrite !bb_has_spec, Z.land_spec, H1 by assumption. now rewrite andb_true_r.
Qed.

(** X15: the attack set depends on the occupancy only through the squares
    of the mask of [init_magics] *)
Theorem sliding_attack_relevant_occupancy directions s occupied :
  directions = RookDirections \/ directions = BishopDirections ->
  0 <= s < 64 ->
  sliding_attack directions s occupied 7
  = sliding_attack directions s (Z.land occupied (magic_mask directions s)) 7.
Proof. exact (sliding_attack_mask directions s occupied). Qed.

Lemma sliding_attack_relevant_occupancy_witness :
  sliding_attack RookDirections 27 (Z.lor (SquareBB 31) (SquareBB 29)) 7
  = sliding_attack RookDirections 27
      (Z.land (Z.lor (SquareBB 31) (SquareBB 29)) (magic_mask RookDirections 27)) 7.
Proof. apply sliding_attack_relevant_occupancy; [now left | lia]. Defined.

(* ================================================================= *)
(** ** [init_magics] *)

Lemma pext_bits_bound b l : 0 <= pext_bits b l < 2 ^ Z.of_nat (List.length l).
Proof.
  induction l as [|x r IH]; [simpl; lia|].
  cbn [pext_bits List.length]. rewrite Nat2Z.inj_succ, Z.pow_succ_r by lia.
  unfold b2z. destruct (Z.testbit b x); lia.
Qed.

Lemma pext_bits_ext b b' l :
  (forall x, In x l -> Z.testbit b x = Z.testbit b' x) ->
  pext_bits b l = pext_bits b' l.
Proof.
  induction l as [|x r IH]; intros H; [reflexivity|].
  cbn [pext_bits]. rewrite (H x) by (now left). rewrite IH; [reflexivity|].
  intros y Hy. apply H. now right.
Qed.

Lemma pext_bits_inj b b' l :
  pext_bits b l = pext_bits b' l ->
  forall x, In x l -> Z.testbit b x = Z.testbit b' x.
Proof.
  induction l as [|x r IH]; intros H y Hy; [destruct Hy|].
  cbn [pext_bits] in H.
  assert (E : Z.testbit b x = Z.testbit b' x /\ pext_bits b r = pext_bits b' r).
  { unfold b2z in H. destruct (Z.testbit b x), (Z.testbit b' x); split; try reflexivity; lia. }
  destruct E as [E1 E2]. destruct Hy as [<-|Hy]; [exact E1 | now apply IH].
Qed.

Lemma pext_land occ m : pext (Z.land occ m) m = pext occ m.
Proof.
  unfold pext. apply pext_bits_ext. intros x Hx. apply squares_of_spec in Hx.
  destruct Hx as [_ Hx]. now rewrite Z.land_spec, Hx, andb_true_r.
Qed.

Lemma pext_bound b m : 0 <= pext b m < 2 ^ bit_count m.
Proof. unfold pext, bit_count. apply pext_bits_bound. Qed.

Lemma pext_unfold b m : pext b m = pext_bits b (squares_of m).
Proof. reflexivity. Qed.

Lemma testbit_in_squares_of m n :
  0 <= m < 2 ^ 64 -> Z.testbit m n = true -> In n (squares_of m).
Proof.
  intros Hm E. apply squares_of_spec. split; [|assumption].
  eapply testbit_bound; eassumption.
Qed.

Lemma pext_inj b b' m :
  0 <= m < 2 ^ 64 -> Z.land b m = b -> Z.land b' m = b' ->
  pext b m = pext b' m -> b = b'.
Proof.
  intros Hm Hb Hb' H. rewrite !pext_unfold in H.
  pose proof (pext_bits_inj b b' (squares_of m) H) as Hx. clear H.
  pose proof (testbit_in_squares_of m) as Hi.
  apply Z.bits_inj'. intros n Hn.
  rewrite <- Hb, <- Hb', !Z.land_spec.
  destruct (Z.testbit m n) eqn:E; [|now rewrite !andb_false_r].
  rewrite !andb_true_r. apply Hx. now apply Hi.
Qed.

Lemma Zlist_eqb_eq a b : Zlist_eqb a b = true -> a = b.
Proof.
  revert b. induction a as [|x a IH]; intros [|y b] H; try discriminate; [reflexivity|].
  cbn [Zlist_eqb] in H. apply andb_true_iff in H. destruct H as [H1 H2].
  apply Z.eqb_eq in H1. subst y. f_equal. now apply IH.
Qed.

(** A run of array writes: distinct indices keep every value written,
    and other indices keep what they held. *)
Lemma writes_other {A} (f : A -> Z) (g : A -> Bitboard) L t i :
  ~ In i (map f L) ->
  fold_left (fun t x => upd t (f x) (g x)) L t i = t i.
Proof.
  revert t. induction L as [|x L IH]; intros t H; [reflexivity|].
  cbn [fold_left]. rewrite IH.
  - apply upd_other. intros E. apply H. left. now symmetry.
  - intros Hin. apply H. now right.
Qed.

Lemma writes_member {A} (f : A -> Z) (g : A -> Bitboard) L t x :
  NoDup (map f L) -> In x L ->
  fold_left (fun t x => upd t (f x) (g x)) L t (f x) = g x.
Proof.
  revert t. induction L as [|y L IH]; intros t Hnd Hin; [destruct Hin|].
  cbn [map] in Hnd. inversion Hnd as [|? ? Hni Hnd']. subst.
  cbn [fold_left]. destruct Hin as [->|Hin].
  - rewrite writes_other by assumption. apply upd_same.
  - now apply IH.
Qed.

Lemma magic_fill_rippler fuel directions s m b size table :
  magic_fill fuel directions s m b size table
  = option_map
      (fun L => (fold_left
                   (fun t x => upd t (attacks m + pext x (mask m))
                                   (sliding_attack directions s x 7)) L table,
                 size + Z.of_nat (List.length L)))
      (rippler fuel (mask m) b).
Proof.
  revert b size table. induction fuel as [|n IH]; intros b size table; [reflexivity|].
  cbn [magic_fill rippler].
  destruct (Z.land (Z.land (b - mask m) U64) (mask m) =? 0).
  - cbn [option_map fold_left List.length]. do 2 f_equal.
  - rewrite IH. destruct (rippler n (mask m) _) as [L|]; [|reflexivity].
    cbn [option_map fold_left List.length]. do 2 f_equal. lia.
Qed.

Lemma NoDup_iota n : NoDup (map Z.of_nat (seq 0 n)).
Proof.
  apply Finite.Injective_map_NoDup; [intros a b H; lia | apply seq_NoDup].
Qed.

(** What the part of one square holds after its loop. *)
Lemma magic_square_spec directions s off table :
  magic_square_ok directions s = true ->
  let m := {| mask := magic_mask directions s;
              shift := 64 - bit_count (magic_mask directions s);
              attacks := off |} in
  exists table',
    magic_fill 4096 directions s m 0 0 table
    = Some (table', 2 ^ bit_count (magic_mask directions s))
    /\ (forall b, Z.land b (magic_mask directions s) = b ->
          table' (off + pext b (magic_mask directions s))
          = sliding_attack directions s b 7)
    /\ (forall i, i < off \/ off + 2 ^ bit_count (magic_mask directions s) <= i ->
          table' i = table i).
Proof.
  intros Hok m. unfold magic_square_ok in Hok. cbv zeta in Hok.
  set (k := magic_mask directions s) in *. clearbody k.
  rewrite !andb_true_iff in Hok. destruct Hok as [[H0 H1] Hr].
  apply Z.leb_le in H0. apply Z.ltb_lt in H1.
  rewrite magic_fill_rippler. change (mask m) with k. change (attacks m) with off.
  destruct (rippler 4096 k 0) as [L|]; [|discriminate].
  rewrite !andb_true_iff in Hr. destruct Hr as [[Hidx Hlen] Hsub].
  cbv zeta in Hidx. apply Zlist_eqb_eq in Hidx.
  assert (Hmap : map (fun b => pext_bits b (squares_of k)) L
                 = map (fun b => pext b k) L).
  { apply map_ext. intros a. symmetry. apply pext_unfold. }
  rewrite Hmap in Hidx. clear Hmap.
  apply Z.eqb_eq in Hlen. rewrite forallb_forall in Hsub.
  cbn [option_map]. eexists. split; [rewrite Z.add_0_l, Hlen; reflexivity|].
  assert (Hnd : NoDup (map (fun x => off + pext x k) L)).
  { rewrite <- (map_map (fun x => pext x k) (fun i => off + i)).
    apply Finite.Injective_map_NoDup; [intros a b H; lia|].
    rewrite Hidx. apply NoDup_iota. }
  split.
  - intros b Hb.
    assert (Hin : In b L).
    { pose proof (pext_bound b k) as Hp. rewrite <- Hlen in Hp.
      set (i := Z.to_nat (pext b k)).
      assert (Hi : (i < List.length L)%nat) by (unfold i; lia).
      assert (Hn : pext (nth i L 0) k = pext b k).
      { transitivity (nth i (map (fun x => pext x k) L) (pext 0 k)).
        - symmetry. apply (map_nth (fun x => pext x k)).
        - rewrite Hidx.
          rewrite (nth_indep _ (pext 0 k) (Z.of_nat 0))
            by (rewrite length_map, length_seq; exact Hi).
          rewrite (map_nth Z.of_nat), seq_nth by exact Hi. unfold i. lia. }
      assert (Hmem : In (nth i L 0) L) by (now apply nth_In).
      replace b with (nth i L 0); [exact Hmem|].
      apply (pext_inj _ _ k); [lia | | exact Hb | exact Hn].
      apply Z.eqb_eq. now apply Hsub. }
    apply (writes_member (fun x => off + pext x k)
             (fun x => sliding_attack directions s x 7) L table b Hnd Hin).
  - intros i Hi.
    apply (writes_other (fun x => off + pext x k)
             (fun x => sliding_attack directions s x 7)).
    rewrite in_map_iff. intros (x & Hx & _). pose proof (pext_bound x k). lia.
Qed.

Lemma magic_offset_succ directions k :
  magic_offset directions (S k)
  = magic_offset directions k + 2 ^ bit_count (magic_mask directions (Z.of_nat k)).
Proof. reflexivity. Qed.

Lemma magic_offset_mono directions a b :
  (a <= b)%nat -> magic_offset directions a <= magic_offset directions b.
Proof.
  induction 1 as [|b Hle IH]; [lia|]. cbn [magic_offset].
  pose proof (Z.pow_nonneg 2 (bit_count (magic_mask directions (Z.of_nat b)))). lia.
Qed.

Lemma magic_step_inv directions j st :
  magic_inv directions j st ->
  magic_square_ok directions (Z.of_nat j) = true ->
  exists st', magic_step directions (Some st) (Z.of_nat j) = Some st'
              /\ magic_inv directions (S j) st'.
Proof.
  destruct st as [[table magics] size]. intros [HI HS] Hok.
  set (s := Z.of_nat j) in *.
  assert (Hoff : (if s =? SQ_A1 then 0 else attacks (magics (s - 1)) + size)
                 = magic_offset directions j).
  { destruct j as [|k]; [reflexivity|].
    replace (s =? SQ_A1) with false by (symmetry; apply Z.eqb_neq; unfold s, SQ_A1; lia).
    replace (s - 1) with (Z.of_nat k) by (unfold s; lia).
    destruct (HI k (Nat.lt_succ_diag_r k)) as (_ & Ha & _).
    rewrite Ha, (HS k eq_refl). reflexivity. }
  destruct (magic_square_spec directions s (magic_offset directions j) table Hok)
    as (table' & Hfill & Hin & Hout).
  unfold magic_step. cbv zeta. rewrite Hoff.
  change (Z.land (sliding_attack directions s 0 7) (bb_not (magic_edges s)))
    with (magic_mask directions s).
  rewrite Hfill. eexists. split; [reflexivity|].
  split.
  - intros t Ht. destruct (Nat.eq_dec t j) as [->|Hne].
    + fold s. rewrite upd_same. cbn [mask attacks]. repeat split. exact Hin.
    + assert (Hlt : (t < j)%nat) by lia.
      rewrite upd_other by (unfold s; lia).
      destruct (HI t Hlt) as (Hm & Ha & Ht').
      split; [exact Hm|]. split; [exact Ha|].
      intros b Hb. rewrite Hout; [now apply Ht'|]. left.
      pose proof (pext_bound b (magic_mask directions (Z.of_nat t))).
      pose proof (magic_offset_mono directions (S t) j Hlt) as Hmono.
      cbn [magic_offset] in Hmono. lia.
  - intros k Hk. injection Hk as <-. reflexivity.
Qed.

Lemma magic_fold_inv directions n : forall j st,
  magic_inv directions j st ->
  (forall s, (j <= s < j + n)%nat -> magic_square_ok directions (Z.of_nat s) = true) ->
  exists st', fold_left (magic_step directions) (map Z.of_nat (seq j n)) (Some st)
              = Some st'
              /\ magic_inv directions (j + n) st'.
Proof.
  induction n as [|n IH]; intros j st Hinv Hok.
  - exists st. rewrite Nat.add_0_r. now split.
  - cbn [seq map fold_left].
    destruct (magic_step_inv directions j st Hinv) as (st1 & Hs & Hinv1).
    { apply Hok. lia. }
    rewrite Hs. destruct (IH (S j) st1 Hinv1) as (st' & Hf & Hinv').
    { intros s Hs'. apply Hok. lia. }
    exists st'. split; [exact Hf|]. now rewrite Nat.add_succ_r.
Qed.

Lemma magic_squares_check :
  forallb (fun directions => forallb (magic_square_ok directions) all_squares)
          [RookDirections; BishopDirections] = true.
Proof. vm_compute. reflexivity. Qed.

Lemma magic_table_sizes :
  magic_offset RookDirections 64 = RookTable_size
  /\ magic_offset BishopDirections 64 = BishopTable_size.
Proof. split; vm_compute; reflexivity. Qed.

(** The tables after [init_magics]: each square has its mask, its offset
    and, for every subset of the mask, the attack set of that subset. *)
Lemma init_magics_inv directions :
  directions = RookDirections \/ directions = BishopDirections ->
  exists table magics,
    init_magics directions = Some (table, magics)
    /\ forall s, (s < 64)%nat ->
         mask (magics (Z.of_nat s)) = magic_mask directions (Z.of_nat s)
         /\ attacks (magics (Z.of_nat s)) = magic_offset directions s
         /\ forall b, Z.land b (magic_mask directions (Z.of_nat s)) = b ->
              table (magic_offset directions s
                     + pext b (magic_mask directions (Z.of_nat s)))
              = sliding_attack directions (Z.of_nat s) b 7.
Proof.
  intros Hd. pose proof magic_squares_check as Hc. rewrite forallb_forall in Hc.
  assert (Hd' : In directions [RookDirections; BishopDirections])
    by (destruct Hd as [->| ->]; simpl; tauto).
  specialize (Hc _ Hd'). rewrite forallb_forall in Hc.
  destruct (magic_fold_inv directions 64 0 (fun _ => 0, fun _ => mkMagic 0 0 0, 0))
    as ([[table magics] size] & Hf & Hinv & _).
  - split; [intros s Hs; lia | intros k Hk; discriminate].
  - intros s Hs. apply Hc. apply in_all_squares. lia.
  - exists table, magics. split; [|exact Hinv].
    assert (Hf' : fold_left (magic_step directions) all_squares
                    (Some (fun _ => 0, fun _ => mkMagic 0 0 0, 0))
                  = Some (table, magics, size)) by exact Hf.
    unfold init_magics. rewrite Hf'. reflexivity.
Qed.

(** X16: after [init_magics] the entry at [pext(occupied, mask)] of a
    square's part of the table is the attack set for that occupancy *)
Theorem init_magics_lookup directions :
  directions = RookDirections \/ directions = BishopDirections ->
  exists table magics,
    init_magics directions = Some (table, magics)
    /\ forall s occupied, 0 <= s < 64 ->
         table (attacks (magics s) + pext occupied (mask (magics s)))
         = sliding_attack directions s occupied 7.
Proof.
  intros Hd. destruct (init_magics_inv directions Hd) as (table & magics & Hi & H).
  exists table, magics. split; [exact Hi|]. intros s occ Hs.
  destruct (H (Z.to_nat s)) as (Hm & Ha & Hb); [lia|].
  rewrite Z2Nat.id in Hm, Ha, Hb by lia.
  rewrite Hm, Ha, <- pext_land, Hb.
  - symmetry. now apply sliding_attack_mask.
  - now rewrite <- Z.land_assoc, Z.land_diag.
Qed.

Lemma init_magics_lookup_witness :
  exists table magics,
    init_magics BishopDirections = Some (table, magics)
    /\ forall s occupied, 0 <= s < 64 ->
         table (attacks (magics s) + pext occupied (mask (magics s)))
         = sliding_attack BishopDirections s occupied 7.
Proof. apply init_magics_lookup. now right. Defined.

(** X17: every index [init_magics] writes, and every index a look-up can
    form, lies inside [RookTable] and [BishopTable] *)
Theorem init_magics_in_bounds :
  (exists table magics,
     init_magics RookDirections = Some (table, magics)
     /\ forall s occupied, 0 <= s < 64 ->
          0 <= attacks (magics s) + pext occupied (mask (magics s)) < RookTable_size)
  /\ (exists table magics,
        init_magics BishopDirections = Some (table, magics)
        /\ forall s occupied, 0 <= s < 64 ->
             0 <= attacks (magics s) + pext occupied (mask (magics s))
             < BishopTable_size).
Proof.
  destruct magic_table_sizes as [HR HB].
  assert (Hgen : forall directions,
            directions = RookDirections \/ directions = BishopDirections ->
            exists table magics,
              init_magics directions = Some (table, magics)
              /\ forall s occupied, 0 <= s < 64 ->
                   0 <= attacks (magics s) + pext occupied (mask (magics s))
                   < magic_offset directions 64).
  { intros directions Hd.
    destruct (init_magics_inv directions Hd) as (table & magics & Hi & H).
    exists table, magics. split; [exact Hi|]. intros s occ Hs.
    destruct (H (Z.to_nat s)) as (Hm & Ha & _); [lia|].
    rewrite Z2Nat.id in Hm, Ha by lia. rewrite Hm, Ha.
    pose proof (pext_bound occ (magic_mask directions s)) as Hp.
    pose proof (magic_offset_mono directions 0 (Z.to_nat s)) as H0.
    pose proof (magic_offset_mono directions (S (Z.to_nat s)) 64) as H1.
    rewrite (magic_offset_succ directions (Z.to_nat s)), Z2Nat.id in H1 by lia.
    change (magic_offset directions 0) with 0 in H0.
    assert (0 <= magic_offset directions (Z.to_nat s)) by (apply H0; lia).
    assert (magic_offset directions (Z.to_nat s) + 2 ^ bit_count (magic_mask directions s)
            <= magic_offset directions 64) by (apply H1; lia).
    lia. }
  split.
  - rewrite <- HR. apply Hgen. now left.
  - rewrite <- HB. apply Hgen. now right.
Qed.

(* ================================================================= *)
(** ** The Betza registry *)

Lemma betza_ride_walk fuel fo ro occ : forall to atk l,
  betza_ride_squares fuel fo ro to = Some l ->
  betza_ride fuel fo ro occ to atk = Some (Z.lor atk (walk occ l)).
Proof.
  induction fuel as [|n IH]; intros to atk l H; [discriminate|].
  lazy beta iota zeta delta [betza_ride betza_ride_squares] in H |- *.
  fold betza_ride betza_ride_squares in H |- *.
  set (ns := to + fo + 8 * ro) in *. clearbody ns.
  set (back := ns - fo - 8 * ro) in *. clearbody back.
  destruct ((ns <? SQ_A1) || (SQ_H8 <? ns)).
  { injection H as <-. cbn [walk]. now rewrite Z.lor_0_r. }
  destruct (negb (Z.abs (file_of ns - file_of back) =? Z.abs fo)).
  { injection H as <-. cbn [walk]. now rewrite Z.lor_0_r. }
  destruct (betza_ride_squares n fo ro ns) as [r|] eqn:E; [|discriminate].
  injection H as <-. cbn [walk option_map]. unfold bb_has.
  destruct (negb (Z.land occ (SquareBB ns) =? 0)); [reflexivity|].
  rewrite (IH _ _ r E). now rewrite Z.lor_assoc.
Qed.

Lemma ride_squares_check :
  forallb
    (fun s =>
       forallb
         (fun x : Z * Z * Z =>
            let '(fo, ro, d) := x in
            (d =? fo + 8 * ro)
            && match betza_ride_squares 64 fo ro s with
               | Some l => Zlist_eqb l (ray_squares 64 d s 7 (s + d))
               | None => false
               end)
         [(1, 0, EAST); (-1, 0, WEST); (0, 1, NORTH); (0, -1, SOUTH);
          (1, 1, NORTH_EAST); (1, -1, SOUTH_EAST); (-1, 1, NORTH_WEST);
          (-1, -1, SOUTH_WEST)])
    all_squares = true.
Proof. vm_compute. reflexivity. Qed.

(** A rider offset of the registry walks the ray of the engine. *)
Lemma ride_is_ray fo ro d s occ atk :
  In (fo, ro, d)
     [(1, 0, EAST); (-1, 0, WEST); (0, 1, NORTH); (0, -1, SOUTH);
      (1, 1, NORTH_EAST); (1, -1, SOUTH_EAST); (-1, 1, NORTH_WEST);
      (-1, -1, SOUTH_WEST)] ->
  0 <= s < 64 ->
  betza_ride 64 fo ro occ s atk
  = Some (Z.lor atk (sliding_ray 64 d s occ 7 (s + d))).
Proof.
  intros Hin Hs. pose proof ride_squares_check as H. rewrite forallb_forall in H.
  apply in_all_squares in Hs. specialize (H s Hs). rewrite forallb_forall in H.
  specialize (H _ Hin). cbv beta iota in H. apply andb_true_iff in H.
  destruct H as [_ H].
  destruct (betza_ride_squares 64 fo ro s) as [l|] eqn:E; [|discriminate].
  apply Zlist_eqb_eq in H. rewrite (betza_ride_walk 64 fo ro occ s atk l E).
  now rewrite sliding_ray_walk, H.
Qed.

Lemma sliding_attack_Rook s occ md :
  sliding_attack RookDirections s occ md
  = Z.lor (sliding_ray 64 NORTH s occ md (s + NORTH))
      (Z.lor (sliding_ray 64 EAST s occ md (s + EAST))
         (Z.lor (sliding_ray 64 SOUTH s occ md (s + SOUTH))
            (Z.lor (sliding_ray 64 WEST s occ md (s + WEST)) 0))).
Proof. reflexivity. Qed.

Lemma sliding_attack_Bishop s occ md :
  sliding_attack BishopDirections s occ md
  = Z.lor (sliding_ray 64 NORTH_EAST s occ md (s + NORTH_EAST))
      (Z.lor (sliding_ray 64 SOUTH_EAST s occ md (s + SOUTH_EAST))
         (Z.lor (sliding_ray 64 SOUTH_WEST s occ md (s + SOUTH_WEST))
            (Z.lor (sliding_ray 64 NORTH_WEST s occ md (s + NORTH_WEST)) 0))).
Proof. reflexivity. Qed.

Lemma sliding_attack_Queen s occ md :
  sliding_attack QueenDirections s occ md
  = Z.lor (sliding_ray 64 NORTH s occ md (s + NORTH))
      (Z.lor (sliding_ray 64 EAST s occ md (s + EAST))
         (Z.lor (sliding_ray 64 SOUTH s occ md (s + SOUTH))
            (Z.lor (sliding_ray 64 WEST s occ md (s + WEST))
               (Z.lor (sliding_ray 64 NORTH_EAST s occ md (s + NORTH_EAST))
                  (Z.lor (sliding_ray 64 SOUTH_EAST s occ md (s + SOUTH_EAST))
                     (Z.lor (sliding_ray 64 SOUTH_WEST s occ md (s + SOUTH_WEST))
                        (Z.lor (sliding_ray 64 NORTH_WEST s occ md (s + NORTH_WEST))
                           0))))))).
Proof. reflexivity. Qed.

Lemma registry_riders :
  BetzaManager_init CUSTOM_PIECE_3
  = Some (mkBetzaPiece "Rook-like" [mkBetzaPattern "R" rook_offsets true false false])
  /\ BetzaManager_init CUSTOM_PIECE_4
     = Some (mkBetzaPiece "Bishop-like"
               [mkBetzaPattern "B" bishop_offsets true false false])
  /\ BetzaManager_init CUSTOM_PIECE_5
     = Some (mkBetzaPiece "Queen-like" [mkBetzaPattern "Q" king_offsets true false false]).
Proof. repeat split; vm_compute; reflexivity. Qed.

(** Equality of unions of rays, whatever their order. *)
Ltac lor_ac :=
  apply Z.bits_inj'; intros ? _; rewrite ?Z.lor_spec, ?Z.bits_0; btauto.

(** The three riders of the registry against [sliding_attack]. *)
Lemma betza_riders s occ co :
  0 <= s < 64 ->
  getAttacks BetzaManager_init CUSTOM_PIECE_3 s occ co
  = Some (sliding_attack RookDirections s occ 7)
  /\ getAttacks BetzaManager_init CUSTOM_PIECE_4 s occ co
     = Some (sliding_attack BishopDirections s occ 7)
  /\ getAttacks BetzaManager_init CUSTOM_PIECE_5 s occ co
     = Some (sliding_attack QueenDirections s occ 7).
Proof.
  intros Hs. destruct registry_riders as (R3 & R4 & R5).
  unfold getAttacks. rewrite R3, R4, R5.
  cbn [patterns fold_left quietOnly captureOnly andb negb].
  rewrite !andb_false_r. destruct (negb co && false) eqn:E;
    [rewrite andb_false_r in E; discriminate|]. clear E.
  unfold betza_pattern.
  cbn [offsets isRider rook_offsets bishop_offsets king_offsets fold_left fst snd].
  repeat split.
  - rewrite (ride_is_ray 1 0 EAST), (ride_is_ray (-1) 0 WEST),
      (ride_is_ray 0 1 NORTH), (ride_is_ray 0 (-1) SOUTH) by (simpl; tauto || assumption).
    rewrite sliding_attack_Rook. f_equal. lor_ac.
  - rewrite (ride_is_ray 1 1 NORTH_EAST), (ride_is_ray 1 (-1) SOUTH_EAST),
      (ride_is_ray (-1) 1 NORTH_WEST), (ride_is_ray (-1) (-1) SOUTH_WEST)
      by (simpl; tauto || assumption).
    rewrite sliding_attack_Bishop. f_equal. lor_ac.
  - rewrite (ride_is_ray 1 0 EAST), (ride_is_ray (-1) 0 WEST),
      (ride_is_ray 0 1 NORTH), (ride_is_ray 0 (-1) SOUTH),
      (ride_is_ray 1 1 NORTH_EAST), (ride_is_ray 1 (-1) SOUTH_EAST),
      (ride_is_ray (-1) 1 NORTH_WEST), (ride_is_ray (-1) (-1) SOUTH_WEST)
      by (simpl; tauto || assumption).
    rewrite sliding_attack_Queen. f_equal. lor_ac.
Qed.

(** X18: with the registry as [BetzaManager::init] leaves it, the rook-,
    bishop- and queen-like custom pieces attack what [sliding_attack]
    gives for the same occupancy *)
Theorem betza_riders_match_sliding_attack c s occupied :
  0 <= s < 64 ->
  attacks_from_betza BetzaManager_init c CUSTOM_PIECE_3 s occupied
  = Some (sliding_attack RookDirections s occupied 7)
  /\ attacks_from_betza BetzaManager_init c CUSTOM_PIECE_4 s occupied
     = Some (sliding_attack BishopDirections s occupied 7)
  /\ attacks_from_betza BetzaManager_init c CUSTOM_PIECE_5 s occupied
     = Some (sliding_attack QueenDirections s occupied 7).
Proof. intros Hs. exact (betza_riders s occupied false Hs). Qed.

Lemma betza_riders_match_sliding_attack_witness :
  attacks_from_betza BetzaManager_init WHITE CUSTOM_PIECE_3 SQ_A1 (SquareBB 8)
  = Some (sliding_attack RookDirections SQ_A1 (SquareBB 8) 7)
  /\ attacks_from_betza BetzaManager_init WHITE CUSTOM_PIECE_4 SQ_A1 (SquareBB 8)
     = Some (sliding_attack BishopDirections SQ_A1 (SquareBB 8) 7)
  /\ attacks_from_betza BetzaManager_init WHITE CUSTOM_PIECE_5 SQ_A1 (SquareBB 8)
     = Some (sliding_attack QueenDirections SQ_A1 (SquareBB 8) 7).
Proof. apply betza_riders_match_sliding_attack. unfold SQ_A1. lia. Defined.

Lemma betza_pattern_leaper p from occ occ' acc :
  isRider p = false ->
  betza_pattern p from occ acc = betza_pattern p from occ' acc.
Proof. unfold betza_pattern. intros H. rewrite H. reflexivity. Qed.

Lemma fold_patterns_leapers ps from occ co : forall acc,
  forallb (fun p => negb (isRider p)) ps = true ->
  fold_left
    (fun (acc : option Bitboard) (p : BetzaPattern) =>
       if co && quietOnly p then acc
       else if negb co && captureOnly p then acc
       else betza_pattern p from occ acc) ps acc
  = fold_left
      (fun (acc : option Bitboard) (p : BetzaPattern) =>
         if co && quietOnly p then acc
         else if negb co && captureOnly p then acc
         else betza_pattern p from 0 acc) ps acc.
Proof.
  induction ps as [|p ps IH]; intros acc Hl; [cbn [fold_left]; reflexivity|].
  cbn [forallb] in Hl. apply andb_true_iff in Hl. destruct Hl as [Hp Hps].
  apply negb_true_iff in Hp. cbn [fold_left].
  rewrite (betza_pattern_leaper p from occ 0 acc Hp). apply IH. exact Hps.
Qed.

Lemma getAttacks_leapers reg pt piece from occ co :
  reg pt = Some piece ->
  forallb (fun p => negb (isRider p)) (patterns piece) = true ->
  getAttacks reg pt from occ co = getAttacks reg pt from 0 co.
Proof.
  intros Hreg Hl. unfold getAttacks. rewrite Hreg.
  apply fold_patterns_leapers. exact Hl.
Qed.

Lemma registry_leapers :
  BetzaManager_init CUSTOM_PIECE_1
  = Some (mkBetzaPiece "Knight-like"
            [mkBetzaPattern "N" knight_offsets false false false])
  /\ BetzaManager_init CUSTOM_PIECE_2
     = Some (mkBetzaPiece "King-like" [mkBetzaPattern "K" king_offsets false false false])
  /\ BetzaManager_init CUSTOM_PIECE_7
     = Some (mkBetzaPiece "Wazir-Ferz"
               [mkBetzaPattern "WF" king_offsets false false false])
  /\ BetzaManager_init CUSTOM_PIECE_6
     = Some (mkBetzaPiece "Pawn-like"
               [mkBetzaPattern "mW" [(0, 1)] false false true;
                mkBetzaPattern "cF" [(1, 1); (-1, 1)] false true false]).
Proof. repeat split; vm_compute; reflexivity. Qed.

Lemma option_Z_eqb_eq a b : option_Z_eqb a b = true -> a = Some b.
Proof.
  destruct a as [x|]; [|discriminate]. simpl. intros H. apply Z.eqb_eq in H. now subst.
Qed.

Lemma leapers_check :
  forallb
    (fun s =>
       forallb
         (fun c =>
            forallb
              (fun co =>
                 option_Z_eqb (getAttacks BetzaManager_init CUSTOM_PIECE_1 s 0 co)
                              (PseudoAttacks c KNIGHT s)
                 && option_Z_eqb (getAttacks BetzaManager_init CUSTOM_PIECE_2 s 0 co)
                                 (PseudoAttacks c KING s)
                 && option_Z_eqb (getAttacks BetzaManager_init CUSTOM_PIECE_7 s 0 co)
                                 (PseudoAttacks c KING s))
              [true; false]
            && option_Z_eqb (getAttacks BetzaManager_init CUSTOM_PIECE_6 s 0 false)
                            (if s + 8 <=? SQ_H8 then SquareBB (s + 8) else 0)
            && option_Z_eqb (getAttacks BetzaManager_init CUSTOM_PIECE_6 s 0 true)
                            (PseudoAttacks WHITE PAWN s)
            && (PseudoAttacks c ROOK s =? sliding_attack RookDirections s 0 7)
            && (PseudoAttacks c BISHOP s =? sliding_attack BishopDirections s 0 7)
            && (PseudoAttacks c QUEEN s =? sliding_attack QueenDirections s 0 7))
         [WHITE; BLACK])
    all_squares = true.
Proof. vm_compute. reflexivity. Qed.

Lemma leapers_facts s c :
  0 <= s < 64 ->
  (forall co,
     getAttacks BetzaManager_init CUSTOM_PIECE_1 s 0 co = Some (PseudoAttacks c KNIGHT s)
     /\ getAttacks BetzaManager_init CUSTOM_PIECE_2 s 0 co = Some (PseudoAttacks c KING s)
     /\ getAttacks BetzaManager_init CUSTOM_PIECE_7 s 0 co = Some (PseudoAttacks c KING s))
  /\ getAttacks BetzaManager_init CUSTOM_PIECE_6 s 0 false
     = Some (if s + 8 <=? SQ_H8 then SquareBB (s + 8) else 0)
  /\ getAttacks BetzaManager_init CUSTOM_PIECE_6 s 0 true = Some (PseudoAttacks WHITE PAWN s)
  /\ PseudoAttacks c ROOK s = sliding_attack RookDirections s 0 7
  /\ PseudoAttacks c BISHOP s = sliding_attack BishopDirections s 0 7
  /\ PseudoAttacks c QUEEN s = sliding_attack QueenDirections s 0 7.
Proof.
  intros Hs. pose proof leapers_check as H. rewrite forallb_forall in H.
  apply in_all_squares in Hs. specialize (H s Hs). rewrite forallb_forall in H.
  assert (Hc : In c [WHITE; BLACK]) by (destruct c; simpl; tauto).
  specialize (H c Hc). rewrite !andb_true_iff in H.
  destruct H as [[[[[H1 H2] H3] H4] H5] H6]. rewrite forallb_forall in H1.
  split; [|repeat split; (now apply option_Z_eqb_eq) || (now apply Z.eqb_eq)].
  intros co. assert (Hco : In co [true; false]) by (destruct co; simpl; tauto).
  specialize (H1 co Hco). rewrite !andb_true_iff in H1. destruct H1 as [[A B] C].
  repeat split; now apply option_Z_eqb_eq.
Qed.

(** A registry holds for [pt] the entry [init] registers. *)
Lemma getAttacks_same_entry reg reg' pt from occ co :
  reg pt = reg' pt -> getAttacks reg pt from occ co = getAttacks reg' pt from occ co.
Proof. intros H. unfold getAttacks. now rewrite H. Qed.

(** X19: in any registry that holds for the knight-like, king-like and
    wazir-ferz types the entries [BetzaManager::init] registers, these
    pieces attack the knight's and the king's squares of
    [PseudoAttacks], whatever the occupancy; in the empty registry,
    before [init], they attack nothing *)
Theorem betza_leapers_match_PseudoAttacks reg c s occupied :
  0 <= s < 64 ->
  reg CUSTOM_PIECE_1 = BetzaManager_init CUSTOM_PIECE_1 ->
  reg CUSTOM_PIECE_2 = BetzaManager_init CUSTOM_PIECE_2 ->
  reg CUSTOM_PIECE_7 = BetzaManager_init CUSTOM_PIECE_7 ->
  (attacks_from_betza reg c CUSTOM_PIECE_1 s occupied = Some (PseudoAttacks c KNIGHT s)
   /\ attacks_from_betza reg c CUSTOM_PIECE_2 s occupied = Some (PseudoAttacks c KING s)
   /\ attacks_from_betza reg c CUSTOM_PIECE_7 s occupied = Some (PseudoAttacks c KING s))
  /\ (forall pt, attacks_from_betza empty_registry c pt s occupied = Some 0).
Proof.
  intros Hs E1 E2 E7. destruct registry_leapers as (R1 & R2 & R7 & _).
  destruct (leapers_facts s c Hs) as (H & _). destruct (H false) as (A & B & C).
  unfold attacks_from_betza.
  rewrite (getAttacks_same_entry reg BetzaManager_init CUSTOM_PIECE_1 _ _ _ E1),
          (getAttacks_same_entry reg BetzaManager_init CUSTOM_PIECE_2 _ _ _ E2),
          (getAttacks_same_entry reg BetzaManager_init CUSTOM_PIECE_7 _ _ _ E7).
  rewrite (getAttacks_leapers _ _ _ s occupied false R1 eq_refl),
          (getAttacks_leapers _ _ _ s occupied false R2 eq_refl),
          (getAttacks_leapers _ _ _ s occupied false R7 eq_refl).
  split; [now repeat split | intros pt; reflexivity].
Qed.

Lemma betza_leapers_match_PseudoAttacks_witness :
  let reg := addCustomPiece CUSTOM_PIECE_9 "N" "Second-knight" BetzaManager_init in
  (attacks_from_betza reg BLACK CUSTOM_PIECE_1 SQ_G1 Rank2BB
   = Some (PseudoAttacks BLACK KNIGHT SQ_G1)
   /\ attacks_from_betza reg BLACK CUSTOM_PIECE_2 SQ_G1 Rank2BB
      = Some (PseudoAttacks BLACK KING SQ_G1)
   /\ attacks_from_betza reg BLACK CUSTOM_PIECE_7 SQ_G1 Rank2BB
      = Some (PseudoAttacks BLACK KING SQ_G1))
  /\ (forall pt, attacks_from_betza empty_registry BLACK pt SQ_G1 Rank2BB = Some 0).
Proof.
  intros reg. apply betza_leapers_match_PseudoAttacks.
  - unfold SQ_G1. lia.
  - reflexivity.
  - reflexivity.
  - reflexivity.
Defined.

(** X20: in any registry that holds for the pawn-like type the entry
    [BetzaManager::init] registers, [attacks_from_betza] gives the
    pawn-like custom piece only its quiet step to the north, for either
    colour; its capture pattern shows only when [getAttacks] is asked
    for captures *)
Theorem betza_pawn_like_never_captures reg c s occupied :
  0 <= s < 64 ->
  reg CUSTOM_PIECE_6 = BetzaManager_init CUSTOM_PIECE_6 ->
  attacks_from_betza reg c CUSTOM_PIECE_6 s occupied
  = Some (if s + 8 <=? SQ_H8 then SquareBB (s + 8) else 0)
  /\ getAttacks reg CUSTOM_PIECE_6 s occupied true
     = Some (PseudoAttacks WHITE PAWN s).
Proof.
  intros Hs E6. destruct registry_leapers as (_ & _ & _ & R6).
  destruct (leapers_facts s c Hs) as (_ & A & B & _).
  unfold attacks_from_betza.
  rewrite !(getAttacks_same_entry reg BetzaManager_init CUSTOM_PIECE_6 _ _ _ E6).
  rewrite (getAttacks_leapers _ _ _ s occupied false R6 eq_refl),
          (getAttacks_leapers _ _ _ s occupied true R6 eq_refl).
  now split.
Qed.

Lemma betza_pawn_like_never_captures_witness :
  attacks_from_betza BetzaManager_init BLACK CUSTOM_PIECE_6 52 (SquareBB 61)
  = Some (if 52 + 8 <=? SQ_H8 then SquareBB (52 + 8) else 0)
  /\ getAttacks BetzaManager_init CUSTOM_PIECE_6 52 (SquareBB 61) true
     = Some (PseudoAttacks WHITE PAWN 52).
Proof. apply betza_pawn_like_never_captures; [lia | reflexivity]. Defined.

(** X21: [Position::attacks_from_betza] never looks at the board: whatever
    the registry it returns what [getAttacks] gives for the empty
    occupancy, and in any registry that holds for the riding custom
    types the entries [BetzaManager::init] registers, that is the
    open-board attack of the rook, bishop and queen on every position *)
Theorem Position_attacks_from_betza_ignores_blockers reg pos c s :
  0 <= s < 64 ->
  reg CUSTOM_PIECE_3 = BetzaManager_init CUSTOM_PIECE_3 ->
  reg CUSTOM_PIECE_4 = BetzaManager_init CUSTOM_PIECE_4 ->
  reg CUSTOM_PIECE_5 = BetzaManager_init CUSTOM_PIECE_5 ->
  (forall reg' pt, Position_attacks_from_betza reg' pos c pt s
                   = getAttacks reg' pt s 0 false)
  /\ Position_attacks_from_betza reg pos c CUSTOM_PIECE_3 s = Some (PseudoAttacks c ROOK s)
  /\ Position_attacks_from_betza reg pos c CUSTOM_PIECE_4 s
     = Some (PseudoAttacks c BISHOP s)
  /\ Position_attacks_from_betza reg pos c CUSTOM_PIECE_5 s
     = Some (PseudoAttacks c QUEEN s).
Proof.
  intros Hs E3 E4 E5. destruct (betza_riders s 0 false Hs) as (A & B & C).
  destruct (leapers_facts s c Hs) as (_ & _ & _ & R & Bi & Q).
  split; [intros reg' pt; reflexivity|].
  unfold Position_attacks_from_betza, attacks_from_betza.
  rewrite (getAttacks_same_entry reg BetzaManager_init CUSTOM_PIECE_3 _ _ _ E3),
          (getAttacks_same_entry reg BetzaManager_init CUSTOM_PIECE_4 _ _ _ E4),
          (getAttacks_same_entry reg BetzaManager_init CUSTOM_PIECE_5 _ _ _ E5).
  rewrite A, B, C, R, Bi, Q. now repeat split.
Qed.

Lemma Position_attacks_from_betza_ignores_blockers_witness :
  let pos := put_piece (make_piece WHITE PAWN) 8
               (put_piece (make_piece WHITE CUSTOM_PIECE_3) SQ_A1
                  (cleared_position zero_state)) in
  let reg := BetzaManager_init in
  (forall reg' pt, Position_attacks_from_betza reg' pos WHITE pt SQ_A1
                   = getAttacks reg' pt SQ_A1 0 false)
  /\ Position_attacks_from_betza reg pos WHITE CUSTOM_PIECE_3 SQ_A1
     = Some (PseudoAttacks WHITE ROOK SQ_A1)
  /\ Position_attacks_from_betza reg pos WHITE CUSTOM_PIECE_4 SQ_A1
     = Some (PseudoAttacks WHITE BISHOP SQ_A1)
  /\ Position_attacks_from_betza reg pos WHITE CUSTOM_PIECE_5 SQ_A1
     = Some (PseudoAttacks WHITE QUEEN SQ_A1).
Proof.
  intros pos reg. apply Position_attacks_from_betza_ignores_blockers.
  - unfold SQ_A1. lia.
  - reflexivity.
  - reflexivity.
  - reflexivity.
Defined.

(** X22: a custom type registered with a notation outside the nine known
    ones is registered all the same, with no pattern: it counts as a
    custom piece and attacks nothing *)
Theorem addCustomPiece_unknown_notation pt n nm reg from occupied capturesOnly :
  is_custom pt = true ->
  ~ In n ["N"; "K"; "R"; "B"; "Q"; "WF"; "mWcF"; "RN"; "HW"]%string ->
  isCustomPiece (addCustomPiece pt n nm reg) pt = true
  /\ getAttacks (addCustomPiece pt n nm reg) pt from occupied capturesOnly = Some 0.
Proof.
  intros Hc Hn.
  assert (Hp : parse_notation n = []).
  { unfold parse_notation.
    repeat match goal with
           | |- context [String.eqb n ?k] =>
               destruct (String.eqb_spec n k) as [E|_];
               [exfalso; apply Hn; rewrite E; simpl; tauto|]
           end.
    reflexivity. }
  unfold isCustomPiece, getAttacks, addCustomPiece. rewrite Hc. cbn [negb].
  rewrite updT_same. cbn [patterns]. rewrite Hp. split; reflexivity.
Qed.

Lemma addCustomPiece_unknown_notation_witness :
  isCustomPiece (addCustomPiece CUSTOM_PIECE_1 "W" "Wazir" BetzaManager_init)
                CUSTOM_PIECE_1 = true
  /\ getAttacks (addCustomPiece CUSTOM_PIECE_1 "W" "Wazir" BetzaManager_init)
                CUSTOM_PIECE_1 27 0 false = Some 0.
Proof.
  apply addCustomPiece_unknown_notation; [reflexivity|].
  simpl. intros H. repeat (destruct H as [H|H]; [discriminate H|]). exact H.
Defined.

(* ================================================================= *)
(** ** Null moves *)

(** X23: [undo_null_move] after [do_null_move] gives back the very
    position; in between the side is flipped, the en-passant square is
    cleared, the fifty-move counter is one more, [pliesFromNull] is zero
    and the key has the side key and, if there was one, the en-passant
    key folded in *)
Theorem do_undo_null_move T newSt pos :
  let p := do_null_move T newSt pos in
  undo_null_move p = Some pos
  /\ sideToMove p = flip (sideToMove pos)
  /\ epSquare (st p) = SQ_NONE
  /\ rule50 (st p) = rule50 (st pos) + 1
  /\ pliesFromNull (st p) = 0
  /\ key (st p)
     = Z.lxor (if negb (epSquare (st pos) =? SQ_NONE)
               then Z.lxor (key (st pos))
                           (Zobrist_enpassant T (file_of (epSquare (st pos))))
               else key (st pos))
              (Zobrist_side T).
Proof.
  intros p. subst p. unfold do_null_move, undo_null_move.
  destruct pos as [bd gbd gps gsq tbb cbb gbb pcn gcn scn pls idx crm crs cpath ply stm
                   s0 c960].
  destruct s0 as [pk mk npm cr r50 pfn ps ep ky chk capP gt capG rmG prev bfk pin csq].
  rsimpl. unfold upd_st.
  destruct (negb (ep =? SQ_NONE)) eqn:Eep; rsimpl;
    match goal with
    | |- context [set_check_info T ?q ?s] =>
        generalize (set_check_info_core T q s); generalize (set_check_info T q s)
    end;
    intros s' Hc; unfold same_core in Hc; rsimpl;
    destruct s' as [pk' mk' npm' cr' r50' pfn' ps' ep' ky' chk' capP' gt' capG' rmG'
                    prev' bfk' pin' csq'];
    rsimpl; destruct Hc as (_ & _ & _ & _ & H5 & H6 & _ & H8 & H9 & _ & _ & _ & _ & _ & H15);
    subst; rewrite flip_flip; repeat split.
  apply negb_false_iff in Eep. now apply Z.eqb_eq in Eep.
Qed.

(* ================================================================= *)
(** ** The exchange evaluation terminates and is monotone *)

Lemma within64_of_bound b : 0 <= b < 2 ^ 64 -> within64 b.
Proof. intros Hb n Hn. eapply testbit_bound; eassumption. Qed.

Lemma within64_lxor_bit occ s :
  within64 occ -> 0 <= s < 64 -> within64 (Z.lxor occ (SquareBB s)).
Proof.
  intros Hw Hs n Hn. destruct (Z.eq_dec n s) as [E|E]; [now subst n|].
  rewrite Z.lxor_spec, testbit_SquareBB in Hn by lia.
  apply Z.eqb_neq in E. rewrite E, xorb_false_r in Hn. now apply Hw.
Qed.

Lemma within64_land_l a b : within64 a -> within64 (Z.land a b).
Proof.
  intros Hw n Hn. rewrite Z.land_spec in Hn. apply andb_true_iff in Hn. now apply Hw.
Qed.

Lemma lsb_spec b :
  within64 b -> b <> 0 -> Z.testbit b (lsb b) = true /\ 0 <= lsb b < 64.
Proof.
  intros Hw Hb.
  assert (Hex : exists n, Z.testbit b n = true).
  { assert (Hl : Z.land b b <> 0) by now rewrite Z.land_diag.
    apply land_nonzero_iff in Hl. destruct Hl as (n & Hn & _). now exists n. }
  destruct Hex as (n & Hn).
  assert (Hin : In n (squares_of b)) by (apply squares_of_spec; split; [now apply Hw | assumption]).
  unfold lsb. destruct (squares_of b) as [|x l] eqn:E; [destruct Hin|].
  assert (Hx : In x (squares_of b)) by (rewrite E; now left).
  apply squares_of_spec in Hx. tauto.
Qed.

Lemma filter_flip_one {A} (f g : A -> bool) l x :
  NoDup l -> In x l -> f x = true -> g x = false ->
  (forall y, y <> x -> g y = f y) ->
  S (List.length (filter g l)) = List.length (filter f l).
Proof.
  intros Hnd Hin Hf Hg Hother. induction l as [|y l IH]; [destruct Hin|].
  inversion Hnd as [|? ? Hni Hnd']. subst. cbn [filter]. destruct Hin as [->|Hin].
  - rewrite Hf, Hg. cbn [List.length]. f_equal.
    f_equal. apply filter_ext_in. intros z Hz. apply Hother. intros ->. contradiction.
  - assert (Hne : y <> x) by (intros ->; contradiction).
    rewrite (Hother y Hne). destruct (f y); cbn [List.length]; rewrite <- IH; auto.
Qed.

Lemma count_lxor_bit occ s :
  0 <= s < 64 -> Z.testbit occ s = true ->
  S (List.length (squares_of (Z.lxor occ (SquareBB s)))) = List.length (squares_of occ).
Proof.
  intros Hs Hb. unfold squares_of.
  apply (filter_flip_one _ _ _ s); [apply NoDup_all_squares | now apply in_all_squares
                                    | assumption | |].
  - rewrite Z.lxor_spec, testbit_SquareBB, Z.eqb_refl, Hb by lia. reflexivity.
  - intros y Hy. rewrite Z.lxor_spec, testbit_SquareBB by lia.
    destruct (Z.eqb_spec y s); [contradiction | apply xorb_false_r].
Qed.

(** What [min_attacker] returns: the king with nothing changed, or
    another victim with one of the attackers taken out of [occupied]. *)
Lemma min_attacker_spec T pos to stmAttackers : forall pts occupied attackers v occ' att',
  within64 occupied ->
  (forall n, Z.testbit stmAttackers n = true -> Z.testbit occupied n = true) ->
  min_attacker T pts pos to stmAttackers occupied attackers = (v, occ', att') ->
  (v = KING /\ occ' = occupied /\ att' = attackers)
  \/ (v <> KING /\ Z.land att' occ' = att'
      /\ exists s, 0 <= s < 64 /\ Z.testbit occupied s = true
                   /\ occ' = Z.lxor occupied (SquareBB s)).
Proof.
  induction pts as [|pt rest IH]; intros occupied attackers v occ' att' Hw Hsub H.
  - cbn [min_attacker] in H. injection H as <- <- <-. now left.
  - destruct pt; cbn [min_attacker] in H;
      try (injection H as <- <- <-; now left);
      (match type of H with
       | (if ?c then _ else _) = _ => destruct c eqn:Eb
       end;
       [ now apply (IH occupied attackers)
       | apply Z.eqb_neq in Eb;
         match type of Eb with
         | ?b <> 0 =>
             assert (Hwb : within64 b)
               by (intros n Hn; apply Hw, Hsub; rewrite Z.land_spec in Hn;
                   now apply andb_true_iff in Hn);
             destruct (lsb_spec b Hwb Eb) as [Hbit Hr];
             injection H as <- <- <-; right;
             split; [discriminate|];
             split; [now rewrite <- Z.land_assoc, Z.land_diag|];
             exists (lsb b); split; [assumption|]; split; [|reflexivity];
             apply Hsub; rewrite Z.land_spec in Hbit;
             now apply andb_true_iff in Hbit
         end ]).
Qed.

(** The attackers [see_loop] lets the side to move use. *)
Lemma stmAttackers_subset (pos : Position) (stm : Color) occupied attackers n :
  Z.land attackers occupied = attackers ->
  Z.testbit
    (if Z.land (pinners (st pos) (flip stm)) (bb_not occupied) =? 0
     then Z.land (Z.land attackers (pieces_c pos stm))
                 (bb_not (blockersForKing (st pos) stm))
     else Z.land attackers (pieces_c pos stm)) n = true ->
  Z.testbit occupied n = true.
Proof.
  intros Hsub H.
  assert (Ha : Z.testbit attackers n = true).
  { destruct (Z.land (pinners (st pos) (flip stm)) (bb_not occupied) =? 0);
      rewrite !Z.land_spec in H; rewrite !andb_true_iff in H; tauto. }
  rewrite <- Hsub, Z.land_spec in Ha. now apply andb_true_iff in Ha.
Qed.

Lemma see_loop_terminates T pos to us : forall fuel stm balance occupied attackers,
  PieceValueMG_pt T KING = 0 ->
  within64 occupied ->
  Z.land attackers occupied = attackers ->
  balance < 0 ->
  (List.length (squares_of occupied) < fuel)%nat ->
  exists r, see_loop T fuel pos to us stm balance occupied attackers = Some r.
Proof.
  induction fuel as [|n IH]; intros stm balance occupied attackers Hk Hw Hsub Hb Hf;
    [lia|].
  cbn [see_loop].
  set (stmA := if Z.land (pinners (st pos) (flip stm)) (bb_not occupied) =? 0
               then Z.land (Z.land attackers (pieces_c pos stm))
                           (bb_not (blockersForKing (st pos) stm))
               else Z.land attackers (pieces_c pos stm)).
  destruct (stmA =? 0); [eexists; reflexivity|].
  destruct (min_attacker T piece_types_PAWN_to_KING pos to stmA occupied attackers)
    as [[v occ'] att'] eqn:Em.
  apply min_attacker_spec in Em;
    [|assumption | intros k Hk'; now apply (stmAttackers_subset pos stm occupied attackers)].
  destruct (0 <=? - balance - 1 - PieceValueMG_pt T v) eqn:Enb; [eexists; reflexivity|].
  apply Z.leb_gt in Enb.
  destruct Em as [(-> & _ & _)|(Hv & Hsub' & s & Hs & Hbit & ->)]; [lia|].
  apply IH; try assumption.
  - now apply within64_lxor_bit.
  - pose proof (count_lxor_bit occupied s Hs Hbit). lia.
Qed.

Lemma see_loop_more_fuel T pos to us : forall fuel stm balance occupied attackers r,
  see_loop T fuel pos to us stm balance occupied attackers = Some r ->
  see_loop T (S fuel) pos to us stm balance occupied attackers = Some r.
Proof.
  induction fuel as [|n IH]; intros stm balance occupied attackers r H; [discriminate|].
  cbn [see_loop] in H. cbn [see_loop].
  set (stmA := if Z.land (pinners (st pos) (flip stm)) (bb_not occupied) =? 0
               then Z.land (Z.land attackers (pieces_c pos stm))
                           (bb_not (blockersForKing (st pos) stm))
               else Z.land attackers (pieces_c pos stm)) in *.
  destruct (stmA =? 0); [exact H|].
  destruct (min_attacker T piece_types_PAWN_to_KING pos to stmA occupied attackers)
    as [[v occ'] att'].
  destruct (0 <=? - balance - 1 - PieceValueMG_pt T v); [exact H|].
  now apply IH.
Qed.

Lemma see_loop_fuel_le T pos to us fuel fuel' stm balance occupied attackers r :
  (fuel <= fuel')%nat ->
  see_loop T fuel pos to us stm balance occupied attackers = Some r ->
  see_loop T fuel' pos to us stm balance occupied attackers = Some r.
Proof.
  induction 1 as [|k Hle IH]; intros H; [exact H|].
  apply see_loop_more_fuel. now apply IH.
Qed.

Lemma squares_of_length b : (List.length (squares_of b) <= 64)%nat.
Proof.
  unfold squares_of. etransitivity; [apply filter_length_le|].
  unfold all_squares. now rewrite length_map, length_seq.
Qed.

Lemma see_occupied_within64 pos from to :
  0 <= pieces pos < 2 ^ 64 -> 0 <= from < 64 -> 0 <= to < 64 ->
  within64 (Z.lxor (Z.lxor (pieces pos) (SquareBB from)) (SquareBB to)).
Proof.
  intros Hp Hf Ht. apply within64_lxor_bit; [|assumption].
  apply within64_lxor_bit; [|assumption]. now apply within64_of_bound.
Qed.

(** The loop of [see_ge] for a normal move, from the point where the
    early answers are passed. *)
Lemma see_ge_loop_terminates T pos from to us stm balance :
  PieceValueMG_pt T KING = 0 ->
  0 <= pieces pos < 2 ^ 64 -> 0 <= from < 64 -> 0 <= to < 64 ->
  balance < 0 ->
  exists r, forall fuel, (65 <= fuel)%nat ->
    see_loop T fuel pos to us stm balance
      (Z.lxor (Z.lxor (pieces pos) (SquareBB from)) (SquareBB to))
      (Z.land (attackers_to_occ T pos to
                 (Z.lxor (Z.lxor (pieces pos) (SquareBB from)) (SquareBB to)))
              (Z.lxor (Z.lxor (pieces pos) (SquareBB from)) (SquareBB to)))
    = Some r.
Proof.
  intros Hk Hp Hf Ht Hb.
  set (occ := Z.lxor (Z.lxor (pieces pos) (SquareBB from)) (SquareBB to)).
  destruct (see_loop_terminates T pos to us 65 stm balance occ
              (Z.land (attackers_to_occ T pos to occ) occ)) as [r Hr]; try assumption.
  - now apply see_occupied_within64.
  - now rewrite <- Z.land_assoc, Z.land_diag.
  - pose proof (squares_of_length occ). lia.
  - exists r. intros fuel Hfuel. now apply (see_loop_fuel_le T pos to us 65 fuel).
Qed.

(** X24: [see_ge] always answers: its loop ends within 65 rounds *)
Theorem see_ge_terminates T pos m threshold :
  PieceValueMG_pt T KING = 0 ->
  0 <= pieces pos < 2 ^ 64 -> 0 <= from_sq m < 64 -> 0 <= to_sq m < 64 ->
  exists r, forall fuel, (65 <= fuel)%nat -> see_ge T fuel pos m threshold = Some r.
Proof.
  intros Hk Hp Hf Ht. unfold see_ge.
  destruct (type_of_m m); try (eexists; intros; reflexivity).
  set (balance := if bb_has (gateBB pos) (to_sq m)
                  then PieceValueMG T (piece_on pos (to_sq m)) - threshold
                       + PieceValueMG_pt T (gating_piece_sq pos (to_sq m))
                  else PieceValueMG T (piece_on pos (to_sq m)) - threshold).
  destruct (balance <? 0); [eexists; intros; reflexivity|].
  destruct (0 <=? balance - PieceValueMG_pt T (type_of (piece_on pos (from_sq m)))) eqn:E;
    [eexists; intros; reflexivity|].
  apply Z.leb_gt in E. now apply see_ge_loop_terminates.
Qed.

Lemma see_ge_terminates_witness :
  exists r, forall fuel, (65 <= fuel)%nat ->
    see_ge see_tables fuel exchange_position (make_move 8 SQ_A8) 100 = Some r.
Proof.
  apply see_ge_terminates.
  - reflexivity.
  - vm_compute. split; [discriminate | reflexivity].
  - vm_compute. split; [discriminate | reflexivity].
  - vm_compute. split; [discriminate | reflexivity].
Defined.

Lemma no_worse_same us stm r : no_worse us stm r r.
Proof. unfold no_worse. destruct (color_eqb us stm); trivial. Qed.

Lemma color_eqb_flip_r us stm : color_eqb us (flip stm) = negb (color_eqb us stm).
Proof. now destruct us, stm. Qed.

(** A smaller balance at the head of the loop is no worse for the side
    to move. *)
Lemma see_loop_mono T pos to us : forall fuel stm b b' occupied attackers r r',
  PieceValueMG_pt T KING = 0 ->
  b <= b' -> b' < 0 ->
  see_loop T fuel pos to us stm b occupied attackers = Some r ->
  see_loop T fuel pos to us stm b' occupied attackers = Some r' ->
  no_worse us stm r r'.
Proof.
  induction fuel as [|n IH]; intros stm b b' occupied attackers r r' Hk Hle Hneg H H';
    [discriminate|].
  cbn [see_loop] in H, H'.
  set (stmA := if Z.land (pinners (st pos) (flip stm)) (bb_not occupied) =? 0
               then Z.land (Z.land attackers (pieces_c pos stm))
                           (bb_not (blockersForKing (st pos) stm))
               else Z.land attackers (pieces_c pos stm)) in *.
  destruct (stmA =? 0).
  { injection H as <-. injection H' as <-. apply no_worse_same. }
  destruct (min_attacker T piece_types_PAWN_to_KING pos to stmA occupied attackers)
    as [[v occ'] att'].
  destruct (0 <=? - b' - 1 - PieceValueMG_pt T v) eqn:E'.
  - apply Z.leb_le in E'.
    assert (E : (0 <=? - b - 1 - PieceValueMG_pt T v) = true) by (apply Z.leb_le; lia).
    rewrite E in H. rewrite H in H'. injection H' as <-. apply no_worse_same.
  - apply Z.leb_gt in E'.
    destruct (0 <=? - b - 1 - PieceValueMG_pt T v) eqn:E.
    + assert (Hv : pt_eqb v KING = false).
      { apply pt_eqb_neq. intros ->. rewrite Hk in E'. lia. }
      rewrite Hv in H. cbn [andb] in H. injection H as <-.
      unfold no_worse. rewrite color_eqb_flip_r, negb_involutive.
      destruct (color_eqb us stm); intros _; reflexivity.
    + apply Z.leb_gt in E.
      assert (Hrec : no_worse us (flip stm) r' r).
      { apply (IH (flip stm) (- b' - 1 - PieceValueMG_pt T v)
                  (- b - 1 - PieceValueMG_pt T v) occ' att'); try assumption. lia. }
      unfold no_worse in *. rewrite color_eqb_flip_r in Hrec.
      destruct (color_eqb us stm); cbn [negb] in Hrec; destruct r, r'; intuition congruence.
Qed.

(** X25: an exchange that passes a threshold passes every lower one, for
    thresholds between [-2^30] and [2^30] and piece values between [0]
    and [2^20]: there the balances, which are sums of one threshold and
    at most three piece values before the loop and lie between minus a
    piece value and [-1] inside it, are far from the ends of [int] *)
Theorem see_ge_threshold_monotone T pos m threshold threshold' fuel :
  PieceValueMG_pt T KING = 0 ->
  (forall pc, 0 <= PieceValueMG T pc < 2 ^ 20) ->
  0 <= pieces pos < 2 ^ 64 -> 0 <= from_sq m < 64 -> 0 <= to_sq m < 64 ->
  (65 <= fuel)%nat ->
  - 2 ^ 30 <= threshold' ->
  threshold' <= threshold ->
  threshold <= 2 ^ 30 ->
  see_ge T fuel pos m threshold = Some true ->
  see_ge T fuel pos m threshold' = Some true.
Proof.
  intros Hk _ Hp Hf Ht Hfuel _ Hle _. unfold see_ge.
  destruct (type_of_m m);
    try (intros H; injection H as H; apply Z.leb_le in H; f_equal; apply Z.leb_le; lia).
  set (v0 := PieceValueMG T (piece_on pos (to_sq m))).
  set (g := PieceValueMG_pt T (gating_piece_sq pos (to_sq m))).
  set (vic := PieceValueMG_pt T (type_of (piece_on pos (from_sq m)))).
  set (gate := if bb_has (gateBB pos) (to_sq m) then g else 0).
  replace (if bb_has (gateBB pos) (to_sq m) then v0 - threshold + g else v0 - threshold)
    with (v0 - threshold + gate) by (unfold gate; destruct (bb_has _ _); lia).
  replace (if bb_has (gateBB pos) (to_sq m) then v0 - threshold' + g else v0 - threshold')
    with (v0 - threshold' + gate) by (unfold gate; destruct (bb_has _ _); lia).
  destruct (v0 - threshold + gate <? 0) eqn:E0; [discriminate|].
  apply Z.ltb_ge in E0.
  assert (E0' : (v0 - threshold' + gate <? 0) = false) by (apply Z.ltb_ge; lia).
  rewrite E0'.
  destruct (0 <=? v0 - threshold' + gate - vic) eqn:E1'; [reflexivity|].
  apply Z.leb_gt in E1'.
  assert (E1 : (0 <=? v0 - threshold + gate - vic) = false) by (apply Z.leb_gt; lia).
  rewrite E1. intros H.
  destruct (see_ge_loop_terminates T pos (from_sq m) (to_sq m)
              (color_of (piece_on pos (from_sq m)))
              (flip (color_of (piece_on pos (from_sq m))))
              (v0 - threshold' + gate - vic) Hk Hp Hf Ht E1') as [r' Hr'].
  specialize (Hr' fuel Hfuel). rewrite Hr'. f_equal.
  assert (Hm : no_worse (color_of (piece_on pos (from_sq m)))
                        (flip (color_of (piece_on pos (from_sq m)))) true r').
  { eapply see_loop_mono; [exact Hk | | exact E1' | exact H | exact Hr']. lia. }
  unfold no_worse in Hm. rewrite color_eqb_flip_r, color_eqb_refl in Hm. cbn [negb] in Hm.
  destruct r'; [reflexivity|]. exfalso.
  assert (true = false); [|discriminate]. now apply Hm.
Qed.

Lemma see_ge_threshold_monotone_witness :
  see_ge see_tables 65 exchange_position (make_move 8 SQ_A8) 100 = Some true
  /\ see_ge see_tables 65 exchange_position (make_move 8 SQ_A8) 0 = Some true.
Proof.
  assert (H : see_ge see_tables 65 exchange_position (make_move 8 SQ_A8) 100 = Some true)
    by (vm_compute; reflexivity).
  split; [exact H|].
  apply (see_ge_threshold_monotone see_tables exchange_position (make_move 8 SQ_A8) 100 0 65).
  - reflexivity.
  - intros [c pt]. destruct pt; cbn [PieceValueMG see_tables type_of pt_index]; lia.
  - vm_compute. split; [discriminate | reflexivity].
  - vm_compute. split; [discriminate | reflexivity].
  - vm_compute. split; [discriminate | reflexivity].
  - lia.
  - lia.
  - lia.
  - lia.
  - exact H.
Defined.

(* ================================================================= *)
(** ** Reversibility of [do_move] / [undo_move] *)

Lemma castling960_position_is_playing :
  is_playing (castling960_position sample_tables) = true
  /\ chess960 (castling960_position sample_tables) = true
  /\ sideToMove (castling960_position sample_tables) = WHITE
  /\ checkersBB (st (castling960_position sample_tables)) = 0
  /\ piece_on (castling960_position sample_tables) SQ_F1 = make_piece WHITE KING
  /\ piece_on (castling960_position sample_tables) SQ_H1 = make_piece WHITE ROOK
  /\ piece_on (castling960_position sample_tables) SQ_G1 = NO_PIECE
  /\ can_castle (castling960_position sample_tables) WHITE_OO = WHITE_OO
  /\ castling_rook_square (castling960_position sample_tables) WHITE_OO = SQ_H1
  /\ castling_impeded (castling960_position sample_tables) WHITE_OO = false.
Proof. vm_compute. repeat split. Qed.

Lemma castling960_round_trip_members :
  option_map
    (fun p => (gateBB p, byTypeBB p CANNON, pieceCount p (make_piece WHITE CANNON)))
    (undo_move sample_tables castle_f1_h1
       (do_move2 sample_tables castle_f1_h1 zero_state
          (castling960_position sample_tables)))
  = Some (0, SquareBB SQ_H1, 1).
Proof. vm_compute. reflexivity. Qed.

Lemma castling960_position_members :
  gateBB (castling960_position sample_tables) = SquareBB SQ_H1
  /\ byTypeBB (castling960_position sample_tables) CANNON = 0
  /\ pieceCount (castling960_position sample_tables) (make_piece WHITE CANNON) = 0.
Proof. repeat split; vm_compute; reflexivity. Qed.

(** C1 fails on the code at a Chess960 castling: with the king on f1,
    the rook on h1 and a gate on the rook's square, [do_move] castles
    and gates the cannon onto h1; [undo_move] then looks for the square
    to ungate at the king's origin f1 (occupied by the castled rook),
    finds it among the destination squares and never ungates h1.  After
    [do_move]; [undo_move] the gate is gone from [gateBB], the cannon is
    still in [byTypeBB] and in the piece counts. *)
Theorem castling960_undo_loses_rook_gate :
  let pos := castling960_position sample_tables in
  exists p,
    undo_move sample_tables castle_f1_h1
      (do_move2 sample_tables castle_f1_h1 zero_state pos) = Some p
    /\ gateBB pos = SquareBB SQ_H1 /\ gateBB p = 0
    /\ byTypeBB pos CANNON = 0 /\ byTypeBB p CANNON = SquareBB SQ_H1
    /\ pieceCount pos (make_piece WHITE CANNON) = 0
    /\ pieceCount p (make_piece WHITE CANNON) = 1
    /\ ~ observably_equal p pos.
Proof.
  intros pos. subst pos.
  pose proof castling960_round_trip_members as H.
  pose proof castling960_position_members as H0.
  destruct (undo_move sample_tables castle_f1_h1
              (do_move2 sample_tables castle_f1_h1 zero_state
                 (castling960_position sample_tables))) as [p|].
  - exists p. cbn [option_map] in H.
    injection H as H1 H2 H3. destruct H0 as (H4 & H5 & H6).
    repeat split; try assumption.
    intros Heq. unfold observably_equal in Heq.
    destruct Heq as (_ & _ & _ & _ & _ & _ & _ & _ & _ & _ & _ & Hg).
    rewrite H1, H4 in Hg. discriminate Hg.
  - discriminate H.
Qed.

(* ================================================================= *)
(** ** Attacks of custom pieces through the position *)

(** C2 fails on the code: with the registry as [BetzaManager::init]
    leaves it, a rook-like custom piece on a1 and a white pawn in front
    of it on a2, [Position::attacks_from_betza] returns the open-board
    rook attack: a3, behind the pawn, is in the set, although the walk
    of [getAttacks] on the position's occupancy stops at a2. *)
Theorem Position_attacks_from_betza_passes_blocker :
  let pos := put_piece (make_piece WHITE PAWN) 8
               (put_piece (make_piece WHITE CUSTOM_PIECE_3) SQ_A1
                  (cleared_position zero_state)) in
  Z.testbit (pieces pos) 8 = true
  /\ Position_attacks_from_betza BetzaManager_init pos WHITE CUSTOM_PIECE_3 SQ_A1
     = Some (PseudoAttacks WHITE ROOK SQ_A1)
  /\ Z.testbit (PseudoAttacks WHITE ROOK SQ_A1) 16 = true
  /\ getAttacks BetzaManager_init CUSTOM_PIECE_3 SQ_A1 (pieces pos) false
     = Some (sliding_attack RookDirections SQ_A1 (pieces pos) 7)
  /\ Z.testbit (sliding_attack RookDirections SQ_A1 (pieces pos) 7) 8 = true
  /\ Z.testbit (sliding_attack RookDirections SQ_A1 (pieces pos) 7) 16 = false.
Proof.
  intros pos. repeat split; vm_compute; reflexivity.
Qed.

(* ================================================================= *)
(** ** The look-up of the sliding attacks *)

(** The loop of [sliding_attack] visits, in each of the eight
    directions, the squares of the ray in the spec's sense. *)
Lemma ray_check :
  forallb
    (fun s =>
       forallb
         (fun ddd : Direction * (Z * Z) =>
            let '(d, (df, dr)) := ddd in
            Zlist_eqb (ray_squares 64 d s 7 (s + d)) (ray df dr s))
         [(NORTH, (0, 1)); (EAST, (1, 0)); (SOUTH, (0, -1)); (WEST, (-1, 0));
          (NORTH_EAST, (1, 1)); (SOUTH_EAST, (1, -1)); (SOUTH_WEST, (-1, -1));
          (NORTH_WEST, (-1, 1))])
    all_squares = true.
Proof. vm_compute. reflexivity. Qed.

Lemma ray_squares_ray s d df dr :
  0 <= s < 64 ->
  In (d, (df, dr))
     [(NORTH, (0, 1)); (EAST, (1, 0)); (SOUTH, (0, -1)); (WEST, (-1, 0));
      (NORTH_EAST, (1, 1)); (SOUTH_EAST, (1, -1)); (SOUTH_WEST, (-1, -1));
      (NORTH_WEST, (-1, 1))] ->
  ray_squares 64 d s 7 (s + d) = ray df dr s.
Proof.
  intros Hs Hd. pose proof ray_check as H. rewrite forallb_forall in H.
  apply in_all_squares in Hs. specialize (H s Hs). rewrite forallb_forall in H.
  specialize (H _ Hd). cbv beta iota in H. now apply Zlist_eqb_eq.
Qed.

(** The bits that [walk] collects are the squares up to the blocker. *)
Lemma walk_until_blocker occ l t :
  (forall x, In x l -> 0 <= x) ->
  Z.testbit (walk occ l) t = true <-> In t (until_blocker occ l).
Proof.
  induction l as [|x r IH]; intros Hnn.
  - cbn [walk until_blocker]. rewrite Z.bits_0. split; [discriminate | intros []].
  - assert (Hx : 0 <= x) by (apply Hnn; now left).
    assert (Hr : forall y, In y r -> 0 <= y) by (intros y Hy; apply Hnn; now right).
    cbn [walk until_blocker]. rewrite (bb_has_spec occ x Hx).
    destruct (Z.testbit occ x).
    + rewrite testbit_SquareBB by assumption. cbn [In]. rewrite Z.eqb_eq.
      split; [intros ->; now left | intros [E|[]]; now symmetry].
    + rewrite Z.lor_spec, orb_true_iff, testbit_SquareBB, Z.eqb_eq by assumption.
      cbn [In]. rewrite (IH Hr). split; (intros [E|H]; [left; now symmetry | now right]).
Qed.

Lemma sliding_ray_reached s occ d df dr t :
  0 <= s < 64 ->
  In (d, (df, dr))
     [(NORTH, (0, 1)); (EAST, (1, 0)); (SOUTH, (0, -1)); (WEST, (-1, 0));
      (NORTH_EAST, (1, 1)); (SOUTH_EAST, (1, -1)); (SOUTH_WEST, (-1, -1));
      (NORTH_WEST, (-1, 1))] ->
  Z.testbit (sliding_ray 64 d s occ 7 (s + d)) t = true
  <-> In t (until_blocker occ (ray df dr s)).
Proof.
  intros Hs Hd. rewrite sliding_ray_walk.
  rewrite walk_until_blocker by (intros x Hx; eapply ray_squares_nonneg; exact Hx).
  now rewrite (ray_squares_ray s d df dr Hs Hd).
Qed.

Lemma sliding_attack_reached_rook s occ t :
  0 <= s < 64 ->
  Z.testbit (sliding_attack RookDirections s occ 7) t = true
  <-> In t (reached rook_steps occ s).
Proof.
  intros Hs. rewrite sliding_attack_Rook. unfold reached, rook_steps.
  cbn [flat_map fst snd]. rewrite !Z.lor_spec, Z.bits_0, !orb_true_iff, !in_app_iff.
  rewrite (sliding_ray_reached s occ NORTH 0 1), (sliding_ray_reached s occ EAST 1 0),
    (sliding_ray_reached s occ SOUTH 0 (-1)), (sliding_ray_reached s occ WEST (-1) 0)
    by (assumption || (simpl; tauto)).
  cbn [In]. intuition discriminate.
Qed.

Lemma sliding_attack_reached_bishop s occ t :
  0 <= s < 64 ->
  Z.testbit (sliding_attack BishopDirections s occ 7) t = true
  <-> In t (reached bishop_steps occ s).
Proof.
  intros Hs. rewrite sliding_attack_Bishop. unfold reached, bishop_steps.
  cbn [flat_map fst snd]. rewrite !Z.lor_spec, Z.bits_0, !orb_true_iff, !in_app_iff.
  rewrite (sliding_ray_reached s occ NORTH_EAST 1 1),
    (sliding_ray_reached s occ SOUTH_EAST 1 (-1)),
    (sliding_ray_reached s occ SOUTH_WEST (-1) (-1)),
    (sliding_ray_reached s occ NORTH_WEST (-1) 1)
    by (assumption || (simpl; tauto)).
  cbn [In]. intuition discriminate.
Qed.

Lemma lookup_is_sliding_attack directions s occ :
  directions = RookDirections \/ directions = BishopDirections ->
  0 <= s < 64 ->
  option_map (fun tm => attacks_bb_lookup tm s occ) (init_magics directions)
  = Some (sliding_attack directions s occ 7).
Proof.
  intros Hd Hs. destruct (init_magics_inv directions Hd) as (table & magics & Hi & H).
  rewrite Hi. cbn [option_map]. f_equal. unfold attacks_bb_lookup. cbn [fst snd].
  destruct (H (Z.to_nat s)) as (Hm & Ha & Hb); [lia|].
  rewrite Z2Nat.id in Hm, Ha, Hb by lia.
  rewrite Hm, Ha, <- pext_land, Hb.
  - symmetry. now apply sliding_attack_mask.
  - now rewrite <- Z.land_assoc, Z.land_diag.
Qed.



(* ================================================================= *)
(** ** The placement moves *)

Lemma first_rank_check :
  forallb
    (fun s =>
       Bool.eqb (Z.testbit Rank1BB s) (rank_of s =? relative_rank WHITE RANK_1)
       && Bool.eqb (Z.testbit Rank8BB s) (rank_of s =? relative_rank BLACK RANK_1)
       && Z.testbit U64 s)
    all_squares = true.
Proof. vm_compute. reflexivity. Qed.

Lemma first_rank_spec us s :
  0 <= s < 64 ->
  Z.testbit (match us with WHITE => Rank1BB | BLACK => Rank8BB end) s
  = (rank_of s =? relative_rank us RANK_1)
  /\ Z.testbit U64 s = true.
Proof.
  intros Hs. pose proof first_rank_check as H. rewrite forallb_forall in H.
  apply in_all_squares in Hs. specialize (H s Hs).
  rewrite !andb_true_iff in H. destruct H as [[H1 H2] H3].
  apply eqb_prop in H1, H2. split; [destruct us; assumption | exact H3].
Qed.

Lemma testbit_bb_not b s : 0 <= s < 64 -> Z.testbit (bb_not b) s = negb (Z.testbit b s).
Proof.
  intros Hs. unfold bb_not. rewrite Z.ldiff_spec.
  destruct (first_rank_spec WHITE s Hs) as [_ H]. now rewrite H.
Qed.

Lemma make_put_injective pt s t :
  make PUT_GATING_PIECE SQ_A1 s pt = make PUT_GATING_PIECE SQ_A1 t pt -> s = t.
Proof. intros H. now injection H. Qed.

(** C5 (as stated) fails: in the placement phase, with a white rook on
    a1 and the white king on e1, the generator emits placements on a1
    and e1, which are not empty. *)
Lemma placement_on_occupied_square :
  game_phase placement_position = GAMEPHASE_PLACING
  /\ ~ placements_on_empty_squares placement_position.
Proof.
  split; [reflexivity|].
  intros H. specialize (H (make PUT_GATING_PIECE SQ_A1 SQ_A1 HAWK)).
  assert (Hin : In (make PUT_GATING_PIECE SQ_A1 SQ_A1 HAWK)
                   (generate_PLACEMENTS placement_position))
    by (vm_compute; left; reflexivity).
  specialize (H Hin). vm_compute in H. discriminate H.
Qed.

(** C5 (amended): the generator emits exactly one [put_gating_piece]
    move, carrying the next catalog entry, for every square of the
    moving side's first rank that is not a gate already, whether the
    square is empty or not; when the side's king stands on a gate, the
    squares of its rooks are left out, and otherwise, when one of its
    rooks stands on a gate, the square of its king is left out. *)
Theorem generate_PLACEMENTS_spec (pos : Position) :
  let us := sideToMove pos in
  let pt := gatingPieces pos (setupCount pos us + 1) in
  let kingGated := negb (Z.land (pieces_c_pt pos us KING) (gateBB pos) =? 0) in
  let rookGated := negb (Z.land (pieces_c_pt pos us ROOK) (gateBB pos) =? 0) in
  NoDup (generate_PLACEMENTS pos)
  /\ forall m,
       In m (generate_PLACEMENTS pos) <->
       exists s,
         m = make PUT_GATING_PIECE SQ_A1 s pt
         /\ 0 <= s < 64
         /\ rank_of s = relative_rank us RANK_1
         /\ Z.testbit (gateBB pos) s = false
         /\ (kingGated = true -> Z.testbit (pieces_c_pt pos us ROOK) s = false)
         /\ (kingGated = false -> rookGated = true ->
             Z.testbit (pieces_c_pt pos us KING) s = false).
Proof.
  intros us pt kingGated rookGated.
  unfold generate_PLACEMENTS, side_to_move, gates, gating_piece, setup_count.
  fold us. fold pt. fold kingGated. fold rookGated.
  pose (first := match us with WHITE => Rank1BB | BLACK => Rank8BB end).
  change (match us with WHITE => Rank1BB | BLACK => Rank8BB end) with first.
  set (b := if kingGated
            then Z.land (Z.land first (bb_not (gateBB pos)))
                        (bb_not (pieces_c_pt pos us ROOK))
            else if rookGated
                 then Z.land (Z.land first (bb_not (gateBB pos)))
                             (bb_not (pieces_c_pt pos us KING))
                 else Z.land first (bb_not (gateBB pos))).
  assert (Hb : forall s, 0 <= s < 64 ->
            Z.testbit b s = true <->
            rank_of s = relative_rank us RANK_1
            /\ Z.testbit (gateBB pos) s = false
            /\ (kingGated = true -> Z.testbit (pieces_c_pt pos us ROOK) s = false)
            /\ (kingGated = false -> rookGated = true ->
                Z.testbit (pieces_c_pt pos us KING) s = false)).
  { intros s Hs. unfold b.
    assert (Hf : Z.testbit first s = (rank_of s =? relative_rank us RANK_1))
      by exact (proj1 (first_rank_spec us s Hs)).
    clearbody kingGated rookGated first.
    destruct kingGated; [|destruct rookGated];
      rewrite ?Z.land_spec, ?testbit_bb_not, Hf by assumption;
      rewrite ?andb_true_iff, ?negb_true_iff, Z.eqb_eq;
      intuition congruence. }
  split.
  - apply Finite.Injective_map_NoDup; [|apply NoDup_squares_of].
    intros s t. apply make_put_injective.
  - intros m. rewrite in_map_iff. split.
    + intros (s & <- & Hin). apply squares_of_spec in Hin. destruct Hin as [Hs Ht].
      exists s. split; [reflexivity|]. split; [exact Hs|]. now apply Hb.
    + intros (s & -> & Hs & H). exists s. split; [reflexivity|].
      apply squares_of_spec. split; [exact Hs|]. now apply Hb.
Qed.

(* ================================================================= *)
(** ** Static exchange evaluation: special moves and gates *)

(** C10: for a move that is not a normal move [see_ge] answers whether
    zero is at least the threshold; for a normal move onto a square that
    hosts a gating piece, the value of that gating piece is part of the
    balance before the exchange loop starts: the early answers and the
    balance handed to the loop are those of the captured piece plus the
    gating piece, less the threshold.  The second part is stated where
    the [int] sums of the source cannot overflow: piece values between
    [0] and [2^20], thresholds between [-2^30] and [2^30]. *)
Theorem see_ge_special_moves_and_gate_value
    (T : Tables) (fuel : nat) (pos : Position) (m : Move) (threshold : Value) :
  (type_of_m m <> NORMAL -> see_ge T fuel pos m threshold = Some (threshold <=? 0))
  /\ (type_of_m m = NORMAL ->
      bb_has (gateBB pos) (to_sq m) = true ->
      (forall pc, 0 <= PieceValueMG T pc < 2 ^ 20) ->
      - 2 ^ 30 <= threshold <= 2 ^ 30 ->
      let from := from_sq m in
      let to := to_sq m in
      let us := color_of (piece_on pos from) in
      let opening := PieceValueMG T (piece_on pos to)
                     + PieceValueMG_pt T (gating_piece_sq pos to) - threshold in
      let victim := PieceValueMG_pt T (type_of (piece_on pos from)) in
      let occupied := Z.lxor (Z.lxor (pieces pos) (SquareBB from)) (SquareBB to) in
      (opening < 0 -> see_ge T fuel pos m threshold = Some false)
      /\ (0 <= opening -> 0 <= opening - victim ->
          see_ge T fuel pos m threshold = Some true)
      /\ (0 <= opening -> opening - victim < 0 ->
          see_ge T fuel pos m threshold
          = see_loop T fuel pos to us (flip us) (opening - victim) occupied
              (Z.land (attackers_to_occ T pos to occupied) occupied))).
Proof.
  split.
  - intros Hm. unfold see_ge. destruct (type_of_m m); try reflexivity.
    now contradiction Hm.
  - intros Hm Hgate _ _ from to us opening victim occupied.
    unfold see_ge. rewrite Hm, Hgate. fold from to.
    replace (PieceValueMG T (piece_on pos to) - threshold
             + PieceValueMG_pt T (gating_piece_sq pos to)) with opening
      by (unfold opening; ring).
    fold victim. fold us. fold occupied.
    repeat split.
    + intros H. apply Z.ltb_lt in H. now rewrite H.
    + intros H0 H1. apply Z.ltb_ge in H0. apply Z.leb_le in H1. now rewrite H0, H1.
    + intros H0 H1. apply Z.ltb_ge in H0. apply Z.leb_gt in H1. now rewrite H0, H1.
Qed.

Lemma see_ge_special_moves_and_gate_value_witness :
  see_ge sample_tables 64 see_sample_position (make CASTLING SQ_H1 SQ_A1 NO_PIECE_TYPE) 0
  = Some true
  /\ see_ge sample_tables 64 see_sample_position (make_move SQ_A1 SQ_A8) 1100 = Some true.
Proof.
  split.
  - apply (proj1 (see_ge_special_moves_and_gate_value sample_tables 64
                    see_sample_position (make CASTLING SQ_H1 SQ_A1 NO_PIECE_TYPE) 0)).
    discriminate.
  - assert (Hg : bb_has (gateBB see_sample_position) (to_sq (make_move SQ_A1 SQ_A8))
                  = true) by (vm_compute; reflexivity).
    assert (Hv : forall pc, 0 <= PieceValueMG sample_tables pc < 2 ^ 20).
    { intros [c pt]. destruct pt; cbn [PieceValueMG sample_tables type_of pt_index]; lia. }
    assert (Ht : - 2 ^ 30 <= 1100 <= 2 ^ 30) by lia.
    destruct (proj2 (see_ge_special_moves_and_gate_value sample_tables 64
                       see_sample_position (make_move SQ_A1 SQ_A8) 1100)
                eq_refl Hg Hv Ht) as (_ & H & _).
    apply H; vm_compute; discriminate.
Defined.
